(** * RemoraNotes: reminder materialization, queue scoring, instance state machine

    A shallow embedding of

      - [ReminderMaterializerService]  (recurrence calculator, instance keys,
        bulk upsert, pruning),
      - [TodayQueueService]            (selection, scoring, ranking, capping),
      - [ReminderService]              (done / snooze / unsnooze / skip),

    together with the part of [date-fns] and of the JavaScript [Date] object
    that these services call.

    Conventions.  A [Date] is its time value: an integer number of
    milliseconds since the epoch.  The local time zone is taken to have a
    fixed offset from UTC (no daylight saving), so local calendar fields are
    those of the proleptic Gregorian calendar on the time value.  All numbers
    handled here are integers well inside the exact range of a JavaScript
    number, so they are modelled in [Z].  MongoDB collections are lists of
    documents in insertion order.

    The time value of a [Date] lies within 8.64e15 ms of the epoch.  The
    clock and the dates stored in documents are such dates.  Date arithmetic
    whose result leaves that range yields the Invalid Date (time value NaN);
    here the arithmetic is carried out in [Z] and its result is kept: a time
    value outside the range stands for the Invalid Date ([isValid] tells),
    which no comparison holds of and which [format] refuses. *)

From Stdlib Require Import ZArith Lia List Bool Ascii String DecimalString Sorted Permutation.
From stdpp Require Import base decidable option list sorting gmap strings.

Local Open Scope Z_scope.

(* ===================================================================== *)
(** ** The JavaScript [Date] object and the [date-fns] functions in use    *)
(* ===================================================================== *)

Module DateFns.

(** A [Date] is its time value in milliseconds. *)
Definition Date := Z.

Definition msPerDay : Z := 1000 * 60 * 60 * 24.

(** ECMAScript [Day(t)] and [TimeWithinDay(t)]. *)
Definition Day (t : Date) : Z := t / msPerDay.
Definition TimeWithinDay (t : Date) : Z := t mod msPerDay.

(** ECMAScript [MakeDate(day, time)]. *)
Definition MakeDate (day time : Z) : Date := day * msPerDay + time.

Definition isLeapYear (y : Z) : bool :=
  ((y mod 4 =? 0) && negb (y mod 100 =? 0)) || (y mod 400 =? 0).

(** Number of days of month [m] (1 = January) in year [y]. *)
Definition daysInMonth (y m : Z) : Z :=
  if m =? 2 then (if isLeapYear y then 29 else 28)
  else if (m =? 4) || (m =? 6) || (m =? 9) || (m =? 11) then 30
  else 31.

(** Day number (days since 1970-01-01) of the civil date [y]-[m]-[d], for
    [1 <= m <= 12]; [d] may lie outside the month, in which case the day
    number runs on into the neighbouring months, as [MakeDay] does. *)
Definition days_from_civil (y m d : Z) : Z :=
  let y' := if m <=? 2 then y - 1 else y in
  let era := y' / 400 in
  let yoe := y' mod 400 in
  let mp := if 2 <? m then m - 3 else m + 9 in
  let doy := (153 * mp + 2) / 5 + d - 1 in
  let doe := yoe * 365 + yoe / 4 - yoe / 100 + doy in
  era * 146097 + doe - 719468.

(** Civil date (year, month 1..12, day of month) of a day number. *)
Definition civil_from_days (z : Z) : Z * Z * Z :=
  let z' := z + 719468 in
  let era := z' / 146097 in
  let doe := z' mod 146097 in
  let yoe := (doe - doe / 1460 + doe / 36524 - doe / 146096) / 365 in
  let doy := doe - (365 * yoe + yoe / 4 - yoe / 100) in
  let mp := (5 * doy + 2) / 153 in
  let d := doy - (153 * mp + 2) / 5 + 1 in
  let m := if mp <? 10 then mp + 3 else mp - 9 in
  let y := yoe + era * 400 in
  ((if m <=? 2 then y + 1 else y), m, d).

(** [Date.prototype.getFullYear], [getMonth] (0-based) and [getDate]. *)
Definition getFullYear (t : Date) : Z := fst (fst (civil_from_days (Day t))).
Definition getMonth (t : Date) : Z := snd (fst (civil_from_days (Day t))) - 1.
Definition getDate (t : Date) : Z := snd (civil_from_days (Day t)).

(** ECMAScript [MakeDay(year, month, date)] with a 0-based [month] that may
    lie outside 0..11 (it is carried into the year). *)
Definition MakeDay (year month date : Z) : Z :=
  let ym := year + month / 12 in
  let mn := month mod 12 in
  days_from_civil ym (mn + 1) 1 + date - 1.

(** [Date.prototype.setFullYear(year)]: month and day of month are kept. *)
Definition setFullYear (t : Date) (year : Z) : Date :=
  MakeDate (MakeDay year (getMonth t) (getDate t)) (TimeWithinDay t).

(** [Date.prototype.setMonth(month, date)]. *)
Definition jsSetMonth (t : Date) (month date : Z) : Date :=
  MakeDate (MakeDay (getFullYear t) month date) (TimeWithinDay t).

(** [Date.prototype.setDate(date)]. *)
Definition jsSetDate (t : Date) (date : Z) : Date :=
  MakeDate (MakeDay (getFullYear t) (getMonth t) date) (TimeWithinDay t).

(** date-fns [setYear]. *)
Definition setYear (date : Date) (year : Z) : Date := setFullYear date year.

(** date-fns [getDaysInMonth] of the month with 0-based index [month] in
    [year]. *)
Definition getDaysInMonth (year month : Z) : Z :=
  daysInMonth (year + month / 12) (month mod 12 + 1).

(** date-fns [setMonth]: the day of month is first clamped to the length
    of the target month ("allows to wrap Jan 31 to Feb 28"). *)
Definition setMonth (date : Date) (month : Z) : Date :=
  let year := getFullYear date in
  let day := getDate date in
  jsSetMonth date month (Z.min day (getDaysInMonth year month)).

(** date-fns [setDate]: no clamping, the native overflow applies. *)
Definition setDate (date : Date) (dayOfMonth : Z) : Date :=
  jsSetDate date dayOfMonth.

(** date-fns [startOfDay] and [endOfDay]. *)
Definition startOfDay (date : Date) : Date := MakeDate (Day date) 0.
Definition endOfDay (date : Date) : Date := MakeDate (Day date) (msPerDay - 1).

(** date-fns [addDays]: a zero amount returns the date itself, otherwise
    [setDate(getDate() + amount)]. *)
Definition addDays (date : Date) (amount : Z) : Date :=
  if amount =? 0 then date else jsSetDate date (getDate date + amount).

(** The largest time value of a [Date] (ECMAScript [TimeClip]): 100 000 000
    days. *)
Definition maxTime : Z := 8640000000000000.

(** date-fns [isValid]: the time value is a number, not NaN. *)
Definition isValid (date : Date) : bool :=
  (- maxTime <=? date) && (date <=? maxTime).

(** A time value that stands for the Invalid Date. *)
Definition InvalidDate : Date := maxTime + 1.

(** date-fns [isBefore], [isAfter]: [+date < +dateToCompare] and
    [+date > +dateToCompare]; a comparison with NaN is false. *)
Definition isBefore (date dateToCompare : Date) : bool :=
  isValid date && isValid dateToCompare && (date <? dateToCompare).
Definition isAfter (date dateToCompare : Date) : bool :=
  isValid date && isValid dateToCompare && (dateToCompare <? date).

(** date-fns [differenceInDays]: the number of full days between the two
    dates, truncated towards zero; [None] is NaN, the result for an Invalid
    Date. *)
Definition differenceInDays (laterDate earlierDate : Date) : option Z :=
  if isValid laterDate && isValid earlierDate
  then Some (Z.quot (laterDate - earlierDate) msPerDay)
  else None.

End DateFns.

Import DateFns.

(** The outcome of a call that may throw: its value, or the message of the
    [Error] thrown. *)
Inductive Completion (A : Type) : Type :=
  | Normal (value : A)
  | Throw (message : string).
Arguments Normal {A} value.
Arguments Throw {A} message.

(** date-fns [format(date, 'yyyy-MM-dd')], through [addLeadingZeros]. *)
Module Format.

Definition numberToString (n : Z) : string :=
  DecimalString.NilZero.string_of_uint (N.to_uint (Z.to_N n)).

Fixpoint zeros (n : nat) : string :=
  match n with O => EmptyString | S n' => String "0" (zeros n') end.

(** [String.prototype.padStart(targetLength, '0')]. *)
Definition padStart (s : string) (targetLength : nat) : string :=
  (zeros (targetLength - String.length s) ++ s)%string.

Definition addLeadingZeros (number : Z) (targetLength : nat) : string :=
  let sign := if number <? 0 then "-"%string else EmptyString in
  (sign ++ padStart (numberToString (Z.abs number)) targetLength)%string.

(** Token [yyyy]: year 0 of JavaScript is printed as 1 (BC). *)
Definition yyyy (date : Date) : string :=
  let signedYear := getFullYear date in
  let year := if 0 <? signedYear then signedYear else 1 - signedYear in
  addLeadingZeros year 4.

Definition MM (date : Date) : string := addLeadingZeros (getMonth date + 1) 2.
Definition dd (date : Date) : string := addLeadingZeros (getDate date) 2.

(** The text of a valid date. *)
Definition format_yyyy_MM_dd (date : Date) : string :=
  (yyyy date ++ "-" ++ MM date ++ "-" ++ dd date)%string.

(** [format]: [if (!isValid(originalDate)) throw new RangeError("Invalid
    time value")], then the tokens. *)
Definition format (date : Date) : Completion string :=
  if isValid date then Normal (format_yyyy_MM_dd date)
  else Throw "Invalid time value".

End Format.

(* ===================================================================== *)
(** ** Shared constants ([packages/shared/src/constants])                  *)
(* ===================================================================== *)

Module Shared.

Inductive ReminderType := birthday | anniversary | follow_up | custom.
Inductive ReminderPriority := high | medium | low.
Inductive ReminderStatus := pending | completed | snoozed | skipped.
Inductive IntervalAnchor := last_contact | creation | custom_date.
Inductive PlanTier := free | pro.

#[global] Instance ReminderType_eq_dec : EqDecision ReminderType.
Proof. solve_decision. Defined.
#[global] Instance ReminderPriority_eq_dec : EqDecision ReminderPriority.
Proof. solve_decision. Defined.
#[global] Instance ReminderStatus_eq_dec : EqDecision ReminderStatus.
Proof. solve_decision. Defined.
#[global] Instance IntervalAnchor_eq_dec : EqDecision IntervalAnchor.
Proof. solve_decision. Defined.
#[global] Instance PlanTier_eq_dec : EqDecision PlanTier.
Proof. solve_decision. Defined.

Definition REMINDER_TYPES : list ReminderType :=
  [birthday; anniversary; follow_up; custom].
Definition REMINDER_PRIORITIES : list ReminderPriority := [high; medium; low].

(** Scoring weights for the Today Queue. *)
Definition REMINDER_TYPE_SCORES (t : ReminderType) : Z :=
  match t with
  | birthday => 15
  | anniversary => 12
  | follow_up => 10
  | custom => 8
  end.

Definition PRIORITY_MULTIPLIERS (p : ReminderPriority) : Z :=
  match p with
  | high => 3
  | medium => 2
  | low => 1
  end.

Definition OVERDUE_PENALTY_PER_DAY : Z := 5.

Definition DEFAULT_NOTIFY_DAYS_BEFORE : list Z := [0; 7].

(** Materialization window in days. *)
Definition MATERIALIZATION_WINDOW (plan : PlanTier) : Z :=
  match plan with
  | free => 30
  | pro => 90
  end.

Record MonthDay := mkMonthDay {
  month : Z;          (* 1-12 *)
  day : Z;            (* 1-31 *)
  year : option Z     (* optional, for age calculation *)
}.

End Shared.

Import Shared.

(* ===================================================================== *)
(** ** Documents                                                          *)
(* ===================================================================== *)

(** An [ObjectId] is handled through its [toString()] form. *)
Definition ObjectId := string.

Module ReminderRule.
(** [LeanReminderRule]: optional fields are [option]s. *)
Record t := mk {
  _id : ObjectId;
  userId : ObjectId;
  contactId : ObjectId;
  type : ReminderType;
  fixedDate : option MonthDay;
  intervalDays : option Z;
  intervalAnchor : option IntervalAnchor;
  customAnchorDate : option Date;
  priority : ReminderPriority;
  isActive : bool;
  notifyDaysBefore : option (list Z);
  customTitle : option string;
  createdAt : Date
}.
End ReminderRule.

Module Contact.
(** The fields of [IContact] the services read. *)
Record t := mk {
  _id : ObjectId;
  userId : ObjectId;
  name : string;
  lastContactedAt : option Date
}.

(** Result of a [.select(...).lean()] query: a selected path that the
    document does not have is simply absent. *)
Record lean := mkLean {
  lean_id : ObjectId;
  lean_userId : option ObjectId;
  lean_name : option string;
  lean_lastContactedAt : option Date
}.
End Contact.

Module ReminderInstance.
Record t := mk {
  _id : ObjectId;
  ruleId : ObjectId;
  userId : ObjectId;
  contactId : ObjectId;
  instanceKey : string;
  dueDate : Date;
  status : ReminderStatus;
  completedAt : option Date;
  snoozedUntil : option Date;
  skippedAt : option Date;
  type : ReminderType;
  priority : ReminderPriority;
  contactName : option string;
  customTitle : option string;
  createdAt : Date;
  updatedAt : Date
}.
End ReminderInstance.

Record LastContactInfo := mkLastContactInfo {
  lci_contactId : string;
  lci_lastContactedAt : option Date
}.

Record RuleError := mkRuleError {
  err_ruleId : string;
  err_error : string
}.

Record MaterializationResult := mkMaterializationResult {
  res_userId : string;
  rulesProcessed : Z;
  instancesCreated : Z;
  instancesUpdated : Z;
  errors : list RuleError
}.

Record AuditLogParams := mkAudit {
  audit_userId : string;
  audit_action : string;
  audit_resourceType : string;
  audit_resourceId : string
}.

(** The database: the three collections the services touch, the audit log,
    and a counter from which the [_id] of an inserted document is drawn. *)
Record Db := mkDb {
  rules : list ReminderRule.t;
  contacts : list Contact.t;
  instances : list ReminderInstance.t;
  auditLog : list AuditLogParams;
  nextObjectId : N
}.

Definition newObjectId (n : N) : ObjectId :=
  DecimalString.NilZero.string_of_uint (N.to_uint n).

(* ===================================================================== *)
(** ** ReminderMaterializerService: recurrence calculator                  *)
(* ===================================================================== *)

Module Materializer.

(** [generateInstanceKey]: [`${ruleId}:${format(dueDate, 'yyyy-MM-dd')}`];
    it throws what [format] throws. *)
Definition generateInstanceKey (ruleId : string) (dueDate : Date)
    : Completion string :=
  match Format.format dueDate with
  | Normal dateStr => Normal (ruleId ++ ":" ++ dateStr)%string
  | Throw message => Throw message
  end.

(** The test both algorithms apply to a notify date.  It holds of an
    Invalid Date, which is neither before the window start nor after the
    window end. *)
Definition inWindow (windowStart windowEnd notifyDate : Date) : bool :=
  negb (isBefore notifyDate windowStart) && negb (isAfter notifyDate windowEnd).

(** The inner loop over the notify offsets, shared by both algorithms:
    [addDays(date, -offset)], pushed when it lies in the window. *)
Definition notifyDates (date windowStart windowEnd : Date)
    (notifyOffsets : list Z) : list Date :=
  List.filter (inWindow windowStart windowEnd)
              (List.map (fun offset => addDays date (- offset)) notifyOffsets).

(** The event date built for one candidate [year] in
    [computeFixedDateDues]. *)
Definition fixedEventDate (windowStart : Date) (year : Z) (fd : MonthDay) : Date :=
  let eventDate := setYear windowStart year in
  let eventDate := setMonth eventDate (month fd - 1) in
  let eventDate := setDate eventDate (day fd) in
  startOfDay eventDate.

Definition computeFixedDateDues (rule : ReminderRule.t)
    (windowStart windowEnd : Date) : list Date :=
  match ReminderRule.fixedDate rule with
  | None => []
  | Some fd =>
      let notifyOffsets := default [0] (ReminderRule.notifyDaysBefore rule) in
      let currentYear := getFullYear windowStart in
      flat_map
        (fun year =>
           notifyDates (fixedEventDate windowStart year fd)
                       windowStart windowEnd notifyOffsets)
        [currentYear; currentYear + 1]
  end.

(** The [switch (rule.intervalAnchor)] of [computeFollowUpDues], followed
    by [startOfDay]. *)
Definition anchorDate (rule : ReminderRule.t) (contactInfo : LastContactInfo) : Date :=
  let anchor :=
    match ReminderRule.intervalAnchor rule with
    | Some last_contact =>
        match lci_lastContactedAt contactInfo with
        | None => ReminderRule.createdAt rule
        | Some d => d
        end
    | Some custom_date =>
        default (ReminderRule.createdAt rule) (ReminderRule.customAnchorDate rule)
    | Some creation | None => ReminderRule.createdAt rule
    end in
  startOfDay anchor.

(** [nextDueDate] as first assigned: the anchor plus
    [(intervalsPassed + 1) * intervalDays] days.  When [daysSinceAnchor] is
    NaN so are [intervalsPassed] and the amount added, and [addDays] gives
    the Invalid Date. *)
Definition initialNextDue (anchor windowStart : Date) (intervalDays : Z) : Date :=
  match differenceInDays windowStart anchor with
  | Some daysSinceAnchor =>
      let intervalsPassed := daysSinceAnchor / intervalDays in   (* Math.floor *)
      addDays anchor ((intervalsPassed + 1) * intervalDays)
  | None => InvalidDate
  end.

(** [while (isBefore(nextDueDate, windowStart)) nextDueDate = addDays(..)].
    The loop ends as soon as the date is not before the window start, which
    includes its having become the Invalid Date.  [None]: the date is still
    before the window start after the passes granted.  This only happens
    with a negative interval, which moves the date away from the window
    until it leaves the range of a [Date]; the loop below then never
    ends. *)
Fixpoint advanceToWindow (fuel : nat) (nextDueDate windowStart : Date)
    (intervalDays : Z) : option Date :=
  if isBefore nextDueDate windowStart then
    match fuel with
    | O => None
    | S fuel' =>
        advanceToWindow fuel' (addDays nextDueDate intervalDays)
                        windowStart intervalDays
    end
  else Some nextDueDate.

(** [while (!isAfter(nextDueDate, windowEnd)) { ... }].  [None] stands for
    a loop that does not end.  That is the case once [nextDueDate] is the
    Invalid Date: it is not after the window end, and [addDays] leaves it
    invalid. *)
Fixpoint emitDues (fuel : nat) (nextDueDate windowStart windowEnd : Date)
    (intervalDays : Z) (notifyOffsets : list Z) : option (list Date) :=
  if isAfter nextDueDate windowEnd then Some []
  else if negb (isValid nextDueDate) then None
  else
    match fuel with
    | O => None
    | S fuel' =>
        rest ← emitDues fuel' (addDays nextDueDate intervalDays)
                 windowStart windowEnd intervalDays notifyOffsets;
        Some (notifyDates nextDueDate windowStart windowEnd notifyOffsets ++ rest)
    end.

(** Iterations granted to a loop that moves a date from [from] up to [to]:
    one per calendar day in between suffices as soon as every pass
    advances the date by at least one day. *)
Definition daysBetween (from to : Date) : nat :=
  Z.to_nat (Day to - Day from + 1).

(** The first due date the generation loop starts from. *)
Definition firstDueDate (rule : ReminderRule.t) (windowStart : Date)
    (contactInfo : LastContactInfo) (intervalDays : Z) : option Date :=
  let anchor := anchorDate rule contactInfo in
  let nextDueDate := initialNextDue anchor windowStart intervalDays in
  advanceToWindow (daysBetween nextDueDate windowStart)
                  nextDueDate windowStart intervalDays.

(** [computeFollowUpDues].  [None]: the source does not terminate.  This
    happens when [nextDueDate] never gets past the window end: with a
    negative [intervalDays], or when adding the interval takes it out of the
    range of a [Date] first (an interval of 100 000 000 days, say).  The
    list returned can hold Invalid Dates: a notify date that left the range
    passes the window test. *)
Definition computeFollowUpDues (rule : ReminderRule.t)
    (windowStart windowEnd : Date) (contactInfo : LastContactInfo)
    : option (list Date) :=
  match ReminderRule.intervalDays rule with
  | None => Some []
  | Some intervalDays =>
      if intervalDays =? 0 then Some []
      else
        let notifyOffsets := default [0] (ReminderRule.notifyDaysBefore rule) in
        nextDueDate ← firstDueDate rule windowStart contactInfo intervalDays;
        emitDues (daysBetween nextDueDate windowEnd)
                 nextDueDate windowStart windowEnd intervalDays notifyOffsets
  end.

(** JavaScript truthiness of [rule.intervalDays]. *)
Definition truthy (n : option Z) : bool :=
  match n with
  | Some k => negb (k =? 0)
  | None => false
  end.

Definition computeDueDates (rule : ReminderRule.t)
    (windowStart windowEnd : Date) (contactInfo : LastContactInfo)
    : option (list Date) :=
  match ReminderRule.type rule with
  | birthday | anniversary =>
      Some (computeFixedDateDues rule windowStart windowEnd)
  | follow_up =>
      computeFollowUpDues rule windowStart windowEnd contactInfo
  | custom =>
      if bool_decide (is_Some (ReminderRule.fixedDate rule)) then
        Some (computeFixedDateDues rule windowStart windowEnd)
      else if truthy (ReminderRule.intervalDays rule) then
        computeFollowUpDues rule windowStart windowEnd contactInfo
      else Some []
  end.

End Materializer.

(* ===================================================================== *)
(** ** MongoDB operations on a collection                                 *)
(* ===================================================================== *)

Module Mongo.

(** Update the first document that satisfies the filter; the result is the
    matched document (before the update) and the collection after it. *)
Fixpoint updateFirst {A} (p : A → bool) (f : A → A) (l : list A)
    : option (A * list A) :=
  match l with
  | [] => None
  | x :: l' =>
      if p x then Some (x, f x :: l')
      else match updateFirst p f l' with
           | Some (y, l'') => Some (y, x :: l'')
           | None => None
           end
  end.

(** Delete the first document that satisfies the filter; the result is
    the deleted document and the collection without it. *)
Fixpoint deleteFirst {A} (p : A → bool) (l : list A) : option (A * list A) :=
  match l with
  | [] => None
  | x :: l' =>
      if p x then Some (x, l')
      else match deleteFirst p l' with
           | Some (y, l'') => Some (y, x :: l'')
           | None => None
           end
  end.

(** The [$setOnInsert] document of the materializer's upsert. *)
Record SetOnInsert := mkSetOnInsert {
  soi_ruleId : ObjectId;
  soi_userId : ObjectId;
  soi_contactId : ObjectId;
  soi_instanceKey : string;
  soi_dueDate : Date;
  soi_status : ReminderStatus;
  soi_type : ReminderType;
  soi_priority : ReminderPriority;
  soi_contactName : option string;
  soi_customTitle : option string;
  soi_createdAt : Date
}.

(** [{ updateOne: { filter: { instanceKey }, update: { $setOnInsert, $set:
    { updatedAt } }, upsert: true } }]. *)
Record UpsertOp := mkUpsertOp {
  filter_instanceKey : string;
  setOnInsert : SetOnInsert;
  set_updatedAt : Date
}.

(** The document an upsert inserts when nothing matches: the equality
    fields of the filter, [$setOnInsert] and [$set]; nothing else. *)
Definition insertedDoc (id : ObjectId) (op : UpsertOp) : ReminderInstance.t :=
  let s := setOnInsert op in
  {| ReminderInstance._id := id;
     ReminderInstance.ruleId := soi_ruleId s;
     ReminderInstance.userId := soi_userId s;
     ReminderInstance.contactId := soi_contactId s;
     ReminderInstance.instanceKey := soi_instanceKey s;
     ReminderInstance.dueDate := soi_dueDate s;
     ReminderInstance.status := soi_status s;
     ReminderInstance.completedAt := None;
     ReminderInstance.snoozedUntil := None;
     ReminderInstance.skippedAt := None;
     ReminderInstance.type := soi_type s;
     ReminderInstance.priority := soi_priority s;
     ReminderInstance.contactName := soi_contactName s;
     ReminderInstance.customTitle := soi_customTitle s;
     ReminderInstance.createdAt := soi_createdAt s;
     ReminderInstance.updatedAt := set_updatedAt op |}.

(** [$set: { updatedAt }] on a matched document. *)
Definition setUpdatedAt (u : Date) (d : ReminderInstance.t) : ReminderInstance.t :=
  {| ReminderInstance._id := ReminderInstance._id d;
     ReminderInstance.ruleId := ReminderInstance.ruleId d;
     ReminderInstance.userId := ReminderInstance.userId d;
     ReminderInstance.contactId := ReminderInstance.contactId d;
     ReminderInstance.instanceKey := ReminderInstance.instanceKey d;
     ReminderInstance.dueDate := ReminderInstance.dueDate d;
     ReminderInstance.status := ReminderInstance.status d;
     ReminderInstance.completedAt := ReminderInstance.completedAt d;
     ReminderInstance.snoozedUntil := ReminderInstance.snoozedUntil d;
     ReminderInstance.skippedAt := ReminderInstance.skippedAt d;
     ReminderInstance.type := ReminderInstance.type d;
     ReminderInstance.priority := ReminderInstance.priority d;
     ReminderInstance.contactName := ReminderInstance.contactName d;
     ReminderInstance.customTitle := ReminderInstance.customTitle d;
     ReminderInstance.createdAt := ReminderInstance.createdAt d;
     ReminderInstance.updatedAt := u |}.

Record BulkState := mkBulkState {
  bulk_docs : list ReminderInstance.t;
  bulk_nextId : N;
  upsertedCount : Z;
  modifiedCount : Z
}.

Definition hasKey (key : string) (d : ReminderInstance.t) : bool :=
  String.eqb (ReminderInstance.instanceKey d) key.

(** One upsert.  A match has its [updatedAt] set (and counts as modified
    when that changes the document); otherwise the document is inserted. *)
Definition applyUpsert (st : BulkState) (op : UpsertOp) : BulkState :=
  match updateFirst (hasKey (filter_instanceKey op))
                    (setUpdatedAt (set_updatedAt op)) (bulk_docs st) with
  | Some (old, docs') =>
      {| bulk_docs := docs';
         bulk_nextId := bulk_nextId st;
         upsertedCount := upsertedCount st;
         modifiedCount :=
           if ReminderInstance.updatedAt old =? set_updatedAt op
           then modifiedCount st else modifiedCount st + 1 |}
  | None =>
      {| bulk_docs :=
           bulk_docs st ++ [insertedDoc (newObjectId (bulk_nextId st)) op];
         bulk_nextId := N.succ (bulk_nextId st);
         upsertedCount := upsertedCount st + 1;
         modifiedCount := modifiedCount st |}
  end.

(** [ReminderInstance.bulkWrite(ops, { ordered: false })], the operations
    taken one after the other. *)
Definition bulkWrite (docs : list ReminderInstance.t) (nextId : N)
    (ops : list UpsertOp) : BulkState :=
  fold_left applyUpsert ops
    {| bulk_docs := docs; bulk_nextId := nextId;
       upsertedCount := 0; modifiedCount := 0 |}.

End Mongo.

(* ===================================================================== *)
(** ** ReminderMaterializerService: materialization and pruning            *)
(* ===================================================================== *)

Module MaterializerService.
Import Materializer Mongo.

(** The operation pushed for one due date of one rule. *)
Definition updateOne (rule : ReminderRule.t) (userId : ObjectId)
    (contactName : option string) (now : Date) (instanceKey : string)
    (dueDate : Date) : UpsertOp :=
  {| filter_instanceKey := instanceKey;
     setOnInsert :=
       {| soi_ruleId := ReminderRule._id rule;
          soi_userId := userId;
          soi_contactId := ReminderRule.contactId rule;
          soi_instanceKey := instanceKey;
          soi_dueDate := dueDate;
          soi_status := pending;
          soi_type := ReminderRule.type rule;
          soi_priority := ReminderRule.priority rule;
          soi_contactName := contactName;
          soi_customTitle := ReminderRule.customTitle rule;
          soi_createdAt := now |};
     set_updatedAt := now |}.

(** [for (const dueDate of dueDates) { ... bulkOps.push(...) }]: the
    operations pushed, in order, and the message of the error that ended
    the loop, if [generateInstanceKey] threw one.  The operations pushed
    before the error stay pushed. *)
Fixpoint stageDueDates (rule : ReminderRule.t) (userId : ObjectId)
    (contactName : option string) (now : Date) (dueDates : list Date)
    : list UpsertOp * option string :=
  match dueDates with
  | [] => ([], None)
  | dueDate :: rest =>
      match generateInstanceKey (ReminderRule._id rule) dueDate with
      | Throw message => ([], Some message)
      | Normal instanceKey =>
          let '(ops, thrown) := stageDueDates rule userId contactName now rest in
          (updateOne rule userId contactName now instanceKey dueDate :: ops,
           thrown)
      end
  end.

(** Write the staged operations (when there are any) and fill in the
    counts of the result. *)
Definition executeBulk (db : Db) (bulkOps : list UpsertOp)
    (userId : string) (processed : Z) (errs : list RuleError)
    : MaterializationResult * Db :=
  match bulkOps with
  | [] =>
      ({| res_userId := userId; rulesProcessed := processed;
          instancesCreated := 0; instancesUpdated := 0; errors := errs |},
       db)
  | _ =>
      let bulkResult := bulkWrite (instances db) (nextObjectId db) bulkOps in
      ({| res_userId := userId; rulesProcessed := processed;
          instancesCreated := upsertedCount bulkResult;
          instancesUpdated := modifiedCount bulkResult;
          errors := errs |},
       {| rules := rules db; contacts := contacts db;
          instances := bulk_docs bulkResult;
          auditLog := auditLog db;
          nextObjectId := bulk_nextId bulkResult |})
  end.

(** [.select('_id name lastContactedAt').lean()]. *)
Definition selectNameLastContacted (c : Contact.t) : Contact.lean :=
  {| Contact.lean_id := Contact._id c;
     Contact.lean_userId := None;
     Contact.lean_name := Some (Contact.name c);
     Contact.lean_lastContactedAt := Contact.lastContactedAt c |}.

(** [.select('_id displayName lastContactedAt').lean()]: contacts have no
    [displayName], and [name] is not selected. *)
Definition selectDisplayNameLastContacted (c : Contact.t) : Contact.lean :=
  {| Contact.lean_id := Contact._id c;
     Contact.lean_userId := None;
     Contact.lean_name := None;
     Contact.lean_lastContactedAt := Contact.lastContactedAt c |}.

(** Accumulator of the loop over the rules of [materializeUser]. *)
Record Staging := mkStaging {
  st_processed : Z;
  st_errors : list RuleError;
  st_bulkOps : list UpsertOp
}.

(** The body of [for (const rule of rules)], [try] and [catch].  The rule
    is counted first.  An error thrown while the rule's operations are
    pushed is caught: its message goes to [errors] under the rule's id, and
    the loop goes on with the next rule.  [None]: [computeDueDates] does not
    return. *)
Definition stageRule (contactMap : gmap string Contact.lean)
    (userId : ObjectId) (windowStart windowEnd now : Date)
    (acc : Staging) (rule : ReminderRule.t) : option Staging :=
  let processed := st_processed acc + 1 in
  match contactMap !! ReminderRule.contactId rule with
  | None =>
      Some {| st_processed := processed;
              st_errors := st_errors acc ++
                [ {| err_ruleId := ReminderRule._id rule;
                     err_error := "Contact not found" |} ];
              st_bulkOps := st_bulkOps acc |}
  | Some contact =>
      dueDates ← computeDueDates rule windowStart windowEnd
                   {| lci_contactId := Contact.lean_id contact;
                      lci_lastContactedAt := Contact.lean_lastContactedAt contact |};
      let '(ops, thrown) :=
        stageDueDates rule userId (Contact.lean_name contact) now dueDates in
      Some {| st_processed := processed;
              st_errors := st_errors acc ++
                match thrown with
                | Some message =>
                    [ {| err_ruleId := ReminderRule._id rule;
                         err_error := message |} ]
                | None => []
                end;
              st_bulkOps := st_bulkOps acc ++ ops |}
  end.

Fixpoint stageRules (contactMap : gmap string Contact.lean)
    (userId : ObjectId) (windowStart windowEnd now : Date)
    (acc : Staging) (rs : list ReminderRule.t) : option Staging :=
  match rs with
  | [] => Some acc
  | rule :: rs' =>
      acc' ← stageRule contactMap userId windowStart windowEnd now acc rule;
      stageRules contactMap userId windowStart windowEnd now acc' rs'
  end.

(** [ReminderRule.find({ userId, isActive: true })]. *)
Definition activeRules (db : Db) (userId : ObjectId) : list ReminderRule.t :=
  List.filter (fun r => String.eqb (ReminderRule.userId r) userId
                        && ReminderRule.isActive r)
              (rules db).

(** [contactMap]: the user's contacts among the rules' targets, by id. *)
Definition buildContactMap (db : Db) (userId : ObjectId)
    (rs : list ReminderRule.t) : gmap string Contact.lean :=
  let contactIds : gset string := list_to_set (List.map ReminderRule.contactId rs) in
  let found :=
    List.map selectNameLastContacted
      (List.filter (fun c => bool_decide (Contact._id c ∈ contactIds)
                             && String.eqb (Contact.userId c) userId)
                   (contacts db)) in
  fold_left (fun m c => <[Contact.lean_id c := c]> m) found ∅.

(** [materializeUser(userId, plan)], run at time [now].  [None]: the call
    does not return ([computeDueDates] does not, for one of the rules). *)
Definition materializeUser (db : Db) (userId : ObjectId) (plan : PlanTier)
    (now : Date) : option (MaterializationResult * Db) :=
  let windowDays := MATERIALIZATION_WINDOW plan in
  let rs := activeRules db userId in
  match rs with
  | [] =>
      Some ({| res_userId := userId; rulesProcessed := 0;
               instancesCreated := 0; instancesUpdated := 0; errors := [] |},
            db)
  | _ =>
      let contactMap := buildContactMap db userId rs in
      let windowStart := startOfDay now in
      let windowEnd := addDays windowStart windowDays in
      staged ← stageRules contactMap userId windowStart windowEnd now
                 {| st_processed := 0; st_errors := []; st_bulkOps := [] |} rs;
      Some (executeBulk db (st_bulkOps staged) userId
                        (st_processed staged) (st_errors staged))
  end.

(** [Model.findById]. *)
Definition findRuleById (db : Db) (id : ObjectId) : option ReminderRule.t :=
  List.find (fun r => String.eqb (ReminderRule._id r) id) (rules db).
Definition findContactById (db : Db) (id : ObjectId) : option Contact.t :=
  List.find (fun c => String.eqb (Contact._id c) id) (contacts db).

(** [materializeRule(ruleId, plan)], run at time [now].  There is no
    [try] here.  [None]: the call gives no result, because
    [computeDueDates] does not return or because [generateInstanceKey]
    throws (the promise is rejected). *)
Definition materializeRule (db : Db) (ruleId : ObjectId) (plan : PlanTier)
    (now : Date) : option (MaterializationResult * Db) :=
  match findRuleById db ruleId with
  | None =>
      Some ({| res_userId := ""; rulesProcessed := 0;
               instancesCreated := 0; instancesUpdated := 0;
               errors := [ {| err_ruleId := ruleId;
                              err_error := "Rule not found" |} ] |},
            db)
  | Some rule =>
      match selectDisplayNameLastContacted <$>
              findContactById db (ReminderRule.contactId rule) with
      | None =>
          Some ({| res_userId := ReminderRule.userId rule; rulesProcessed := 1;
                   instancesCreated := 0; instancesUpdated := 0;
                   errors := [ {| err_ruleId := ruleId;
                                  err_error := "Contact not found" |} ] |},
                db)
      | Some contact =>
          let windowDays := MATERIALIZATION_WINDOW plan in
          let windowStart := startOfDay now in
          let windowEnd := addDays windowStart windowDays in
          dueDates ← computeDueDates rule windowStart windowEnd
                       {| lci_contactId := Contact.lean_id contact;
                          lci_lastContactedAt :=
                            Contact.lean_lastContactedAt contact |};
          match stageDueDates rule (ReminderRule.userId rule)
                              (Contact.lean_name contact) now dueDates with
          | (bulkOps, None) =>
              Some (executeBulk db bulkOps (ReminderRule.userId rule) 1 [])
          | (_, Some _) => None
          end
      end
  end.

(** [.select('_id userId displayName lastContactedAt').lean()]. *)
Definition selectUserDisplayNameLastContacted (c : Contact.t) : Contact.lean :=
  {| Contact.lean_id := Contact._id c;
     Contact.lean_userId := Some (Contact.userId c);
     Contact.lean_name := None;
     Contact.lean_lastContactedAt := Contact.lastContactedAt c |}.

(** The body of [for (const rule of rules)] in [rematerializeForContact]:
    that of [materializeUser] without the contact lookup, with the rule's
    own [userId] in the operations. *)
Definition restageRule (contact : Contact.lean)
    (windowStart windowEnd now : Date)
    (acc : Staging) (rule : ReminderRule.t) : option Staging :=
  let processed := st_processed acc + 1 in
  dueDates ← computeDueDates rule windowStart windowEnd
               {| lci_contactId := Contact.lean_id contact;
                  lci_lastContactedAt := Contact.lean_lastContactedAt contact |};
  let '(ops, thrown) :=
    stageDueDates rule (ReminderRule.userId rule)
                  (Contact.lean_name contact) now dueDates in
  Some {| st_processed := processed;
          st_errors := st_errors acc ++
            match thrown with
            | Some message =>
                [ {| err_ruleId := ReminderRule._id rule;
                     err_error := message |} ]
            | None => []
            end;
          st_bulkOps := st_bulkOps acc ++ ops |}.

Fixpoint restageRules (contact : Contact.lean)
    (windowStart windowEnd now : Date)
    (acc : Staging) (rs : list ReminderRule.t) : option Staging :=
  match rs with
  | [] => Some acc
  | rule :: rs' =>
      acc' ← restageRule contact windowStart windowEnd now acc rule;
      restageRules contact windowStart windowEnd now acc' rs'
  end.

(** [ReminderRule.find({ contactId, type: 'follow_up', isActive: true })]. *)
Definition followUpRules (db : Db) (contactId : ObjectId) : list ReminderRule.t :=
  List.filter (fun r => String.eqb (ReminderRule.contactId r) contactId
                        && bool_decide (ReminderRule.type r = follow_up)
                        && ReminderRule.isActive r)
              (rules db).

(** [rematerializeForContact(contactId, plan)], run at time [now].  The
    entry recorded for a missing contact carries the contact's id as
    [ruleId].  [None]: the call does not return. *)
Definition rematerializeForContact (db : Db) (contactId : ObjectId)
    (plan : PlanTier) (now : Date) : option (MaterializationResult * Db) :=
  match selectUserDisplayNameLastContacted <$> findContactById db contactId with
  | None =>
      Some ({| res_userId := ""; rulesProcessed := 0;
               instancesCreated := 0; instancesUpdated := 0;
               errors := [ {| err_ruleId := contactId;
                              err_error := "Contact not found" |} ] |},
            db)
  | Some contact =>
      let rs := followUpRules db contactId in
      let windowDays := MATERIALIZATION_WINDOW plan in
      let windowStart := startOfDay now in
      let windowEnd := addDays windowStart windowDays in
      staged ← restageRules contact windowStart windowEnd now
                 {| st_processed := 0; st_errors := []; st_bulkOps := [] |} rs;
      Some (executeBulk db (st_bulkOps staged)
                        (default "" (Contact.lean_userId contact))
                        (st_processed staged) (st_errors staged))
  end.

(** The filter of [pruneStaleInstances]. *)
Definition isStale (userId : ObjectId) (now : Date) (d : ReminderInstance.t) : bool :=
  let thirtyDaysAgo := addDays now (-30) in
  let ninetyDaysAgo := addDays now (-90) in
  String.eqb (ReminderInstance.userId d) userId
  && (((ReminderInstance.dueDate d <? thirtyDaysAgo)
       && (bool_decide (ReminderInstance.status d = completed)
           || bool_decide (ReminderInstance.status d = skipped)))
      || (ReminderInstance.dueDate d <? ninetyDaysAgo)).

(** [pruneStaleInstances(userId)], run at time [now]: [deleteMany] and its
    [deletedCount]. *)
Definition pruneStaleInstances (db : Db) (userId : ObjectId) (now : Date)
    : Z * Db :=
  let kept := List.filter (fun d => negb (isStale userId now d)) (instances db) in
  (Z.of_nat (length (List.filter (isStale userId now) (instances db))),
   {| rules := rules db; contacts := contacts db; instances := kept;
      auditLog := auditLog db; nextObjectId := nextObjectId db |}).

End MaterializerService.

(* ===================================================================== *)
(** ** TodayQueueService                                                  *)
(* ===================================================================== *)

Module TodayQueue.

(** Plan-based queue caps. *)
Definition QUEUE_CAPS (plan : PlanTier) : Z :=
  match plan with
  | free => 10
  | pro => 25
  end.

(** A document of the result.  [typeScore] and [priorityMultiplier] are the
    helper fields the aggregation leaves on its documents. *)
Record ScoredReminder := mkScored {
  doc : ReminderInstance.t;
  score : Z;
  daysOverdue : Z;
  typeScore : option Z;
  priorityMultiplier : option Z
}.

Record TodayQueueOptions := mkOptions {
  opt_userId : ObjectId;
  opt_plan : option PlanTier;
  opt_limit : option Z;
  opt_includeOverdue : option bool;
  opt_skipScoring : option bool
}.

Record TodayQueueResult := mkResult {
  items : list ScoredReminder;
  total : Z;
  capped : bool;
  appliedCap : Z
}.

(** [matchCriteria]. *)
Definition matchCriteria (userId : ObjectId) (includeOverdue : bool)
    (now : Date) (d : ReminderInstance.t) : bool :=
  let todayStart := startOfDay now in
  let todayEnd := endOfDay now in
  String.eqb (ReminderInstance.userId d) userId
  && bool_decide (ReminderInstance.status d = pending)
  && (if includeOverdue
      then ReminderInstance.dueDate d <=? todayEnd
      else (todayStart <=? ReminderInstance.dueDate d)
           && (ReminderInstance.dueDate d <=? todayEnd))
  && match ReminderInstance.snoozedUntil d with
     | None => true                      (* $exists: false *)
     | Some until => until <=? now       (* $lte: now *)
     end.

(** [Object.entries] of a record over a closed key set, in key order. *)
Definition entries {K V} (keys : list K) (table : K → V) : list (K * V) :=
  List.map (fun k => (k, table k)) keys.

(** [$switch]: the first branch whose case holds, else the default. *)
Fixpoint switch {K V} `{EqDecision K} (branches : list (K * V)) (default : V)
    (v : K) : V :=
  match branches with
  | [] => default
  | (c, t) :: bs => if decide (v = c) then t else switch bs default v
  end.

(** The two [$addFields] stages. *)
Definition addFields (todayStart : Date) (d : ReminderInstance.t) : ScoredReminder :=
  let daysOverdue :=
    Z.max 0 ((todayStart - ReminderInstance.dueDate d) / (1000 * 60 * 60 * 24)) in
  let typeScore :=
    switch (entries REMINDER_TYPES REMINDER_TYPE_SCORES)
           (REMINDER_TYPE_SCORES custom) (ReminderInstance.type d) in
  let priorityMultiplier :=
    switch (entries REMINDER_PRIORITIES PRIORITY_MULTIPLIERS)
           (PRIORITY_MULTIPLIERS medium) (ReminderInstance.priority d) in
  {| doc := d;
     score := typeScore * priorityMultiplier
              + daysOverdue * OVERDUE_PENALTY_PER_DAY;
     daysOverdue := daysOverdue;
     typeScore := Some typeScore;
     priorityMultiplier := Some priorityMultiplier |}.

(** The order of [$sort: { score: -1, dueDate: 1 }]: [x] may stand before
    [y]. *)
Definition scoreOrder (x y : ScoredReminder) : Prop :=
  score y < score x
  ∨ (score x = score y
     ∧ ReminderInstance.dueDate (doc x) ≤ ReminderInstance.dueDate (doc y)).

#[global] Instance scoreOrder_dec x y : Decision (scoreOrder x y).
Proof. unfold scoreOrder. apply _. Defined.

(** [$sort].  MongoDB leaves the order of documents that tie on every sort
    key open; a merge sort stands for it. *)
Definition sortStage (l : list ScoredReminder) : list ScoredReminder :=
  merge_sort scoreOrder l.

(** [$limit]: the aggregation is rejected unless the limit is positive. *)
Definition limitStage {A} (n : Z) (l : list A) : option (list A) :=
  if 0 <? n then Some (firstn (Z.to_nat n) l) else None.

(** [computeDaysOverdue]. *)
Definition computeDaysOverdue (dueDate today : Date) : Z :=
  let diff := today - dueDate in
  let days := diff / (1000 * 60 * 60 * 24) in
  Z.max 0 days.

(** Rank of a priority in the order of its name as a string
    ("high" < "low" < "medium"), which [sort({ priority: -1 })] uses. *)
Definition priorityNameRank (p : ReminderPriority) : Z :=
  match p with
  | high => 0
  | low => 1
  | medium => 2
  end.

(** The order of [sort({ dueDate: 1, priority: -1 })]. *)
Definition dueOrder (x y : ReminderInstance.t) : Prop :=
  ReminderInstance.dueDate x < ReminderInstance.dueDate y
  ∨ (ReminderInstance.dueDate x = ReminderInstance.dueDate y
     ∧ priorityNameRank (ReminderInstance.priority y)
       ≤ priorityNameRank (ReminderInstance.priority x)).

#[global] Instance dueOrder_dec x y : Decision (dueOrder x y).
Proof. unfold dueOrder. apply _. Defined.

(** [Query.limit(n)]: zero means no limit, a negative number its absolute
    value. *)
Definition queryLimit {A} (n : Z) (l : list A) : list A :=
  if n =? 0 then l else firstn (Z.to_nat (Z.abs n)) l.

(** [Array.prototype.slice(0, end)]. *)
Definition slice0 {A} (end_ : Z) (l : list A) : list A :=
  if end_ <? 0 then firstn (Z.to_nat (Z.max (Z.of_nat (length l) + end_) 0)) l
  else firstn (Z.to_nat end_) l.

(** [getTodayQueue(options)], run at time [now].  [None]: the aggregation
    is rejected (a non-positive [limit] option). *)
Definition getTodayQueue (db : Db) (options : TodayQueueOptions) (now : Date)
    : option TodayQueueResult :=
  let userId := opt_userId options in
  let plan := default free (opt_plan options) in
  let includeOverdue := default true (opt_includeOverdue options) in
  let skipScoring := default false (opt_skipScoring options) in
  let todayStart := startOfDay now in
  let matched := List.filter (matchCriteria userId includeOverdue now) (instances db) in
  let appliedCap := default (QUEUE_CAPS plan) (opt_limit options) in
  if skipScoring then
    let found := queryLimit (appliedCap + 1) (merge_sort dueOrder matched) in
    let capped := Z.of_nat (length found) >? appliedCap in
    let resultItems :=
      List.map (fun item =>
                  {| doc := item; score := 0;
                     daysOverdue :=
                       computeDaysOverdue (ReminderInstance.dueDate item) todayStart;
                     typeScore := None; priorityMultiplier := None |})
               (slice0 appliedCap found) in
    Some {| items := resultItems;
            total := if capped then Z.of_nat (length found)
                     else Z.of_nat (length resultItems);
            capped := capped;
            appliedCap := appliedCap |}
  else
    let sorted := sortStage (List.map (addFields todayStart) matched) in
    facetItems ← limitStage appliedCap sorted;
    let totalCount := Z.of_nat (length sorted) in
    Some {| items := facetItems;
            total := totalCount;
            capped := totalCount >? appliedCap;
            appliedCap := appliedCap |}.

(** The call made by [GET /reminders/today]: user, plan and
    [includeOverdue] only. *)
Definition getQueue (db : Db) (userId : ObjectId) (plan : PlanTier)
    (includeOverdue : bool) (now : Date) : option TodayQueueResult :=
  getTodayQueue db
    {| opt_userId := userId; opt_plan := Some plan; opt_limit := None;
       opt_includeOverdue := Some includeOverdue; opt_skipScoring := None |}
    now.

(** The [$or] on [snoozedUntil] of the queries on what is due: the field is
    absent, or not after [now]. *)
Definition notSnoozedAt (now : Date) (d : ReminderInstance.t) : bool :=
  match ReminderInstance.snoozedUntil d with
  | None => true
  | Some until => until <=? now
  end.

(** [getTodayCount(userId)], run at time [now]: [countDocuments]. *)
Definition getTodayCount (db : Db) (userId : ObjectId) (now : Date) : Z :=
  let todayEnd := endOfDay now in
  Z.of_nat (length (List.filter
    (fun d => String.eqb (ReminderInstance.userId d) userId
              && bool_decide (ReminderInstance.status d = pending)
              && (ReminderInstance.dueDate d <=? todayEnd)
              && notSnoozedAt now d)
    (instances db))).

(** The order of [sort({ dueDate: 1 })]. *)
Definition dueDateOrder (x y : ReminderInstance.t) : Prop :=
  ReminderInstance.dueDate x ≤ ReminderInstance.dueDate y.

#[global] Instance dueDateOrder_dec x y : Decision (dueDateOrder x y).
Proof. unfold dueDateOrder. apply _. Defined.

(** [getUpcoming(userId, days)], run at time [now]: pending instances due
    after today and up to the end of the day [days] days from now, whose
    [snoozedUntil] is absent or after [now]; ascending by due date, at most
    50. *)
Definition getUpcoming (db : Db) (userId : ObjectId) (days : Z) (now : Date)
    : list ReminderInstance.t :=
  let todayEnd := endOfDay now in
  let futureEnd := endOfDay (now + days * 24 * 60 * 60 * 1000) in
  queryLimit 50
    (merge_sort dueDateOrder
       (List.filter
          (fun d => String.eqb (ReminderInstance.userId d) userId
                    && bool_decide (ReminderInstance.status d = pending)
                    && (todayEnd <? ReminderInstance.dueDate d)
                    && (ReminderInstance.dueDate d <=? futureEnd)
                    && match ReminderInstance.snoozedUntil d with
                       | None => true
                       | Some until => now <? until
                       end)
          (instances db))).

(** [getOverdue(userId)], run at time [now]: pending instances due before
    today, not snoozed beyond [now]; ascending by due date, at most 100. *)
Definition getOverdue (db : Db) (userId : ObjectId) (now : Date)
    : list ReminderInstance.t :=
  let todayStart := startOfDay now in
  queryLimit 100
    (merge_sort dueDateOrder
       (List.filter
          (fun d => String.eqb (ReminderInstance.userId d) userId
                    && bool_decide (ReminderInstance.status d = pending)
                    && (ReminderInstance.dueDate d <? todayStart)
                    && notSnoozedAt now d)
          (instances db))).

End TodayQueue.

(* ===================================================================== *)
(** ** ReminderService: instance actions                                  *)
(* ===================================================================== *)

Module Service.
Import Mongo.

Definition DEFAULT_SNOOZE_DAYS : Z := 1.

Record SnoozeInput := mkSnoozeInput {
  days : option Z;
  until : option Date
}.

(** The fields an instance action may write; everything else is copied. *)
Definition writeAction (st : ReminderStatus)
    (completedAt snoozedUntil skippedAt : option Date) (updatedAt : Date)
    (d : ReminderInstance.t) : ReminderInstance.t :=
  {| ReminderInstance._id := ReminderInstance._id d;
     ReminderInstance.ruleId := ReminderInstance.ruleId d;
     ReminderInstance.userId := ReminderInstance.userId d;
     ReminderInstance.contactId := ReminderInstance.contactId d;
     ReminderInstance.instanceKey := ReminderInstance.instanceKey d;
     ReminderInstance.dueDate := ReminderInstance.dueDate d;
     ReminderInstance.status := st;
     ReminderInstance.completedAt := completedAt;
     ReminderInstance.snoozedUntil := snoozedUntil;
     ReminderInstance.skippedAt := skippedAt;
     ReminderInstance.type := ReminderInstance.type d;
     ReminderInstance.priority := ReminderInstance.priority d;
     ReminderInstance.contactName := ReminderInstance.contactName d;
     ReminderInstance.customTitle := ReminderInstance.customTitle d;
     ReminderInstance.createdAt := ReminderInstance.createdAt d;
     ReminderInstance.updatedAt := updatedAt |}.

(** The filter [{ _id, userId, status: { $in: statuses } }]. *)
Definition actionFilter (instanceId userId : ObjectId)
    (statuses : list ReminderStatus) (d : ReminderInstance.t) : bool :=
  String.eqb (ReminderInstance._id d) instanceId
  && String.eqb (ReminderInstance.userId d) userId
  && bool_decide (ReminderInstance.status d ∈ statuses).

(** [findOneAndUpdate(filter, update, { new: true })] followed by
    [if (instance) logAudit(...)]: the updated document, or [None] (null)
    with the database as it was. *)
Definition findOneAndUpdate (db : Db)
    (p : ReminderInstance.t → bool)
    (f : ReminderInstance.t → ReminderInstance.t)
    (audit : AuditLogParams) : option ReminderInstance.t * Db :=
  match updateFirst p f (instances db) with
  | Some (old, docs') =>
      (Some (f old),
       {| rules := rules db; contacts := contacts db; instances := docs';
          auditLog := auditLog db ++ [audit];
          nextObjectId := nextObjectId db |})
  | None => (None, db)
  end.

Definition auditOf (userId action instanceId : string) : AuditLogParams :=
  {| audit_userId := userId; audit_action := action;
     audit_resourceType := "reminder_instance";
     audit_resourceId := instanceId |}.

(** [markDone]: [$set { status: 'completed', completedAt }],
    [$unset { snoozedUntil }]. *)
Definition markDone (db : Db) (instanceId userId : ObjectId) (now : Date)
    : option ReminderInstance.t * Db :=
  findOneAndUpdate db
    (actionFilter instanceId userId [pending; snoozed])
    (fun d => writeAction completed (Some now) None
                          (ReminderInstance.skippedAt d) now d)
    (auditOf userId "REMINDER_COMPLETE" instanceId).

(** [snooze]: [$set { status: 'snoozed', snoozedUntil }]. *)
Definition snooze (db : Db) (instanceId userId : ObjectId)
    (options : SnoozeInput) (now : Date) : option ReminderInstance.t * Db :=
  let snoozedUntil :=
    match until options with
    | Some u => u
    | None => addDays now (default DEFAULT_SNOOZE_DAYS (days options))
    end in
  findOneAndUpdate db
    (actionFilter instanceId userId [pending])
    (fun d => writeAction snoozed (ReminderInstance.completedAt d)
                          (Some snoozedUntil) (ReminderInstance.skippedAt d) now d)
    (auditOf userId "REMINDER_SNOOZE" instanceId).

(** [unsnooze]: [$set { status: 'pending' }], [$unset { snoozedUntil }]. *)
Definition unsnooze (db : Db) (instanceId userId : ObjectId) (now : Date)
    : option ReminderInstance.t * Db :=
  findOneAndUpdate db
    (actionFilter instanceId userId [snoozed])
    (fun d => writeAction pending (ReminderInstance.completedAt d) None
                          (ReminderInstance.skippedAt d) now d)
    (auditOf userId "REMINDER_COMPLETE" instanceId).

(** [skip]: [$set { status: 'skipped', skippedAt }],
    [$unset { snoozedUntil }]. *)
Definition skip (db : Db) (instanceId userId : ObjectId) (now : Date)
    : option ReminderInstance.t * Db :=
  findOneAndUpdate db
    (actionFilter instanceId userId [pending; snoozed])
    (fun d => writeAction skipped (ReminderInstance.completedAt d) None
                          (Some now) now d)
    (auditOf userId "REMINDER_SKIP" instanceId).

(** [deleteRule(ruleId, userId)]: [findOneAndDelete({ _id, userId })];
    when a rule was deleted, [deleteMany({ ruleId })] on the instances and
    an audit entry; the result tells whether a rule was deleted. *)
Definition deleteRule (db : Db) (ruleId userId : ObjectId) : bool * Db :=
  match deleteFirst (fun r => String.eqb (ReminderRule._id r) ruleId
                              && String.eqb (ReminderRule.userId r) userId)
                    (rules db) with
  | Some (rule, rules') =>
      (true,
       {| rules := rules';
          contacts := contacts db;
          instances :=
            List.filter (fun d => negb (String.eqb (ReminderInstance.ruleId d) ruleId))
                        (instances db);
          auditLog := auditLog db ++
            [ {| audit_userId := userId;
                 audit_action := "REMINDER_RULE_DELETE";
                 audit_resourceType := "reminder_rule";
                 audit_resourceId := ruleId |} ];
          nextObjectId := nextObjectId db |})
  | None => (false, db)
  end.

End Service.

(* ===================================================================== *)
(** ** Helpers for statements about the calendar                          *)
(* ===================================================================== *)

Module CalendarCheck.

Fixpoint rangeZ (lo : Z) (n : nat) : list Z :=
  match n with
  | O => []
  | S n' => lo :: rangeZ (lo + 1) n'
  end.

(** First day of the month after month [m] of year [y]. *)
Definition nextMonthStart (y m : Z) : Z :=
  if m =? 12 then days_from_civil (y + 1) 1 1 else days_from_civil y (m + 1) 1.

End CalendarCheck.

(* ===================================================================== *)
(** ** Documents and dates used in the examples                           *)
(* ===================================================================== *)

(** Midnight at the start of a civil date. *)
Definition midnight (y m d : Z) : Date := MakeDate (days_from_civil y m d) 0.

(** A birthday on February 29, notified on the day. *)
Definition rule_feb29 : ReminderRule.t :=
  {| ReminderRule._id := "r1"%string; ReminderRule.userId := "u1"%string;
     ReminderRule.contactId := "c1"%string; ReminderRule.type := birthday;
     ReminderRule.fixedDate := Some (mkMonthDay 2 29 None);
     ReminderRule.intervalDays := None; ReminderRule.intervalAnchor := None;
     ReminderRule.customAnchorDate := None; ReminderRule.priority := medium;
     ReminderRule.isActive := true; ReminderRule.notifyDaysBefore := Some [0];
     ReminderRule.customTitle := None;
     ReminderRule.createdAt := midnight 2022 5 5 |}.

(** A stored interval the interval algorithm copes with: it is not negative
    (the schema asks for [min: 1]), the anchor is a valid date, and one
    interval past the window end is still a valid date. *)
Definition interval_ok (windowEnd : Date) (rule : ReminderRule.t)
    (contactInfo : LastContactInfo) : Prop :=
  ∀ n, ReminderRule.intervalDays rule = Some n →
       0 ≤ n
       ∧ isValid (Materializer.anchorDate rule contactInfo) = true
       ∧ isValid (addDays windowEnd n) = true.

Definition contact_none : LastContactInfo :=
  {| lci_contactId := "c1"; lci_lastContactedAt := None |}.

Definition contacted (d : Date) : LastContactInfo :=
  {| lci_contactId := "c1"; lci_lastContactedAt := Some d |}.

(** A follow-up every 30 days, anchored on the last contact. *)
Definition rule_follow_up_30 : ReminderRule.t :=
  {| ReminderRule._id := "r2"%string; ReminderRule.userId := "u1"%string;
     ReminderRule.contactId := "c1"%string; ReminderRule.type := follow_up;
     ReminderRule.fixedDate := None;
     ReminderRule.intervalDays := Some 30;
     ReminderRule.intervalAnchor := Some last_contact;
     ReminderRule.customAnchorDate := None; ReminderRule.priority := medium;
     ReminderRule.isActive := true; ReminderRule.notifyDaysBefore := Some [0];
     ReminderRule.customTitle := None;
     ReminderRule.createdAt := midnight 2022 5 5 |}.

(** A birthday on January 11 with the default offsets (day-of, a week
    before). *)
Definition rule_birthday_jan11 : ReminderRule.t :=
  {| ReminderRule._id := "r3"%string; ReminderRule.userId := "u1"%string;
     ReminderRule.contactId := "c1"%string; ReminderRule.type := birthday;
     ReminderRule.fixedDate := Some (mkMonthDay 1 11 None);
     ReminderRule.intervalDays := None; ReminderRule.intervalAnchor := None;
     ReminderRule.customAnchorDate := None; ReminderRule.priority := medium;
     ReminderRule.isActive := true;
     ReminderRule.notifyDaysBefore := Some DEFAULT_NOTIFY_DAYS_BEFORE;
     ReminderRule.customTitle := None;
     ReminderRule.createdAt := midnight 2022 5 5 |}.

(** A weekly follow-up, anchored on its creation, with the default
    offsets. *)
Definition rule_weekly : ReminderRule.t :=
  {| ReminderRule._id := "r4"%string; ReminderRule.userId := "u1"%string;
     ReminderRule.contactId := "c1"%string; ReminderRule.type := follow_up;
     ReminderRule.fixedDate := None;
     ReminderRule.intervalDays := Some 7;
     ReminderRule.intervalAnchor := Some creation;
     ReminderRule.customAnchorDate := None; ReminderRule.priority := medium;
     ReminderRule.isActive := true;
     ReminderRule.notifyDaysBefore := Some DEFAULT_NOTIFY_DAYS_BEFORE;
     ReminderRule.customTitle := None;
     ReminderRule.createdAt := midnight 2023 2 25 |}.

(** The window start lies far enough inside the range of a [Date] for the
    event dates of the two candidate years, which lie within a year before
    and two years after it, to be valid dates. *)
Definition window_ok (windowStart : Date) : Prop :=
  isValid (addDays windowStart (- 366)) = true
  ∧ isValid (addDays windowStart 731) = true.

(** A notify offset that keeps the dates it is applied to inside the range
    of a [Date]: the event dates of a fixed-date rule and the due dates of
    the window. *)
Definition offset_ok (windowStart windowEnd : Date) (offset : Z) : Prop :=
  isValid (addDays windowStart (- (offset + 366))) = true
  ∧ isValid (addDays windowStart (731 - offset)) = true
  ∧ isValid (addDays windowEnd (- offset)) = true.

(** A stored month and day of month, as the schema bounds them. *)
Definition fixedDate_ok (rule : ReminderRule.t) : Prop :=
  ∀ fd, ReminderRule.fixedDate rule = Some fd →
        1 ≤ month fd ≤ 12 ∧ 1 ≤ day fd ≤ 31.

(** The instance key of a rule and a valid due date. *)
Definition instanceKeyOf (ruleId : string) (dueDate : Date) : string :=
  (ruleId ++ ":" ++ Format.format_yyyy_MM_dd dueDate)%string.

(** A pending instance of user [u1], due on [due]. *)
Definition pending_instance (id : string) (ty : ReminderType)
    (prio : ReminderPriority) (due : Date) : ReminderInstance.t :=
  {| ReminderInstance._id := id;
     ReminderInstance.ruleId := "r1"%string;
     ReminderInstance.userId := "u1"%string;
     ReminderInstance.contactId := "c1"%string;
     ReminderInstance.instanceKey := instanceKeyOf id due;
     ReminderInstance.dueDate := due;
     ReminderInstance.status := pending;
     ReminderInstance.completedAt := None;
     ReminderInstance.snoozedUntil := None;
     ReminderInstance.skippedAt := None;
     ReminderInstance.type := ty;
     ReminderInstance.priority := prio;
     ReminderInstance.contactName := Some "Ada"%string;
     ReminderInstance.customTitle := None;
     ReminderInstance.createdAt := midnight 2023 1 1;
     ReminderInstance.updatedAt := midnight 2023 1 1 |}.

Definition db_of (docs : list ReminderInstance.t) : Db :=
  {| rules := []; contacts := []; instances := docs; auditLog := [];
     nextObjectId := 100 |}.

(** Fifteen pending follow-ups, due on the fifteen days up to 2023-03-15. *)
Definition fifteen_due : list ReminderInstance.t :=
  List.map (fun i => pending_instance (newObjectId (Z.to_N i)) follow_up medium
                                      (midnight 2023 3 i))
           (CalendarCheck.rangeZ 1 15).

(** The score formula, read on one document of the queue. *)
Definition scored_by_formula (todayStart : Date)
    (x : TodayQueue.ScoredReminder) : Prop :=
  TodayQueue.daysOverdue x
  = Z.max 0 ((todayStart - ReminderInstance.dueDate (TodayQueue.doc x)) / msPerDay)
  ∧ TodayQueue.score x
    = REMINDER_TYPE_SCORES (ReminderInstance.type (TodayQueue.doc x))
      * PRIORITY_MULTIPLIERS (ReminderInstance.priority (TodayQueue.doc x))
      + OVERDUE_PENALTY_PER_DAY * TodayQueue.daysOverdue x.

(** The instances the queue selects: the [$match] stage on the
    collection. *)
Definition selected (db : Db) (userId : ObjectId) (includeOverdue : bool)
    (now : Date) : list ReminderInstance.t :=
  List.filter (TodayQueue.matchCriteria userId includeOverdue now)
              (instances db).

(** The instance as the user's actions leave it. *)
Definition with_status (st : ReminderStatus) (snoozedUntil : option Date)
    (d : ReminderInstance.t) : ReminderInstance.t :=
  Service.writeAction st (ReminderInstance.completedAt d) snoozedUntil
                      (ReminderInstance.skippedAt d)
                      (ReminderInstance.updatedAt d) d.

Definition snoozed_instance : ReminderInstance.t :=
  with_status snoozed (Some (midnight 2023 3 20))
    (pending_instance "i1" follow_up medium (midnight 2023 3 10)).

Definition completed_instance : ReminderInstance.t :=
  Service.writeAction completed (Some (midnight 2023 3 11)) None None
                      (midnight 2023 3 11)
    (pending_instance "i2" follow_up medium (midnight 2023 3 10)).

(** An instance is terminal when it is completed or skipped. *)
Definition terminal (d : ReminderInstance.t) : Prop :=
  ReminderInstance.status d = completed ∨ ReminderInstance.status d = skipped.

(** The instance an action on ([instanceId], [userId]) addresses. *)
Definition addressed (instanceId userId : ObjectId) (d : ReminderInstance.t) : Prop :=
  ReminderInstance._id d = instanceId ∧ ReminderInstance.userId d = userId.

(** A document with its bookkeeping timestamp blanked: two documents that
    agree up to [updatedAt] have the same image. *)
Definition ignoringUpdatedAt (d : ReminderInstance.t) : ReminderInstance.t :=
  Mongo.setUpdatedAt 0 d.

(** A document as the materializer inserts it: pending, no action recorded. *)
Definition freshlyPending (d : ReminderInstance.t) : Prop :=
  ReminderInstance.status d = pending
  ∧ ReminderInstance.completedAt d = None
  ∧ ReminderInstance.snoozedUntil d = None
  ∧ ReminderInstance.skippedAt d = None.

(** An upsert whose inserted key is the key it filters on. *)
Definition keyed (op : Mongo.UpsertOp) : Prop :=
  Mongo.soi_instanceKey (Mongo.setOnInsert op) = Mongo.filter_instanceKey op
  ∧ Mongo.soi_status (Mongo.setOnInsert op) = pending.

(** The operation pushed for a valid due date. *)
Definition stageUpsert (rule : ReminderRule.t) (userId : ObjectId)
    (contactName : option string) (now : Date) (dueDate : Date)
    : Mongo.UpsertOp :=
  MaterializerService.updateOne rule userId contactName now
    (instanceKeyOf (ReminderRule._id rule) dueDate) dueDate.

(** The due dates up to the first Invalid Date. *)
Fixpoint validPrefix (dueDates : list Date) : list Date :=
  match dueDates with
  | [] => []
  | d :: rest => if isValid d then d :: validPrefix rest else []
  end.

(** The user has a contact with this id. *)
Definition hasContact (db : Db) (userId contactId : ObjectId) : bool :=
  existsb (fun c => String.eqb (Contact._id c) contactId
                    && String.eqb (Contact.userId c) userId)
          (contacts db).

(** The entry recorded for a rule whose contact is missing. *)
Definition contactNotFound (rule : ReminderRule.t) : RuleError :=
  {| err_ruleId := ReminderRule._id rule; err_error := "Contact not found" |}.

(** The entry recorded for a rule one of whose due dates is an Invalid
    Date. *)
Definition invalidTimeValue (rule : ReminderRule.t) : RuleError :=
  {| err_ruleId := ReminderRule._id rule; err_error := "Invalid time value" |}.

Definition contact_ada : Contact.t :=
  {| Contact._id := "c1"%string; Contact.userId := "u1"%string;
     Contact.name := "Ada"%string;
     Contact.lastContactedAt := Some (midnight 2023 1 15 + 777) |}.

(** A rule of user [u1] on a contact that does not exist. *)
Definition rule_dangling : ReminderRule.t :=
  {| ReminderRule._id := "r9"%string; ReminderRule.userId := "u1"%string;
     ReminderRule.contactId := "c9"%string; ReminderRule.type := birthday;
     ReminderRule.fixedDate := Some (mkMonthDay 3 5 None);
     ReminderRule.intervalDays := None; ReminderRule.intervalAnchor := None;
     ReminderRule.customAnchorDate := None; ReminderRule.priority := high;
     ReminderRule.isActive := true; ReminderRule.notifyDaysBefore := Some [0];
     ReminderRule.customTitle := None;
     ReminderRule.createdAt := midnight 2022 5 5 |}.

(** Three active rules of [u1], the first with a dangling contact. *)
Definition db_three_rules : Db :=
  {| rules := [rule_dangling; rule_follow_up_30; rule_feb29];
     contacts := [contact_ada];
     instances := [completed_instance];
     auditLog := [];
     nextObjectId := 100 |}.

(** The contact information [materializeUser] passes to the calculator. *)
Definition contactInfoOf (contact : Contact.lean) : LastContactInfo :=
  {| lci_contactId := Contact.lean_id contact;
     lci_lastContactedAt := Contact.lean_lastContactedAt contact |}.

(** The operations one rule stages in [materializeUser]: none when its
    contact is missing, else one for each due date up to the first Invalid
    Date. *)
Definition stagedFor (contactMap : gmap string Contact.lean) (userId : ObjectId)
    (windowStart windowEnd now : Date) (rule : ReminderRule.t)
    : list Mongo.UpsertOp :=
  match contactMap !! ReminderRule.contactId rule with
  | None => []
  | Some contact =>
      match Materializer.computeDueDates rule windowStart windowEnd
              (contactInfoOf contact) with
      | Some dueDates =>
          List.map (stageUpsert rule userId (Contact.lean_name contact) now)
                   (validPrefix dueDates)
      | None => []
      end
  end.

(** The entries one rule leaves in [errors]: "Contact not found" when its
    contact is missing, "Invalid time value" when one of its due dates is an
    Invalid Date, nothing otherwise. *)
Definition errorsFor (contactMap : gmap string Contact.lean)
    (windowStart windowEnd : Date) (rule : ReminderRule.t) : list RuleError :=
  match contactMap !! ReminderRule.contactId rule with
  | None => [contactNotFound rule]
  | Some contact =>
      match Materializer.computeDueDates rule windowStart windowEnd
              (contactInfoOf contact) with
      | Some dueDates =>
          if forallb isValid dueDates then [] else [invalidTimeValue rule]
      | None => []
      end
  end.

(** The same, with the contact map [materializeUser] builds. *)
Definition ruleErrors (db : Db) (userId : ObjectId)
    (windowStart windowEnd : Date) (rule : ReminderRule.t) : list RuleError :=
  errorsFor (MaterializerService.buildContactMap db userId
               (MaterializerService.activeRules db userId))
            windowStart windowEnd rule.

(** Every active rule of the user has a month and day of month within the
    schema's bounds, and an interval the interval algorithm copes with,
    whichever of the user's contacts it points to. *)
Definition rules_ok (db : Db) (userId : ObjectId) (windowEnd : Date) : Prop :=
  ∀ rule,
    In rule (MaterializerService.activeRules db userId) →
    fixedDate_ok rule
    ∧ ∀ contact,
        In contact (contacts db) →
        Contact._id contact = ReminderRule.contactId rule →
        Contact.userId contact = userId →
        interval_ok windowEnd rule
          {| lci_contactId := Contact._id contact;
             lci_lastContactedAt := Contact.lastContactedAt contact |}.

(** A follow-up whose interval is the whole range of a [Date]: 100 000 000
    days. *)
Definition rule_interval_1e8 : ReminderRule.t :=
  {| ReminderRule._id := "r5"%string; ReminderRule.userId := "u1"%string;
     ReminderRule.contactId := "c1"%string; ReminderRule.type := follow_up;
     ReminderRule.fixedDate := None;
     ReminderRule.intervalDays := Some 100000000;
     ReminderRule.intervalAnchor := Some creation;
     ReminderRule.customAnchorDate := None; ReminderRule.priority := medium;
     ReminderRule.isActive := true; ReminderRule.notifyDaysBefore := Some [0];
     ReminderRule.customTitle := None;
     ReminderRule.createdAt := midnight 2022 5 5 |}.

(** A rule with a dangling contact and a rule with that interval. *)
Definition db_interval_1e8 : Db :=
  {| rules := [rule_dangling; rule_interval_1e8];
     contacts := [contact_ada];
     instances := [];
     auditLog := [];
     nextObjectId := 100 |}.

(** A birthday on March 5 that is notified on the day and 200 000 000 days
    before it. *)
Definition rule_offset_2e8 : ReminderRule.t :=
  {| ReminderRule._id := "r6"%string; ReminderRule.userId := "u1"%string;
     ReminderRule.contactId := "c1"%string; ReminderRule.type := birthday;
     ReminderRule.fixedDate := Some (mkMonthDay 3 5 None);
     ReminderRule.intervalDays := None; ReminderRule.intervalAnchor := None;
     ReminderRule.customAnchorDate := None; ReminderRule.priority := high;
     ReminderRule.isActive := true;
     ReminderRule.notifyDaysBefore := Some [0; 200000000];
     ReminderRule.customTitle := None;
     ReminderRule.createdAt := midnight 2022 5 5 |}.

(** That rule, between a rule with a dangling contact and a follow-up. *)
Definition db_offset_2e8 : Db :=
  {| rules := [rule_dangling; rule_offset_2e8; rule_follow_up_30];
     contacts := [contact_ada];
     instances := [];
     auditLog := [];
     nextObjectId := 100 |}.

(** The invariant of an instance: [snoozedUntil] is set exactly when the
    status is [snoozed]. *)
Definition snoozeInvariant (d : ReminderInstance.t) : Prop :=
  is_Some (ReminderInstance.snoozedUntil d) ↔ ReminderInstance.status d = snoozed.

(** What [pruneStaleInstances] deletes, in words: an instance of the user
    whose due date lies more than 30 days back and which is completed or
    skipped, or whose due date lies more than 90 days back. *)
Definition staleByDueDate (userId : ObjectId) (now : Date)
    (d : ReminderInstance.t) : Prop :=
  ReminderInstance.userId d = userId
  ∧ ((ReminderInstance.dueDate d < now - 30 * msPerDay ∧ terminal d)
     ∨ ReminderInstance.dueDate d < now - 90 * msPerDay).

(** Completed 40 days before 2023-03-31 (on 2023-02-19), due 20 days before
    it (on 2023-03-11). *)
Definition completed_40_days_ago : ReminderInstance.t :=
  Service.writeAction completed (Some (midnight 2023 2 19)) None None
                      (midnight 2023 2 19)
    (pending_instance "i3" follow_up medium (midnight 2023 3 11)).

(** A rule that is switched off: a weekly follow-up of [u1] on [c1]. *)
Definition rule_inactive : ReminderRule.t :=
  {| ReminderRule._id := "r7"%string; ReminderRule.userId := "u1"%string;
     ReminderRule.contactId := "c1"%string; ReminderRule.type := follow_up;
     ReminderRule.fixedDate := None;
     ReminderRule.intervalDays := Some 7;
     ReminderRule.intervalAnchor := Some creation;
     ReminderRule.customAnchorDate := None; ReminderRule.priority := low;
     ReminderRule.isActive := false; ReminderRule.notifyDaysBefore := Some [0];
     ReminderRule.customTitle := None;
     ReminderRule.createdAt := midnight 2023 1 30 |}.

Definition db_inactive : Db :=
  {| rules := [rule_inactive];
     contacts := [contact_ada];
     instances := [];
     auditLog := [];
     nextObjectId := 100 |}.

(** What an instance that the materializer inserts for [rule] and the due
    date [dueDate] looks like, whatever its [_id], its [contactName] and
    its timestamps. *)
Definition instanceOf (rule : ReminderRule.t) (userId : ObjectId)
    (d : ReminderInstance.t) : Prop :=
  ReminderInstance.ruleId d = ReminderRule._id rule
  ∧ ReminderInstance.userId d = userId
  ∧ ReminderInstance.contactId d = ReminderRule.contactId rule
  ∧ ReminderInstance.type d = ReminderRule.type rule
  ∧ ReminderInstance.priority d = ReminderRule.priority rule
  ∧ ReminderInstance.customTitle d = ReminderRule.customTitle rule
  ∧ ReminderInstance.status d = pending
  ∧ isValid (ReminderInstance.dueDate d) = true
  ∧ ReminderInstance.instanceKey d
    = instanceKeyOf (ReminderRule._id rule) (ReminderInstance.dueDate d).

(** The entry [rematerializeForContact] records for a missing contact: it
    carries the contact's id where a rule id is expected. *)
Definition contactMissing (contactId : ObjectId) : RuleError :=
  {| err_ruleId := contactId; err_error := "Contact not found" |}.

(** The operations one rule stages in [rematerializeForContact]. *)
Definition restagedFor (contact : Contact.lean)
    (windowStart windowEnd now : Date) (rule : ReminderRule.t)
    : list Mongo.UpsertOp :=
  match Materializer.computeDueDates rule windowStart windowEnd
          (contactInfoOf contact) with
  | Some dueDates =>
      List.map (stageUpsert rule (ReminderRule.userId rule)
                            (Contact.lean_name contact) now)
               (validPrefix dueDates)
  | None => []
  end.

(** Ada, contacted for the last time on 2023-01-15, with a follow-up every
    30 days and a birthday: only the follow-up is rematerialized. *)
Definition db_rematerialize : Db :=
  {| rules := [rule_feb29; rule_follow_up_30; rule_inactive];
     contacts := [contact_ada];
     instances := [];
     auditLog := [];
     nextObjectId := 100 |}.

(** The four actions on an instance. *)
Inductive InstanceAction :=
  | Done
  | Skip
  | Unsnooze
  | Snooze (options : Service.SnoozeInput).

Definition runAction (a : InstanceAction) (db : Db)
    (instanceId userId : ObjectId) (now : Date)
    : option ReminderInstance.t * Db :=
  match a with
  | Done => Service.markDone db instanceId userId now
  | Skip => Service.skip db instanceId userId now
  | Unsnooze => Service.unsnooze db instanceId userId now
  | Snooze options => Service.snooze db instanceId userId options now
  end.

(** The audit action each of them logs. *)
Definition auditActionOf (a : InstanceAction) : string :=
  match a with
  | Done => "REMINDER_COMPLETE"
  | Skip => "REMINDER_SKIP"
  | Unsnooze => "REMINDER_COMPLETE"
  | Snooze _ => "REMINDER_SNOOZE"
  end.

(** The fields of an instance no action writes. *)
Definition sameIdentity (d d' : ReminderInstance.t) : Prop :=
  ReminderInstance._id d' = ReminderInstance._id d
  ∧ ReminderInstance.ruleId d' = ReminderInstance.ruleId d
  ∧ ReminderInstance.userId d' = ReminderInstance.userId d
  ∧ ReminderInstance.contactId d' = ReminderInstance.contactId d
  ∧ ReminderInstance.instanceKey d' = ReminderInstance.instanceKey d
  ∧ ReminderInstance.dueDate d' = ReminderInstance.dueDate d
  ∧ ReminderInstance.type d' = ReminderInstance.type d
  ∧ ReminderInstance.priority d' = ReminderInstance.priority d
  ∧ ReminderInstance.contactName d' = ReminderInstance.contactName d
  ∧ ReminderInstance.customTitle d' = ReminderInstance.customTitle d
  ∧ ReminderInstance.createdAt d' = ReminderInstance.createdAt d.

(** Two of [u1]'s instances, the first snoozed until 2023-03-20, and one of
    [u2]. *)
Definition instance_of_u2 : ReminderInstance.t :=
  {| ReminderInstance._id := "i7"%string;
     ReminderInstance.ruleId := "r8"%string;
     ReminderInstance.userId := "u2"%string;
     ReminderInstance.contactId := "c8"%string;
     ReminderInstance.instanceKey := instanceKeyOf "r8" (midnight 2023 3 9);
     ReminderInstance.dueDate := midnight 2023 3 9;
     ReminderInstance.status := pending;
     ReminderInstance.completedAt := None;
     ReminderInstance.snoozedUntil := None;
     ReminderInstance.skippedAt := None;
     ReminderInstance.type := birthday;
     ReminderInstance.priority := high;
     ReminderInstance.contactName := Some "Bob"%string;
     ReminderInstance.customTitle := None;
     ReminderInstance.createdAt := midnight 2023 1 1;
     ReminderInstance.updatedAt := midnight 2023 1 1 |}.

Definition db_two_users : Db :=
  db_of [ pending_instance "i4" follow_up medium (midnight 2023 3 10);
          instance_of_u2;
          snoozed_instance;
          pending_instance "i5" birthday high (midnight 2023 3 12);
          pending_instance "i6" custom low (midnight 2023 3 14 + 3600000) ].

(** The options of the path of [getTodayQueue] that does not score. *)
Definition unscored (userId : ObjectId) (plan : PlanTier) (includeOverdue : bool)
    : TodayQueue.TodayQueueOptions :=
  {| TodayQueue.opt_userId := userId;
     TodayQueue.opt_plan := Some plan;
     TodayQueue.opt_limit := None;
     TodayQueue.opt_includeOverdue := Some includeOverdue;
     TodayQueue.opt_skipScoring := Some true |}.

(** A rule id occurs once among the rules. *)
Definition uniqueRuleId (db : Db) (ruleId : ObjectId) : Prop :=
  ∀ before rule after,
    rules db = before ++ rule :: after →
    ReminderRule._id rule = ruleId →
    (∀ r, In r before → ReminderRule._id r ≠ ruleId)
    ∧ (∀ r, In r after → ReminderRule._id r ≠ ruleId).

Definition db_rule_with_instances : Db :=
  {| rules := [rule_feb29; rule_follow_up_30];
     contacts := [contact_ada];
     instances := [ completed_instance;
                    pending_instance "i8" birthday medium (midnight 2023 3 1);
                    instance_of_u2 ];
     auditLog := [];
     nextObjectId := 100 |}.

(* ===================================================================== *)
(** * Properties                                                          *)
(* ===================================================================== *)

(** ** The calendar                                                       *)

(** Evaluates the tests of the [if]s that hold no variable. *)
Ltac eval_closed_tests :=
  repeat match goal with
         | |- context [if ?b then _ else _] =>
             let v := eval vm_compute in b in
             match v with
             | true => change b with true
             | false => change b with false
             end;
             cbv iota
         end.

Section Calendar.
Import CalendarCheck.

(** The year of the era and the day of the (March-based) year that
    [civil_from_days] reads off the day of the era. *)
Lemma year_of_era doe :
  0 ≤ doe < 146097 →
  let yoe := (doe - doe / 1460 + doe / 36524 - doe / 146096) / 365 in
  let doy := doe - (365 * yoe + yoe / 4 - yoe / 100) in
  0 ≤ yoe ≤ 399 ∧ 0 ≤ doy ≤ 365
  ∧ (doy = 365 →
     (yoe + 1) mod 4 = 0 ∧ ((yoe + 1) mod 100 ≠ 0 ∨ (yoe + 1) mod 400 = 0)).
Proof.
  intros H yoe doy. subst yoe doy.
  repeat split; Z.div_mod_to_equations; lia.
Qed.

Lemma month_of_year doy :
  0 ≤ doy ≤ 365 →
  let mp := (5 * doy + 2) / 153 in
  let d := doy - (153 * mp + 2) / 5 + 1 in
  0 ≤ mp ≤ 11 ∧ 1 ≤ d ≤ 31
  ∧ (mp = 11 → d ≤ 29 ∧ (d = 29 → doy = 365))
  ∧ (mp = 1 ∨ mp = 3 ∨ mp = 6 ∨ mp = 8 → d ≤ 30).
Proof.
  intros H mp d. subst mp d.
  repeat split; Z.div_mod_to_equations; lia.
Qed.

Lemma isLeapYear_true y :
  isLeapYear y = true ↔ y mod 4 = 0 ∧ (y mod 100 ≠ 0 ∨ y mod 400 = 0).
Proof.
  unfold isLeapYear.
  rewrite orb_true_iff, andb_true_iff, negb_true_iff, !Z.eqb_eq, Z.eqb_neq.
  split; [|tauto]. intros [[H4 H100]|H400]; [tauto|].
  split; [|tauto]. Z.div_mod_to_equations. lia.
Qed.

(** The civil date of a day number exists, and names that day. *)
Lemma civil_from_days_valid z y m d :
  civil_from_days z = (y, m, d) →
  1 ≤ m ≤ 12 ∧ 1 ≤ d ≤ daysInMonth y m ∧ days_from_civil y m d = z.
Proof.
  unfold civil_from_days.
  set (era := (z + 719468) / 146097). set (doe := (z + 719468) mod 146097).
  assert (Hz : z + 719468 = 146097 * era + doe)
    by (subst era doe; apply Z.div_mod; lia).
  assert (Hdoe : 0 ≤ doe < 146097) by (subst doe; apply Z.mod_pos_bound; lia).
  destruct (year_of_era doe Hdoe) as (Hyoe & Hdoy & Hleap).
  set (yoe := (doe - doe / 1460 + doe / 36524 - doe / 146096) / 365) in *.
  set (doy := doe - (365 * yoe + yoe / 4 - yoe / 100)) in *.
  destruct (month_of_year doy Hdoy) as (Hmp & Hd & Hfeb & H30).
  set (mp := (5 * doy + 2) / 153) in *.
  set (d0 := doy - (153 * mp + 2) / 5 + 1) in *.
  cbv zeta. intros [= Hy Hm Hdd]. rewrite Hm in Hy.
  assert (Hmm : m = if mp <? 10 then mp + 3 else mp - 9) by (symmetry; exact Hm).
  assert (Hm12 : 1 ≤ m ≤ 12) by (rewrite Hmm; destruct (Z.ltb_spec mp 10); lia).
  split; [exact Hm12|]. split.
  - rewrite <- Hdd. split; [lia|]. unfold daysInMonth.
    destruct (Z.eqb_spec m 2) as [E2|N2].
    + assert (mp = 11) by (rewrite Hmm in E2; destruct (Z.ltb_spec mp 10); lia).
      destruct (isLeapYear y) eqn:El; [lia|].
      assert (d0 ≠ 29); [|lia]. intros E29.
      destruct Hfeb as [_ Hfeb]; [assumption|]. specialize (Hleap (Hfeb E29)).
      apply not_true_iff_false in El. apply El, isLeapYear_true.
      rewrite <- Hy, E2. simpl.
      replace (yoe + era * 400 + 1) with (yoe + 1 + era * 400) by ring.
      replace (era * 400) with ((era * 100) * 4) at 1 by ring.
      replace (era * 400) with ((era * 4) * 100) at 1 by ring.
      rewrite !Z_mod_plus_full. exact Hleap.
    + destruct ((m =? 4) || (m =? 6) || (m =? 9) || (m =? 11)) eqn:E30; [|lia].
      apply H30. rewrite !orb_true_iff, !Z.eqb_eq in E30. rewrite Hmm in E30.
      destruct (Z.ltb_spec mp 10); lia.
  - unfold days_from_civil.
    assert (Hy' : (if m <=? 2 then y - 1 else y) = yoe + era * 400).
    { rewrite <- Hy. destruct (m <=? 2); ring. }
    rewrite Hy'.
    assert (Hmp' : (if 2 <? m then m - 3 else m + 9) = mp).
    { rewrite Hmm. destruct (Z.ltb_spec mp 10);
        match goal with |- context [2 <? ?x] => destruct (Z.ltb_spec 2 x) end; lia. }
    rewrite Hmp'.
    rewrite Z.div_add, Z.mod_add by lia.
    rewrite Z.div_small, Z.mod_small by lia.
    rewrite <- Hdd. subst d0 doy. lia.
Qed.

(** The day of the era determines the year of the era it was built from. *)
Lemma year_of_era_inv yoe doy :
  0 ≤ yoe ≤ 399 → 0 ≤ doy ≤ 365 →
  (doy = 365 →
   (yoe + 1) mod 4 = 0 ∧ ((yoe + 1) mod 100 ≠ 0 ∨ (yoe + 1) mod 400 = 0)) →
  let doe := yoe * 365 + yoe / 4 - yoe / 100 + doy in
  0 ≤ doe < 146097
  ∧ (doe - doe / 1460 + doe / 36524 - doe / 146096) / 365 = yoe.
Proof.
  intros Hy Hd Hl doe. subst doe.
  assert (Hl' : doy ≤ 364 ∨ ((yoe + 1) mod 4 = 0
                 ∧ ((yoe + 1) mod 100 ≠ 0 ∨ (yoe + 1) mod 400 = 0)))
    by (destruct (Z.eq_dec doy 365); [right; auto|left; lia]).
  clear Hl. split; Z.div_mod_to_equations; lia.
Qed.

Lemma month_of_year_inv mp d :
  0 ≤ mp ≤ 11 → 1 ≤ d ≤ 31 →
  (mp = 11 → d ≤ 29) → (mp = 1 ∨ mp = 3 ∨ mp = 6 ∨ mp = 8 → d ≤ 30) →
  let doy := (153 * mp + 2) / 5 + d - 1 in
  0 ≤ doy ≤ 365 ∧ (doy = 365 → mp = 11 ∧ d = 29)
  ∧ (5 * doy + 2) / 153 = mp
  ∧ doy - (153 * mp + 2) / 5 + 1 = d.
Proof.
  intros Hmp Hd Hfeb H30 doy. subst doy.
  assert (Hc : mp = 0 ∨ mp = 1 ∨ mp = 2 ∨ mp = 3 ∨ mp = 4 ∨ mp = 5 ∨ mp = 6
               ∨ mp = 7 ∨ mp = 8 ∨ mp = 9 ∨ mp = 10 ∨ mp = 11) by lia.
  repeat split; Z.div_mod_to_equations; lia.
Qed.

(** Conversely the day number of an existing date has that civil date. *)
Lemma civil_from_days_from_civil y m d :
  1 ≤ m ≤ 12 → 1 ≤ d ≤ daysInMonth y m →
  civil_from_days (days_from_civil y m d) = (y, m, d).
Proof.
  intros Hm Hd. unfold days_from_civil.
  set (Y := if m <=? 2 then y - 1 else y).
  set (mp := if 2 <? m then m - 3 else m + 9).
  assert (HY : y = if m <=? 2 then Y + 1 else Y)
    by (subst Y; destruct (m <=? 2); ring).
  assert (Hmp : 0 ≤ mp ≤ 11 ∧ m = if mp <? 10 then mp + 3 else mp - 9).
  { subst mp. destruct (Z.ltb_spec 2 m);
      match goal with |- context [?a <? 10] => destruct (Z.ltb_spec a 10) end; lia. }
  destruct Hmp as [Hmp Hmm].
  set (era := Y / 400). set (yoe := Y mod 400).
  assert (HYe : Y = 400 * era + yoe) by (subst era yoe; apply Z.div_mod; lia).
  assert (Hyoe : 0 ≤ yoe ≤ 399)
    by (subst yoe; pose proof (Z.mod_pos_bound Y 400); lia).
  assert (Hdim : 1 ≤ d ≤ 31 ∧ (mp = 11 → d ≤ 29)
                 ∧ (mp = 1 ∨ mp = 3 ∨ mp = 6 ∨ mp = 8 → d ≤ 30)
                 ∧ (mp = 11 → d = 29 → isLeapYear y = true)).
  { unfold daysInMonth in Hd.
    destruct (Z.eqb_spec m 2) as [E2|N2].
    - assert (mp = 11) by (rewrite Hmm in E2; destruct (Z.ltb_spec mp 10); lia).
      destruct (isLeapYear y); repeat split; try lia; auto.
    - assert (mp ≠ 11) by (rewrite Hmm in N2; destruct (Z.ltb_spec mp 10); lia).
      destruct ((m =? 4) || (m =? 6) || (m =? 9) || (m =? 11)) eqn:E30;
        repeat split; try lia.
      intros Hmp30. exfalso. apply orb_false_iff in E30 as [E30 E11].
      apply orb_false_iff in E30 as [E30 E9].
      apply orb_false_iff in E30 as [E4 E6].
      rewrite Z.eqb_neq in *. rewrite Hmm in *.
      destruct (Z.ltb_spec mp 10); lia. }
  destruct Hdim as (Hd31 & Hfeb & H30 & Hleap).
  destruct (month_of_year_inv mp d Hmp Hd31 Hfeb H30) as (Hdoy & H365 & Emp & Ed).
  set (doy := (153 * mp + 2) / 5 + d - 1) in *.
  destruct (year_of_era_inv yoe doy Hyoe Hdoy) as (Hdoe & Eyoe).
  { intros E. destruct (H365 E) as [E11 E29].
    specialize (Hleap E11 E29). apply isLeapYear_true in Hleap.
    assert (Em2 : m = 2) by (rewrite Hmm; destruct (Z.ltb_spec mp 10); lia).
    rewrite HY, Em2 in Hleap. simpl in Hleap. rewrite HYe in Hleap.
    replace (400 * era + yoe + 1) with (yoe + 1 + era * 400) in Hleap by ring.
    replace (era * 400) with ((era * 100) * 4) in Hleap at 1 by ring.
    replace (era * 400) with ((era * 4) * 100) in Hleap at 1 by ring.
    rewrite !Z_mod_plus_full in Hleap. exact Hleap. }
  set (doe := yoe * 365 + yoe / 4 - yoe / 100 + doy) in *.
  unfold civil_from_days.
  replace (era * 146097 + doe - 719468 + 719468) with (doe + era * 146097) by ring.
  rewrite Z.div_add, Z.mod_add by lia.
  rewrite (Z.div_small doe 146097), (Z.mod_small doe 146097) by lia.
  cbv zeta. rewrite Eyoe. fold doe.
  replace (doe - (365 * yoe + yoe / 4 - yoe / 100)) with doy by (subst doe; ring).
  rewrite Emp, Ed, <- Hmm.
  replace (yoe + (0 + era) * 400) with Y by lia.
  now rewrite <- HY.
Qed.

Lemma days_from_civil_next_month y m :
  1 ≤ m ≤ 12 →
  days_from_civil y m 1 + daysInMonth y m = nextMonthStart y m.
Proof.
  intros Hm.
  pose proof (civil_from_days_from_civil y m (daysInMonth y m) Hm) as Hlast.
  unfold nextMonthStart, days_from_civil, daysInMonth in *.
  assert (Hc : m = 1 ∨ m = 2 ∨ m = 3 ∨ m = 4 ∨ m = 5 ∨ m = 6 ∨ m = 7
               ∨ m = 8 ∨ m = 9 ∨ m = 10 ∨ m = 11 ∨ m = 12) by lia.
  clear Hlast.
  destruct (isLeapYear y) eqn:El.
  - apply isLeapYear_true in El.
    repeat (destruct Hc as [-> | Hc]); try subst m; eval_closed_tests;
      Z.div_mod_to_equations; lia.
  - apply not_true_iff_false in El. rewrite isLeapYear_true in El.
    repeat (destruct Hc as [-> | Hc]); try subst m; eval_closed_tests;
      Z.div_mod_to_equations; lia.
Qed.

Lemma days_from_civil_next_year y m :
  1 ≤ m ≤ 12 → days_from_civil y m 1 + 365 ≤ days_from_civil (y + 1) m 1.
Proof.
  intros Hm. unfold days_from_civil.
  destruct (m <=? 2), (2 <? m);
    replace (y + 1 - 1) with (y - 1 + 1) by ring;
    Z.div_mod_to_equations; lia.
Qed.
Lemma days_from_civil_linear y m d :
  days_from_civil y m d = days_from_civil y m 1 + d - 1.
Proof. unfold days_from_civil. lia. Qed.

(** The first of a month lies in its year, and a year has at most 366
    days. *)
Lemma days_from_civil_in_year y m :
  1 ≤ m ≤ 12 →
  days_from_civil y 1 1 ≤ days_from_civil y m 1 ≤ days_from_civil y 1 1 + 335.
Proof.
  intros Hm. unfold days_from_civil.
  assert (Hc : m = 1 ∨ m = 2 ∨ m = 3 ∨ m = 4 ∨ m = 5 ∨ m = 6 ∨ m = 7
               ∨ m = 8 ∨ m = 9 ∨ m = 10 ∨ m = 11 ∨ m = 12) by lia.
  repeat (destruct Hc as [-> | Hc]); try subst m; eval_closed_tests;
    Z.div_mod_to_equations; lia.
Qed.

Lemma days_from_civil_year_length y :
  days_from_civil (y + 1) 1 1 ≤ days_from_civil y 1 1 + 366.
Proof.
  unfold days_from_civil. eval_closed_tests.
  replace (y + 1 - 1) with (y - 1 + 1) by ring.
  Z.div_mod_to_equations; lia.
Qed.

End Calendar.


(** ** Dates                                                              *)

Section Dates.
Import CalendarCheck.

Lemma msPerDay_pos : 0 < msPerDay.
Proof. reflexivity. Qed.

Lemma Day_MakeDate day time :
  0 ≤ time < msPerDay → Day (MakeDate day time) = day.
Proof.
  intros Ht. unfold Day, MakeDate.
  rewrite Z.add_comm, Z_div_plus_full by (pose proof msPerDay_pos; lia).
  rewrite Z.div_small by lia. lia.
Qed.

Lemma TimeWithinDay_MakeDate day time :
  0 ≤ time < msPerDay → TimeWithinDay (MakeDate day time) = time.
Proof.
  intros Ht. unfold TimeWithinDay, MakeDate.
  rewrite Z.add_comm, Z_mod_plus_full. now apply Z.mod_small.
Qed.

Lemma TimeWithinDay_bound t : 0 ≤ TimeWithinDay t < msPerDay.
Proof. apply Z.mod_pos_bound, msPerDay_pos. Qed.

Lemma MakeDate_Day t : MakeDate (Day t) (TimeWithinDay t) = t.
Proof.
  unfold MakeDate, Day, TimeWithinDay.
  pose proof (Z.div_mod t msPerDay). pose proof msPerDay_pos. lia.
Qed.

(** The calendar fields of a date, gathered. *)
Lemma fields_of t :
  ∃ y m d, civil_from_days (Day t) = (y, m, d)
           ∧ getFullYear t = y ∧ getMonth t = m - 1 ∧ getDate t = d
           ∧ 1 ≤ m ≤ 12 ∧ 1 ≤ d ≤ daysInMonth y m
           ∧ days_from_civil y m d = Day t.
Proof.
  destruct (civil_from_days (Day t)) as [[y m] d] eqn:Hc.
  exists y, m, d. unfold getFullYear, getMonth, getDate. rewrite Hc. simpl.
  pose proof (civil_from_days_valid _ _ _ _ Hc). intuition.
Qed.

(** [MakeDay] on a month index inside the year. *)
Lemma MakeDay_in_year y m d :
  1 ≤ m ≤ 12 → MakeDay y (m - 1) d = days_from_civil y m 1 + d - 1.
Proof.
  intros Hm. unfold MakeDay.
  rewrite Z.div_small, Z.mod_small by lia.
  replace (y + 0) with y by ring. replace (m - 1 + 1) with m by ring. reflexivity.
Qed.

Lemma getDaysInMonth_in_year y m :
  1 ≤ m ≤ 12 → getDaysInMonth y (m - 1) = daysInMonth y m.
Proof.
  intros Hm. unfold getDaysInMonth.
  rewrite Z.div_small, Z.mod_small by lia.
  replace (y + 0) with y by ring. now replace (m - 1 + 1) with m by ring.
Qed.

(** [Date.prototype.setDate] moves the date by whole days. *)
Lemma jsSetDate_shift t date :
  jsSetDate t date = t + (date - getDate t) * msPerDay.
Proof.
  destruct (fields_of t) as (y & m & d & _ & Hy & Hm & Hd & Hmr & _ & Hday).
  unfold jsSetDate. rewrite Hy, Hm, Hd, MakeDay_in_year by assumption.
  rewrite (days_from_civil_linear y m d) in Hday.
  replace (days_from_civil y m 1 + date - 1) with (Day t + (date - d)) by lia.
  rewrite <- (MakeDate_Day t) at 3. unfold MakeDate, Date. ring.
Qed.

(** [addDays] adds whole days to the time value. *)
Lemma addDays_shift t amount : addDays t amount = t + amount * msPerDay.
Proof.
  unfold addDays. destruct (Z.eqb_spec amount 0) as [->|_]; [lia|].
  rewrite jsSetDate_shift. f_equal. f_equal. lia.
Qed.

Lemma Day_shift t k : Day (t + k * msPerDay) = Day t + k.
Proof. unfold Day. apply Z_div_plus_full. pose proof msPerDay_pos. lia. Qed.

Lemma TimeWithinDay_shift t k : TimeWithinDay (t + k * msPerDay) = TimeWithinDay t.
Proof. unfold TimeWithinDay. apply Z_mod_plus_full. Qed.

Lemma startOfDay_aligned t : TimeWithinDay (startOfDay t) = 0.
Proof. unfold startOfDay. apply TimeWithinDay_MakeDate. pose proof msPerDay_pos. lia. Qed.

Lemma Day_startOfDay t : Day (startOfDay t) = Day t.
Proof. unfold startOfDay. apply Day_MakeDate. pose proof msPerDay_pos. lia. Qed.

Lemma aligned_MakeDate t : TimeWithinDay t = 0 → t = Day t * msPerDay.
Proof. intros H. pose proof (MakeDate_Day t) as E. unfold MakeDate in E. lia. Qed.

Lemma startOfDay_idem t : TimeWithinDay t = 0 → startOfDay t = t.
Proof. intros H. unfold startOfDay, MakeDate. pose proof (aligned_MakeDate t H). lia. Qed.

Lemma Day_mono a b : a ≤ b → Day a ≤ Day b.
Proof. intros H. unfold Day. apply Z.div_le_mono; [apply msPerDay_pos|exact H]. Qed.

(** The range of a [Date] is a whole number of days on either side of the
    epoch. *)
Lemma maxTime_days : maxTime = 100000000 * msPerDay.
Proof. reflexivity. Qed.

Lemma isValid_true t : isValid t = true ↔ - maxTime ≤ t ≤ maxTime.
Proof. unfold isValid. rewrite andb_true_iff, !Z.leb_le. reflexivity. Qed.

Lemma isValid_false t : isValid t = false ↔ t < - maxTime ∨ maxTime < t.
Proof.
  unfold isValid. rewrite andb_false_iff, !Z.leb_gt. reflexivity.
Qed.

Lemma InvalidDate_invalid : isValid InvalidDate = false.
Proof. reflexivity. Qed.

Lemma startOfDay_valid t : isValid t = true → isValid (startOfDay t) = true.
Proof.
  rewrite !isValid_true. unfold startOfDay, MakeDate, Day, msPerDay, maxTime.
  intros H. Z.div_mod_to_equations. lia.
Qed.

(** On valid dates [isBefore] and [isAfter] compare the time values. *)
Lemma isBefore_valid a b :
  isValid a = true → isValid b = true → isBefore a b = (a <? b).
Proof. intros Ha Hb. unfold isBefore. now rewrite Ha, Hb. Qed.

Lemma isAfter_valid a b :
  isValid a = true → isValid b = true → isAfter a b = (b <? a).
Proof. intros Ha Hb. unfold isAfter. now rewrite Ha, Hb. Qed.

Lemma isBefore_true a b :
  isBefore a b = true → isValid a = true ∧ isValid b = true ∧ a < b.
Proof.
  unfold isBefore. rewrite !andb_true_iff, Z.ltb_lt. tauto.
Qed.

Lemma isAfter_true a b :
  isAfter a b = true → isValid a = true ∧ isValid b = true ∧ b < a.
Proof.
  unfold isAfter. rewrite !andb_true_iff, Z.ltb_lt. tauto.
Qed.

(** An Invalid Date is neither before nor after any date. *)
Lemma isBefore_invalid a b : isValid a = false → isBefore a b = false.
Proof. intros H. unfold isBefore. now rewrite H. Qed.

Lemma isAfter_invalid a b : isValid a = false → isAfter a b = false.
Proof. intros H. unfold isAfter. now rewrite H. Qed.

(** [setYear]: the result lies in the requested year. *)
Lemma setYear_fields t year :
  getFullYear (setYear t year) = year ∧ 1 ≤ getDate (setYear t year)
  ∧ TimeWithinDay (setYear t year) = TimeWithinDay t.
Proof.
  destruct (fields_of t) as (y & m & d & _ & Hy & Hm & Hd & Hmr & Hdr & _).
  unfold setYear, setFullYear. rewrite Hm, Hd, MakeDay_in_year by assumption.
  rewrite <- days_from_civil_linear.
  pose proof (TimeWithinDay_bound t) as Ht.
  split; [|split]; [| |now apply TimeWithinDay_MakeDate].
  - unfold getFullYear. rewrite Day_MakeDate by assumption.
    destruct (Z_le_gt_dec d (daysInMonth year m)) as [Hle|Hgt].
    + now rewrite civil_from_days_from_civil by lia.
    + assert (m = 2 ∧ d = 29 ∧ daysInMonth year m = 28) as (-> & -> & H28).
      { unfold daysInMonth in *. destruct (m =? 2) eqn:E2.
        - apply Z.eqb_eq in E2. destruct (isLeapYear y), (isLeapYear year); simpl in *; lia.
        - destruct ((m =? 4) || (m =? 6) || (m =? 9) || (m =? 11)); lia. }
      rewrite days_from_civil_linear.
      pose proof (days_from_civil_next_month year 2 ltac:(lia)) as Hn.
      change (nextMonthStart year 2) with (days_from_civil year 3 1) in Hn.
      replace (days_from_civil year 2 1 + 29 - 1) with (days_from_civil year 3 1) by lia.
      now rewrite civil_from_days_from_civil by (unfold daysInMonth; simpl; lia).
  - unfold getDate. rewrite Day_MakeDate by assumption.
    destruct (civil_from_days (days_from_civil year m d)) as [[y' m'] d'] eqn:Hc.
    apply civil_from_days_valid in Hc. simpl. lia.
Qed.

Lemma daysInMonth_pos y m : 28 ≤ daysInMonth y m ≤ 31.
Proof.
  unfold daysInMonth. repeat match goal with |- context [if ?b then _ else _] => destruct b end; lia.
Qed.

(** [setMonth]: year unchanged, month as requested. *)
Lemma setMonth_fields t m :
  1 ≤ m ≤ 12 → 1 ≤ getDate t →
  getFullYear (setMonth t (m - 1)) = getFullYear t
  ∧ getMonth (setMonth t (m - 1)) = m - 1
  ∧ TimeWithinDay (setMonth t (m - 1)) = TimeWithinDay t.
Proof.
  intros Hm Hd. unfold setMonth, jsSetMonth.
  rewrite getDaysInMonth_in_year, MakeDay_in_year by assumption.
  rewrite <- days_from_civil_linear.
  pose proof (TimeWithinDay_bound t) as Ht.
  pose proof (daysInMonth_pos (getFullYear t) m).
  unfold getFullYear at 1, getMonth at 1.
  rewrite !Day_MakeDate, TimeWithinDay_MakeDate by assumption.
  rewrite civil_from_days_from_civil by lia. simpl. auto.
Qed.
End Dates.

(** ** The recurrence calculator: fixed dates                              *)

Section FixedDate.
Import Materializer.

(** The event date of a candidate year is the day [day - 1] days after the
    first of the month, in that year: a day of month past the end of the
    month runs on into the next month. *)
Lemma fixedEventDate_day ws y fd :
  1 ≤ month fd ≤ 12 →
  fixedEventDate ws y fd =
    MakeDate (days_from_civil y (month fd) 1 + day fd - 1) 0.
Proof.
  intros Hm. unfold fixedEventDate.
  destruct (setYear_fields ws y) as (Hy1 & Hd1 & _).
  destruct (setMonth_fields (setYear ws y) (month fd) Hm Hd1) as (Hy2 & Hm2 & _).
  unfold startOfDay, setDate, jsSetDate.
  rewrite Hy2, Hy1, Hm2, MakeDay_in_year by assumption.
  now rewrite Day_MakeDate by apply TimeWithinDay_bound.
Qed.

Lemma fixedEventDate_aligned ws y fd :
  TimeWithinDay (fixedEventDate ws y fd) = 0.
Proof. unfold fixedEventDate. apply startOfDay_aligned. Qed.

(** The event dates of the two candidate years lie within a year before
    and two years after the window start. *)
Lemma fixedEventDate_near ws y fd :
  1 ≤ month fd ≤ 12 → 1 ≤ day fd ≤ 31 →
  y = getFullYear ws ∨ y = getFullYear ws + 1 →
  Day ws - 365 ≤ Day (fixedEventDate ws y fd) ≤ Day ws + 731.
Proof.
  intros Hm Hd Hy. rewrite fixedEventDate_day by assumption.
  rewrite Day_MakeDate by (pose proof msPerDay_pos; lia).
  destruct (fields_of ws) as (cy & m & d & _ & Hcy & _ & _ & Hmr & Hdr & Hday).
  rewrite Hcy in Hy. rewrite days_from_civil_linear in Hday.
  pose proof (daysInMonth_pos cy m).
  pose proof (days_from_civil_in_year cy m Hmr).
  pose proof (days_from_civil_in_year y (month fd) Hm).
  pose proof (days_from_civil_year_length cy).
  pose proof (days_from_civil_next_year cy 1 ltac:(lia)).
  destruct Hy as [-> | ->]; lia.
Qed.

Lemma notifyDates_In date ws we offsets o :
  In o offsets → inWindow ws we (addDays date (- o)) = true →
  In (addDays date (- o)) (notifyDates date ws we offsets).
Proof.
  intros Ho Hw. unfold notifyDates. apply filter_In. split; [|exact Hw].
  apply in_map_iff. exists o. auto.
Qed.

(** C1, as the code has it.  For a rule on (month, day) = (2, 29) and a
    candidate year (the year of the window start, or the next) that is not a
    leap year, the event date computed for that year is March 1 of that year,
    at midnight: day 29 runs one day past the 28 days of February.  The
    reminder is not skipped: every notify date of that event date that lies in
    the window is in the output of [computeFixedDateDues]. *)
Theorem C1_feb29_non_leap_is_march_1 rule ws we fd y :
  ReminderRule.fixedDate rule = Some fd →
  month fd = 2 → day fd = 29 →
  y = getFullYear ws ∨ y = getFullYear ws + 1 →
  isLeapYear y = false →
  let eventDate := fixedEventDate ws y fd in
  civil_from_days (Day eventDate) = (y, 3, 1)
  ∧ TimeWithinDay eventDate = 0
  ∧ ∀ o, In o (default [0] (ReminderRule.notifyDaysBefore rule)) →
         inWindow ws we (addDays eventDate (- o)) = true →
         In (addDays eventDate (- o)) (computeFixedDateDues rule ws we).
Proof.
  intros Hfd Hm Hd Hy Hleap eventDate.
  assert (Hday : Day eventDate = days_from_civil y 3 1).
  { subst eventDate. rewrite fixedEventDate_day by lia.
    rewrite Day_MakeDate by (pose proof msPerDay_pos; lia).
    rewrite Hm, Hd.
    pose proof (days_from_civil_next_month y 2 ltac:(lia)) as Hn.
    change (CalendarCheck.nextMonthStart y 2) with (days_from_civil y 3 1) in Hn.
    unfold daysInMonth in Hn. rewrite Hleap in Hn. simpl in Hn. lia. }
  split; [|split].
  - rewrite Hday. apply civil_from_days_from_civil; [lia|].
    unfold daysInMonth. simpl. lia.
  - apply fixedEventDate_aligned.
  - intros o Ho Hw. unfold computeFixedDateDues. rewrite Hfd.
    apply in_flat_map. exists y. split.
    + simpl. destruct Hy; auto.
    + now apply notifyDates_In.
Qed.

Lemma C1_feb29_non_leap_is_march_1_witness :
  civil_from_days
    (Day (fixedEventDate (midnight 2023 1 1) 2023 (mkMonthDay 2 29 None)))
  = (2023, 3, 1)
  ∧ In (midnight 2023 3 1)
       (computeFixedDateDues rule_feb29 (midnight 2023 1 1)
                             (addDays (midnight 2023 1 1) 90)).
Proof.
  destruct (C1_feb29_non_leap_is_march_1 rule_feb29 (midnight 2023 1 1)
              (addDays (midnight 2023 1 1) 90) (mkMonthDay 2 29 None) 2023)
    as (Hcivil & _ & Hin); try reflexivity.
  - left. reflexivity.
  - split; [exact Hcivil|].
    apply (Hin 0); [left|]; reflexivity.
Defined.

(** C1 as stated fails: with the window starting on 2023-01-01 (2023 is not
    a leap year) the event date of a (2, 29) rule is not February 28, 2023;
    the calculator emits 2023-03-01 and nothing on February 28. *)
Lemma C1_feb29_not_feb_28 :
  let ws := midnight 2023 1 1 in
  let we := addDays ws 90 in
  isLeapYear (getFullYear ws) = false
  ∧ civil_from_days (Day (fixedEventDate ws (getFullYear ws) (mkMonthDay 2 29 None)))
    ≠ (getFullYear ws, 2, 28)
  ∧ computeFixedDateDues rule_feb29 ws we = [midnight 2023 3 1]
  ∧ ¬ In (midnight 2023 2 28) (computeFixedDateDues rule_feb29 ws we).
Proof.
  vm_compute. repeat split; try discriminate.
  intros [H|[]]. discriminate.
Qed.
End FixedDate.

(** ** The recurrence calculator: intervals                                *)

Section Interval.
Import Materializer.

Lemma differenceInDays_aligned a b :
  isValid a = true → isValid b = true →
  TimeWithinDay a = 0 → TimeWithinDay b = 0 →
  differenceInDays a b = Some (Day a - Day b).
Proof.
  intros Va Vb Ha Hb. unfold differenceInDays. rewrite Va, Vb. simpl. f_equal.
  rewrite (aligned_MakeDate a Ha) at 1. rewrite (aligned_MakeDate b Hb) at 1.
  replace (Day a * msPerDay - Day b * msPerDay) with ((Day a - Day b) * msPerDay)
    by (unfold Date; ring).
  apply Z.quot_mul. pose proof msPerDay_pos. lia.
Qed.

Lemma anchorDate_aligned rule ci : TimeWithinDay (anchorDate rule ci) = 0.
Proof. unfold anchorDate. apply startOfDay_aligned. Qed.

(** With an Invalid Date as anchor, the first [nextDueDate] is invalid. *)
Lemma initialNextDue_invalid_anchor anchor ws n :
  isValid anchor = false → isValid (initialNextDue anchor ws n) = false.
Proof.
  intros H. unfold initialNextDue, differenceInDays.
  rewrite H, andb_false_r. reflexivity.
Qed.

Lemma initialNextDue_eq anchor ws n :
  isValid anchor = true → isValid ws = true →
  TimeWithinDay anchor = 0 → TimeWithinDay ws = 0 →
  initialNextDue anchor ws n
  = addDays anchor (((Day ws - Day anchor) / n + 1) * n).
Proof.
  intros Va Vw Ha Hw. unfold initialNextDue.
  now rewrite differenceInDays_aligned.
Qed.

(** The first assignment to [nextDueDate] already lies strictly after the
    window start, so the first [while] loop does not run; and it lies no
    more than one interval after it. *)
Lemma initialNextDue_after anchor ws n :
  1 ≤ n → isValid anchor = true → isValid ws = true →
  TimeWithinDay anchor = 0 → TimeWithinDay ws = 0 →
  ws < initialNextDue anchor ws n ≤ ws + n * msPerDay.
Proof.
  intros Hn Va Vw Ha Hw. rewrite initialNextDue_eq, addDays_shift by assumption.
  pose proof (aligned_MakeDate ws Hw) as Ews.
  pose proof (aligned_MakeDate anchor Ha) as Ean.
  set (D := Day ws - Day anchor).
  pose proof (Z.div_mod D n ltac:(lia)). pose proof (Z.mod_pos_bound D n ltac:(lia)).
  pose proof msPerDay_pos.
  assert (Hlt : Day ws < Day anchor + (D / n + 1) * n) by lia.
  assert (Hle : Day anchor + (D / n + 1) * n ≤ Day ws + n) by lia.
  apply (Z.mul_lt_mono_pos_r msPerDay) in Hlt; [|assumption].
  apply (Z.mul_le_mono_nonneg_r _ _ msPerDay) in Hle; [|lia].
  unfold Date in *. lia.
Qed.

Lemma advanceToWindow_done fuel next ws n :
  isBefore next ws = false → advanceToWindow fuel next ws n = Some next.
Proof. intros H. destruct fuel; simpl; now rewrite H. Qed.

Lemma not_isBefore_le next ws : ws ≤ next → isBefore next ws = false.
Proof.
  intros H. unfold isBefore. rewrite (proj2 (Z.ltb_ge next ws) H).
  apply andb_false_r.
Qed.

(** What [firstDueDate] computes: one interval past the last interval
    boundary at or before the window start. *)
Lemma firstDueDate_eq rule ws ci n :
  1 ≤ n → TimeWithinDay ws = 0 → isValid ws = true →
  let anchor := anchorDate rule ci in
  isValid anchor = true →
  firstDueDate rule ws ci n =
    Some (addDays anchor (((Day ws - Day anchor) / n + 1) * n)).
Proof.
  intros Hn Hw Vw anchor Va. unfold firstDueDate. fold anchor.
  pose proof (anchorDate_aligned rule ci) as Ha. fold anchor in Ha.
  rewrite advanceToWindow_done
    by (apply not_isBefore_le;
        pose proof (initialNextDue_after anchor ws n Hn Va Vw Ha Hw); lia).
  now rewrite initialNextDue_eq.
Qed.


(** The generation loop never ends on an Invalid Date. *)
Lemma emitDues_invalid fuel next ws we n offsets :
  isValid next = false → emitDues fuel next ws we n offsets = None.
Proof.
  intros H. destruct fuel; simpl; rewrite (isAfter_invalid _ _ H), H; reflexivity.
Qed.

(** The generation loop ends when every pass advances by a day or more and
    the date one interval past the window end is still a valid date. *)
Lemma emitDues_terminates n ws we offsets fuel :
  1 ≤ n → isValid we = true → isValid (addDays we n) = true →
  ∀ next, - maxTime ≤ next ≤ we + n * msPerDay →
          Day we - Day next + 1 ≤ Z.of_nat fuel →
  is_Some (emitDues fuel next ws we n offsets).
Proof.
  intros Hn Vwe Vn. rewrite addDays_shift in Vn.
  apply isValid_true in Vn. pose proof (proj1 (isValid_true we) Vwe) as Vwe'.
  induction fuel as [|fuel IH]; intros next Hr Hf.
  - simpl. assert (Vnext : isValid next = true) by (apply isValid_true; lia).
    rewrite isAfter_valid, Vnext by assumption.
    destruct (Z.ltb_spec we next); [eauto|].
    pose proof (Day_mono next we ltac:(lia)). lia.
  - simpl. assert (Vnext : isValid next = true) by (apply isValid_true; lia).
    rewrite isAfter_valid, Vnext by assumption.
    destruct (Z.ltb_spec we next); [eauto|]. simpl.
    destruct (IH (addDays next n)) as [l Hl].
    + rewrite addDays_shift. pose proof msPerDay_pos.
      assert (0 < n * msPerDay) by (apply Z.mul_pos_pos; lia).
      unfold Date in *. lia.
    + rewrite addDays_shift, Day_shift. lia.
    + rewrite Hl. simpl. eauto.
Qed.

Lemma computeFollowUpDues_terminates rule ws we ci :
  interval_ok we rule ci →
  TimeWithinDay ws = 0 → isValid ws = true → ws ≤ we →
  is_Some (computeFollowUpDues rule ws we ci).
Proof.
  intros Hn Hw Vw Hle. unfold computeFollowUpDues.
  destruct (ReminderRule.intervalDays rule) as [n|] eqn:E; [|eauto].
  destruct (Hn n E) as (Hn0 & Va & Vn).
  destruct (Z.eqb_spec n 0); [eauto|].
  rewrite firstDueDate_eq by (assumption || lia). simpl.
  rewrite <- initialNextDue_eq
    by (assumption || apply anchorDate_aligned).
  pose proof (initialNextDue_after (anchorDate rule ci) ws n ltac:(lia) Va Vw
                (anchorDate_aligned rule ci) Hw) as [Hlt Hup].
  pose proof (proj1 (isValid_true ws) Vw).
  assert (Vwe : isValid we = true).
  { apply isValid_true. rewrite addDays_shift in Vn. apply isValid_true in Vn.
    pose proof msPerDay_pos.
    assert (0 ≤ n * msPerDay) by (apply Z.mul_nonneg_nonneg; lia).
    unfold Date in *. lia. }
  apply emitDues_terminates; try assumption; [lia| |unfold daysBetween; lia].
  pose proof msPerDay_pos. unfold Date in *. lia.
Qed.

(** Every valid date the loops emit lies in the window. *)
Lemma notifyDates_in_window date ws we offsets :
  isValid ws = true → isValid we = true →
  Forall (fun d => isValid d = true → ws ≤ d ≤ we)
         (notifyDates date ws we offsets).
Proof.
  intros Vw Ve. apply List.Forall_forall. intros d Hd Vd. unfold notifyDates in Hd.
  apply filter_In in Hd as [_ Hd]. unfold inWindow in Hd.
  rewrite isBefore_valid, isAfter_valid in Hd by assumption.
  apply andb_true_iff in Hd as [H1 H2].
  apply negb_true_iff, Z.ltb_ge in H1. apply negb_true_iff, Z.ltb_ge in H2. lia.
Qed.

(** When the offsets do not take a date of the window out of the range of
    a [Date], every date emitted for a valid due date after the window
    start is valid, hence in the window. *)
Lemma notifyDates_valid date ws we offsets :
  isValid ws = true → isValid we = true →
  Forall (fun o => isValid (addDays ws (- o)) = true
                   ∧ isValid (addDays we (- o)) = true) offsets →
  ws ≤ date ≤ we →
  Forall (fun d => ws ≤ d ≤ we) (notifyDates date ws we offsets).
Proof.
  intros Vw Ve Ho Hd.
  pose proof (notifyDates_in_window date ws we offsets Vw Ve) as Hin.
  rewrite List.Forall_forall in *. intros d Hdin. apply (Hin d Hdin).
  unfold notifyDates in Hdin. apply filter_In in Hdin as [Hdin _].
  apply in_map_iff in Hdin as (o & <- & Hoin).
  destruct (Ho o Hoin) as [V1 V2]. rewrite addDays_shift in *.
  apply isValid_true in V1, V2. apply isValid_true. unfold Date in *. lia.
Qed.

Lemma emitDues_in_window n ws we offsets fuel :
  1 ≤ n → isValid ws = true → isValid we = true →
  Forall (fun o => isValid (addDays ws (- o)) = true
                   ∧ isValid (addDays we (- o)) = true) offsets →
  ∀ next l, ws ≤ next →
  emitDues fuel next ws we n offsets = Some l →
  Forall (fun d => ws ≤ d ≤ we) l.
Proof.
  intros Hn Vw Ve Ho. induction fuel as [|fuel IH]; intros next l Hlo; simpl.
  - destruct (isAfter next we); [|destruct (negb _); discriminate].
    intros [= <-]. constructor.
  - destruct (isAfter next we) eqn:Ea; [intros [= <-]; constructor|].
    destruct (isValid next) eqn:Vn; [|discriminate]. simpl.
    destruct (emitDues fuel (addDays next n) ws we n offsets) as [rest|] eqn:E;
      [|discriminate].
    simpl. intros [= <-].
    rewrite isAfter_valid in Ea by assumption. apply Z.ltb_ge in Ea.
    apply Forall_app_2.
    + apply notifyDates_valid; auto.
    + apply (IH (addDays next n)); [|exact E]. rewrite addDays_shift.
      pose proof msPerDay_pos.
      assert (0 < n * msPerDay) by (apply Z.mul_pos_pos; lia).
      unfold Date in *. lia.
Qed.

(** With a single notify offset, the dates of the generation loop come out
    strictly ascending. *)
Lemma notifyDates_single date ws we o :
  notifyDates date ws we [o] = [] ∨
  notifyDates date ws we [o] = [date - o * msPerDay].
Proof.
  unfold notifyDates. simpl. rewrite addDays_shift.
  replace (date + - o * msPerDay) with (date - o * msPerDay) by (unfold Date; ring).
  destruct (inWindow ws we _); auto.
Qed.

Lemma emitDues_single_sorted n ws we o fuel :
  1 ≤ n → ∀ next l,
  emitDues fuel next ws we n [o] = Some l →
  StronglySorted Z.lt l ∧ Forall (fun d => next - o * msPerDay ≤ d) l.
Proof.
  intros Hn. induction fuel as [|fuel IH]; intros next l; simpl.
  - destruct (isAfter next we); [|destruct (negb _); discriminate].
    intros [= <-]. split; constructor.
  - destruct (isAfter next we).
    + intros [= <-]. split; constructor.
    + destruct (negb (isValid next)); [discriminate|].
      destruct (emitDues fuel (addDays next n) ws we n [o]) as [rest|] eqn:E;
        [|discriminate].
      simpl. intros [= <-].
      destruct (IH _ _ E) as [Hs Hb]. rewrite addDays_shift in Hb.
      pose proof msPerDay_pos.
      assert (Hb' : Forall (fun d => next - o * msPerDay < d) rest).
      { eapply List.Forall_impl; [|exact Hb]. simpl. intros d Hd.
        assert (0 < n * msPerDay) by (apply Z.mul_pos_pos; lia).
        unfold Date in *. lia. }
      destruct (notifyDates_single next ws we o) as [-> | ->]; simpl.
      * split; [exact Hs|]. eapply List.Forall_impl; [|exact Hb']. simpl. lia.
      * split; [constructor; assumption|].
        constructor; [lia|]. eapply List.Forall_impl; [|exact Hb']. simpl. lia.
Qed.
End Interval.

Section IntervalClaims.
Import Materializer.

(** The anchoring example: an interval of 30 days and a last contact 45 days
    before today give the next due date 60 days after the anchor. *)
Lemma firstDueDate_45_days_ago :
  let today := midnight 2023 3 1 in
  let anchor := addDays today (-45) in
  firstDueDate rule_follow_up_30 today (contacted anchor) 30
  = Some (addDays anchor 60).
Proof. reflexivity. Qed.

(** C2, where the code departs from it.  The last contact was exactly 30
    days before today and the interval is 30 days.  The smallest date
    [anchor + k * 30] at or after the window start is today itself
    ([k = 1]); [firstDueDate] returns today + 30 days ([k = 2]), and today
    is not among the due dates of the window. *)
Theorem C2_first_due_on_boundary :
  let today := midnight 2023 3 1 in
  let anchor := addDays today (-30) in
  let windowEnd := addDays today 30 in
  addDays anchor (1 * 30) = today
  ∧ firstDueDate rule_follow_up_30 today (contacted anchor) 30
    = Some (addDays anchor (2 * 30))
  ∧ computeFollowUpDues rule_follow_up_30 today windowEnd (contacted anchor)
    = Some [addDays today 30].
Proof. repeat split; reflexivity. Qed.

Lemma StronglySorted_lt_le l : StronglySorted Z.lt l → Sorted Z.le l.
Proof.
  intros H. apply StronglySorted_Sorted.
  induction H as [|x l Hs IH Hx]; constructor; [exact IH|].
  eapply List.Forall_impl; [|exact Hx]. simpl. lia.
Qed.

Lemma StronglySorted_lt_NoDup l : StronglySorted Z.lt l → List.NoDup l.
Proof.
  induction 1 as [|x l Hs IH Hx]; constructor; [|exact IH].
  intros Hin. rewrite List.Forall_forall in Hx. specialize (Hx x Hin). lia.
Qed.

Lemma computeFixedDateDues_single_sorted rule ws we o :
  default [0] (ReminderRule.notifyDaysBefore rule) = [o] →
  (∀ fd, ReminderRule.fixedDate rule = Some fd → 1 ≤ month fd ≤ 12) →
  StronglySorted Z.lt (computeFixedDateDues rule ws we).
Proof.
  intros Ho Hm. unfold computeFixedDateDues.
  destruct (ReminderRule.fixedDate rule) as [fd|]; [|constructor].
  specialize (Hm fd eq_refl). rewrite Ho. simpl. rewrite app_nil_r.
  set (y := getFullYear ws).
  assert (Hlt : fixedEventDate ws y fd < fixedEventDate ws (y + 1) fd).
  { rewrite !fixedEventDate_day by assumption. unfold MakeDate.
    pose proof (days_from_civil_next_year y (month fd) Hm).
    pose proof msPerDay_pos.
    apply Z.add_lt_mono_r, Z.mul_lt_mono_pos_r; [assumption|]. lia. }
  destruct (notifyDates_single (fixedEventDate ws y fd) ws we o) as [-> | ->],
           (notifyDates_single (fixedEventDate ws (y + 1) fd) ws we o) as [-> | ->];
    simpl; repeat constructor. unfold Date in *. lia.
Qed.

Lemma window_ok_valid ws : window_ok ws → isValid ws = true.
Proof.
  intros [H1 H2]. rewrite addDays_shift in *.
  apply isValid_true in H1, H2. apply isValid_true.
  pose proof msPerDay_pos. unfold Date in *. lia.
Qed.

Lemma offset_ok_window ws we o :
  offset_ok ws we o →
  isValid (addDays ws (- o)) = true ∧ isValid (addDays we (- o)) = true.
Proof.
  intros (H1 & H2 & H3). split; [|exact H3].
  rewrite addDays_shift in *. apply isValid_true in H1, H2. apply isValid_true.
  pose proof msPerDay_pos. unfold Date in *. lia.
Qed.

(** The dates a fixed-date rule yields lie in the window. *)
Lemma computeFixedDateDues_in_window rule ws we :
  fixedDate_ok rule →
  isValid ws = true → isValid we = true →
  Forall (offset_ok ws we) (default [0] (ReminderRule.notifyDaysBefore rule)) →
  Forall (fun d => ws ≤ d ≤ we) (computeFixedDateDues rule ws we).
Proof.
  intros Hfd Vw Ve Ho. unfold computeFixedDateDues.
  destruct (ReminderRule.fixedDate rule) as [fd|] eqn:E; [|constructor].
  destruct (Hfd fd E) as [Hm Hd].
  apply List.Forall_forall. intros d Hin.
  apply in_flat_map in Hin as (y & Hy & Hin).
  assert (Hy' : y = getFullYear ws ∨ y = getFullYear ws + 1)
    by (simpl in Hy; intuition).
  pose proof (notifyDates_in_window (fixedEventDate ws y fd) ws we
                (default [0] (ReminderRule.notifyDaysBefore rule)) Vw Ve) as Hw.
  rewrite List.Forall_forall in Hw. apply (Hw d Hin).
  unfold notifyDates in Hin. apply filter_In in Hin as [Hin _].
  apply in_map_iff in Hin as (o & <- & Hoin).
  rewrite List.Forall_forall in Ho. destruct (Ho o Hoin) as (V1 & V2 & _).
  pose proof (fixedEventDate_near ws y fd Hm Hd Hy') as Hnear.
  pose proof (aligned_MakeDate _ (fixedEventDate_aligned ws y fd)) as Ee.
  pose proof (MakeDate_Day ws) as Ews. unfold MakeDate in Ews.
  pose proof (TimeWithinDay_bound ws).
  rewrite addDays_shift in *. apply isValid_true in V1, V2. apply isValid_true.
  pose proof msPerDay_pos.
  assert ((Day ws - 365) * msPerDay ≤ Day (fixedEventDate ws y fd) * msPerDay)
    by (apply Z.mul_le_mono_nonneg_r; lia).
  assert (Day (fixedEventDate ws y fd) * msPerDay ≤ (Day ws + 731) * msPerDay)
    by (apply Z.mul_le_mono_nonneg_r; lia).
  unfold Date in *. lia.
Qed.

(** The dates an interval rule yields lie in the window. *)
Lemma computeFollowUpDues_in_window rule ws we ci l :
  interval_ok we rule ci →
  TimeWithinDay ws = 0 → isValid ws = true → isValid we = true →
  Forall (offset_ok ws we) (default [0] (ReminderRule.notifyDaysBefore rule)) →
  computeFollowUpDues rule ws we ci = Some l →
  Forall (fun d => ws ≤ d ≤ we) l.
Proof.
  intros Hn Hw Vw Ve Ho. unfold computeFollowUpDues.
  destruct (ReminderRule.intervalDays rule) as [n|] eqn:E;
    [|intros [= <-]; constructor].
  destruct (Hn n E) as (Hn0 & Va & Vn).
  destruct (Z.eqb_spec n 0); [intros [= <-]; constructor|].
  rewrite firstDueDate_eq by (assumption || lia). simpl.
  rewrite <- initialNextDue_eq by (assumption || apply anchorDate_aligned).
  pose proof (initialNextDue_after (anchorDate rule ci) ws n ltac:(lia) Va Vw
                (anchorDate_aligned rule ci) Hw) as [Hlt _].
  apply (emitDues_in_window n ws we); try assumption; [lia| |lia].
  eapply List.Forall_impl; [|exact Ho]. apply offset_ok_window.
Qed.

(** So do the dates of any rule, whenever the calculator returns. *)
Lemma computeDueDates_in_window rule ws we ci l :
  fixedDate_ok rule → interval_ok we rule ci →
  TimeWithinDay ws = 0 → isValid ws = true → isValid we = true →
  Forall (offset_ok ws we) (default [0] (ReminderRule.notifyDaysBefore rule)) →
  computeDueDates rule ws we ci = Some l →
  Forall (fun d => ws ≤ d ≤ we) l.
Proof.
  intros Hfd Hn Hw Vw Ve Ho.
  pose proof (computeFixedDateDues_in_window rule ws we Hfd Vw Ve Ho) as Hfix.
  pose proof (computeFollowUpDues_in_window rule ws we ci) as Hint.
  unfold computeDueDates.
  destruct (ReminderRule.type rule); try (intros [= <-]; exact Hfix); eauto.
  destruct (bool_decide _); [intros [= <-]; exact Hfix|].
  destruct (truthy _); eauto. intros [= <-]. constructor.
Qed.

(** The calculator returns when the interval is one it copes with. *)
Lemma computeDueDates_terminates rule ws we ci :
  interval_ok we rule ci →
  TimeWithinDay ws = 0 → isValid ws = true → ws ≤ we →
  is_Some (computeDueDates rule ws we ci).
Proof.
  intros Hn Hw Vw Hle. unfold computeDueDates.
  pose proof (computeFollowUpDues_terminates rule ws we ci Hn Hw Vw Hle).
  destruct (ReminderRule.type rule); eauto.
  destruct (bool_decide _); eauto. destruct (truthy _); eauto.
Qed.

(** C6, as far as the code goes.  Take a rule with a single notify offset,
    a stored month and day of month within the schema's bounds, and a stored
    interval that is not negative; a window that starts at midnight and does
    not end before it starts; and let every date involved be a valid date
    (the window bounds, the event dates of the two candidate years, the
    anchor, the date one interval past the window end, and the dates the
    offset is applied to).  Then the calculator returns a list that is
    ascending and free of duplicates, and whose dates all lie in the
    window. *)
Theorem C6_single_offset_ascending rule ws we ci o :
  default [0] (ReminderRule.notifyDaysBefore rule) = [o] →
  offset_ok ws we o →
  fixedDate_ok rule →
  interval_ok we rule ci →
  TimeWithinDay ws = 0 → window_ok ws → isValid we = true → ws ≤ we →
  ∃ l, computeDueDates rule ws we ci = Some l
       ∧ Sorted Z.le l ∧ List.NoDup l
       ∧ Forall (fun d => ws ≤ d ≤ we) l.
Proof.
  intros Ho Hok Hfd Hn Hw Hwin0 Ve Hle.
  pose proof (window_ok_valid ws Hwin0) as Vw.
  destruct (computeDueDates_terminates rule ws we ci Hn Hw Vw Hle) as [l Hl].
  exists l. split; [exact Hl|].
  assert (Hwin : Forall (fun d => ws ≤ d ≤ we) l).
  { apply (computeDueDates_in_window rule ws we ci l); try assumption.
    rewrite Ho. constructor; [exact Hok|constructor]. }
  assert (Hs : StronglySorted Z.lt l).
  { assert (Hfix : StronglySorted Z.lt (computeFixedDateDues rule ws we)).
    { apply (computeFixedDateDues_single_sorted rule ws we o Ho).
      intros fd E. apply (Hfd fd E). }
    assert (Hint : ∀ l', computeFollowUpDues rule ws we ci = Some l' →
                         StronglySorted Z.lt l').
    { intros l' Hl'. unfold computeFollowUpDues in Hl'.
      destruct (ReminderRule.intervalDays rule) as [n|] eqn:E;
        [|injection Hl' as <-; constructor].
      destruct (Hn n E) as (Hn0 & _).
      destruct (Z.eqb_spec n 0); [injection Hl' as <-; constructor|].
      rewrite Ho in Hl'.
      destruct (firstDueDate rule ws ci n) as [next|]; [|discriminate].
      simpl in Hl'. eapply emitDues_single_sorted; [|exact Hl']. lia. }
    unfold computeDueDates in Hl.
    destruct (ReminderRule.type rule); try (injection Hl as <-; exact Hfix);
      auto.
    destruct (bool_decide _); [injection Hl as <-; exact Hfix|].
    destruct (truthy _); auto. injection Hl as <-. constructor. }
  auto using StronglySorted_lt_le, StronglySorted_lt_NoDup.
Qed.

Lemma C6_single_offset_ascending_witness :
  ∃ l, computeDueDates rule_follow_up_30 (midnight 2023 3 1)
         (addDays (midnight 2023 3 1) 90) (contacted (midnight 2023 1 15 + 777))
       = Some l
       ∧ Sorted Z.le l ∧ List.NoDup l
       ∧ Forall (fun d => midnight 2023 3 1 ≤ d ≤ addDays (midnight 2023 3 1) 90) l.
Proof.
  apply (C6_single_offset_ascending rule_follow_up_30 (midnight 2023 3 1)
           (addDays (midnight 2023 3 1) 90)
           (contacted (midnight 2023 1 15 + 777)) 0).
  - reflexivity.
  - repeat split; reflexivity.
  - intros fd Hfd. simpl in Hfd. discriminate.
  - intros n Hn. simpl in Hn. injection Hn as <-.
    repeat split; (lia || reflexivity).
  - reflexivity.
  - split; reflexivity.
  - reflexivity.
  - vm_compute. discriminate.
Defined.

(** C6 as stated fails.  With the default offsets [0; 7] a birthday on
    January 11 yields, for the window from 2023-01-01, the day itself and
    then the day a week before it: not ascending.  A weekly follow-up with
    the same offsets yields each due date twice: once as day-of, once as the
    week-before date of the next. *)
Lemma C6_not_ascending_not_deduplicated :
  (computeDueDates rule_birthday_jan11 (midnight 2023 1 1)
     (addDays (midnight 2023 1 1) 30) contact_none
   = Some [midnight 2023 1 11; midnight 2023 1 4]
   ∧ ¬ Sorted Z.le [midnight 2023 1 11; midnight 2023 1 4])
  ∧ (computeDueDates rule_weekly (midnight 2023 3 1)
       (addDays (midnight 2023 3 1) 14) contact_none
     = Some [midnight 2023 3 4; midnight 2023 3 11; midnight 2023 3 4]
     ∧ ¬ List.NoDup [midnight 2023 3 4; midnight 2023 3 11; midnight 2023 3 4]).
Proof.
  split; split; try reflexivity.
  - intros H. inversion H as [|? ? _ Hd]; subst.
    inversion Hd as [|? ? Hle]; subst. vm_compute in Hle. apply Hle. reflexivity.
  - intros H. inversion H as [|? ? Hn _]; subst. apply Hn. right. now left.
Qed.
End IntervalClaims.

(** ** The Today Queue                                                    *)

Section Queue.
Import TodayQueue.

#[local] Instance scoreOrder_total : Total scoreOrder.
Proof. intros x y. unfold scoreOrder. lia. Qed.

#[local] Instance scoreOrder_trans : Transitive scoreOrder.
Proof. intros x y z. unfold scoreOrder. lia. Qed.

Lemma switch_type_scores t :
  switch (entries REMINDER_TYPES REMINDER_TYPE_SCORES) (REMINDER_TYPE_SCORES custom) t
  = REMINDER_TYPE_SCORES t.
Proof. destruct t; reflexivity. Qed.

Lemma switch_priority_multipliers p :
  switch (entries REMINDER_PRIORITIES PRIORITY_MULTIPLIERS) (PRIORITY_MULTIPLIERS medium) p
  = PRIORITY_MULTIPLIERS p.
Proof. destruct p; reflexivity. Qed.

Lemma addFields_formula todayStart d :
  scored_by_formula todayStart (addFields todayStart d).
Proof.
  unfold scored_by_formula, addFields. cbn [doc score daysOverdue].
  rewrite switch_type_scores, switch_priority_multipliers.
  split; [reflexivity|]. change (1000 * 60 * 60 * 24) with msPerDay. ring.
Qed.

(** What the scoring path returns: the first [cap] documents of the sorted,
    scored selection, and the size of the whole selection. *)
Lemma getQueue_eq db userId plan includeOverdue now :
  getQueue db userId plan includeOverdue now =
  let sorted :=
    sortStage (List.map (addFields (startOfDay now))
                 (List.filter (matchCriteria userId includeOverdue now)
                              (instances db))) in
  Some {| items := take (Z.to_nat (QUEUE_CAPS plan)) sorted;
          total := Z.of_nat (length sorted);
          capped := Z.of_nat (length sorted) >? QUEUE_CAPS plan;
          appliedCap := QUEUE_CAPS plan |}.
Proof. unfold getQueue, getTodayQueue. simpl. destruct plan; reflexivity. Qed.

Lemma length_sortStage l : length (sortStage l) = length l.
Proof. unfold sortStage. apply Permutation_length, merge_sort_Permutation. Qed.

(** C4.  For every owner, plan and moment, with [T] the number of the
    owner's instances that match the selection (pending, due, not snoozed
    into the future) and [N] the plan's cap, [getQueue] returns exactly
    [min T N] items, reports [total = T] and [capped = (T > N)]; so 15
    matches under a cap of 10 give 10 items, total 15, capped. *)
Theorem C4_queue_cap_exact db userId plan includeOverdue now :
  let T := Z.of_nat (length (List.filter (matchCriteria userId includeOverdue now)
                                         (instances db))) in
  let N := QUEUE_CAPS plan in
  ∃ r, getQueue db userId plan includeOverdue now = Some r
       ∧ Z.of_nat (length (items r)) = Z.min T N
       ∧ total r = T
       ∧ capped r = bool_decide (N < T)
       ∧ (T = 15 → N = 10 →
          length (items r) = 10%nat ∧ total r = 15 ∧ capped r = true).
Proof.
  intros T N. rewrite getQueue_eq. cbv zeta. eexists. split; [reflexivity|].
  simpl. rewrite length_take, length_sortStage, length_map. fold T N.
  assert (HN : 0 < N) by (subst N; destruct plan; reflexivity).
  assert (Hc : (T >? N) = bool_decide (N < T)).
  { destruct (Z.gtb_spec T N); symmetry;
      [apply bool_decide_eq_true|apply bool_decide_eq_false]; lia. }
  rewrite Hc. repeat split; try lia.
  apply bool_decide_eq_true. lia.
Qed.

(** The cap example, evaluated: fifteen matching instances, free plan. *)
Lemma queue_15_cap_10 :
  ∃ r, getQueue (db_of fifteen_due) "u1"%string free true (midnight 2023 3 15 + 1000) = Some r
       ∧ length (items r) = 10%nat ∧ total r = 15 ∧ capped r = true.
Proof. vm_compute. eexists. repeat split. Qed.

Lemma StronglySorted_lookup {A} (R : relation A) l i j x y :
  StronglySorted R l → l !! i = Some x → l !! j = Some y → (i < j)%nat → R x y.
Proof.
  intros Hs. revert i j. induction Hs as [|a l Hs IH Ha]; intros i j Hi Hj Hlt.
  - discriminate.
  - destruct j as [|j]; [lia|]. simpl in Hj. destruct i as [|i].
    + injection Hi as <-. rewrite List.Forall_forall in Ha. apply Ha.
      apply list_elem_of_In. eapply list_elem_of_lookup_2. exact Hj.
    + simpl in Hi. apply (IH i j); auto. lia.
Qed.

Lemma sortStage_sorted l : StronglySorted scoreOrder (sortStage l).
Proof. unfold sortStage. apply StronglySorted_merge_sort; apply _. Qed.

Lemma take_sorted {A} (R : relation A) n l :
  StronglySorted R l → StronglySorted R (take n l).
Proof.
  intros H. rewrite <- (take_drop n l) in H. now apply StronglySorted_app_1_l in H.
Qed.

(** C5.  The queue ranks exactly the selected instances: there is a ranked
    list whose documents are the selected instances (each once, none
    else), of which the queue shows the first [QUEUE_CAPS plan].  Every
    selected instance stands in the ranked list with the score
    [typeBaseScore * priorityMultiplier + 5 * daysOverdue], where
    [daysOverdue = max 0 (whole days from the due date to today)] and the
    tables are the fixed ones.  The ranked list is sorted by descending
    score, ties by ascending due date; hence of two ranked instances of the
    same type, overdue by the same number of days, the high-priority one has
    the higher score and stands before the low-priority one. *)
Theorem C5_score_and_order db userId plan includeOverdue now :
  (REMINDER_TYPE_SCORES birthday = 15 ∧ REMINDER_TYPE_SCORES anniversary = 12
   ∧ REMINDER_TYPE_SCORES follow_up = 10 ∧ REMINDER_TYPE_SCORES custom = 8)
  ∧ (PRIORITY_MULTIPLIERS high = 3 ∧ PRIORITY_MULTIPLIERS medium = 2
     ∧ PRIORITY_MULTIPLIERS low = 1)
  ∧ OVERDUE_PENALTY_PER_DAY = 5
  ∧ ∃ r ranked,
      getQueue db userId plan includeOverdue now = Some r
      ∧ items r = take (Z.to_nat (QUEUE_CAPS plan)) ranked
      ∧ Permutation (List.map doc ranked)
                    (selected db userId includeOverdue now)
      ∧ (∀ d, In d (selected db userId includeOverdue now) →
              ∃ x, In x ranked ∧ doc x = d
                   ∧ daysOverdue x
                     = Z.max 0 ((startOfDay now - ReminderInstance.dueDate d)
                                / msPerDay)
                   ∧ score x
                     = REMINDER_TYPE_SCORES (ReminderInstance.type d)
                       * PRIORITY_MULTIPLIERS (ReminderInstance.priority d)
                       + OVERDUE_PENALTY_PER_DAY * daysOverdue x)
      ∧ Forall (scored_by_formula (startOfDay now)) ranked
      ∧ StronglySorted scoreOrder ranked
      ∧ ∀ i j x y,
          ranked !! i = Some x → ranked !! j = Some y →
          ReminderInstance.type (doc x) = ReminderInstance.type (doc y) →
          daysOverdue x = daysOverdue y →
          ReminderInstance.priority (doc x) = high →
          ReminderInstance.priority (doc y) = low →
          score y < score x ∧ (i < j)%nat.
Proof.
  repeat (split; [repeat split; reflexivity|]).
  rewrite getQueue_eq. cbv zeta. fold (selected db userId includeOverdue now).
  set (matched := selected db userId includeOverdue now).
  set (ranked := sortStage (List.map (addFields (startOfDay now)) matched)).
  assert (Hperm : Permutation ranked (List.map (addFields (startOfDay now)) matched)).
  { subst ranked. unfold sortStage. apply merge_sort_Permutation. }
  assert (Hf : Forall (scored_by_formula (startOfDay now)) ranked).
  { apply List.Forall_forall. intros x Hx.
    apply (Permutation_in _ Hperm), in_map_iff in Hx as (d & <- & _).
    apply addFields_formula. }
  assert (Hs : StronglySorted scoreOrder ranked) by apply sortStage_sorted.
  eexists _, ranked. split; [reflexivity|]. simpl.
  split; [reflexivity|]. split; [|split; [|split; [exact Hf|split; [exact Hs|]]]].
  - rewrite (Permutation_map doc Hperm), List.map_map. simpl.
    now rewrite List.map_id.
  - intros d Hd. exists (addFields (startOfDay now) d).
    split; [|split; [reflexivity|apply addFields_formula]].
    apply (Permutation_in _ (Permutation_sym Hperm)), in_map. exact Hd.
  - intros i j x y Hi Hj Hty Hdo Hpx Hpy.
    rewrite List.Forall_forall in Hf.
    destruct (Hf x) as [_ Hsx];
      [apply list_elem_of_In; eapply list_elem_of_lookup_2; exact Hi|].
    destruct (Hf y) as [_ Hsy];
      [apply list_elem_of_In; eapply list_elem_of_lookup_2; exact Hj|].
    assert (Hlt : score y < score x).
    { rewrite Hsx, Hsy, Hty, Hdo, Hpx, Hpy.
      destruct (ReminderInstance.type (doc y)); simpl; lia. }
    split; [exact Hlt|].
    destruct (lt_eq_lt_dec i j) as [[Hij|Hij]|Hij]; [exact Hij| |].
    + subst j. rewrite Hi in Hj. injection Hj as ->. lia.
    + pose proof (StronglySorted_lookup _ _ _ _ _ _ Hs Hj Hi Hij) as Ho.
      unfold scoreOrder in Ho. lia.
Qed.
End Queue.

(** ** The instance state machine                                         *)

Section StateMachine.
Import Mongo Service.

(** Closes [x ∉ [a; b; ...]] over an enumeration. *)
Ltac not_in_list :=
  let H := fresh in
  intros H;
  repeat (apply elem_of_cons in H as [H|H]; [discriminate H|]);
  apply elem_of_nil in H; exact H.

Lemma updateFirst_None {A} (p : A → bool) f l :
  (∀ x, In x l → p x = false) → updateFirst p f l = None.
Proof.
  induction l as [|x l IH]; intros H; [reflexivity|]. simpl.
  rewrite (H x) by now left. rewrite IH; [reflexivity|].
  intros y Hy. apply H. now right.
Qed.

Lemma updateFirst_Some {A} (p : A → bool) f l1 x l2 :
  (∀ y, In y l1 → p y = false) → p x = true →
  updateFirst p f (l1 ++ x :: l2) = Some (x, l1 ++ f x :: l2).
Proof.
  intros H Hx. induction l1 as [|y l1 IH]; simpl.
  - now rewrite Hx.
  - rewrite (H y) by now left. rewrite IH; [reflexivity|].
    intros z Hz. apply H. now right.
Qed.

Lemma actionFilter_true instanceId userId statuses d :
  actionFilter instanceId userId statuses d = true ↔
  addressed instanceId userId d ∧ ReminderInstance.status d ∈ statuses.
Proof.
  unfold actionFilter, addressed.
  rewrite !andb_true_iff, !String.eqb_eq, bool_decide_eq_true. tauto.
Qed.

Lemma actionFilter_terminal instanceId userId statuses d :
  (addressed instanceId userId d → terminal d) →
  completed ∉ statuses → skipped ∉ statuses →
  actionFilter instanceId userId statuses d = false.
Proof.
  intros Ht Hc Hs. apply not_true_is_false. rewrite actionFilter_true.
  intros [Ha Hin]. destruct (Ht Ha) as [E|E]; rewrite E in Hin; auto.
Qed.

Lemma findOneAndUpdate_miss db p f audit :
  (∀ d, In d (instances db) → p d = false) →
  findOneAndUpdate db p f audit = (None, db).
Proof. intros H. unfold findOneAndUpdate. now rewrite updateFirst_None. Qed.

(** C7.  The transitions are updates guarded by the current status.
    Completing a snoozed instance succeeds: the stored document becomes
    completed, its [snoozedUntil] is removed (only status, [completedAt],
    [snoozedUntil] and [updatedAt] are written), and that document is the
    result.  When the addressed instance is completed or skipped, completing,
    skipping, snoozing and unsnoozing all return null and leave the database
    as it was: nothing leads out of completed or skipped. *)
Theorem C7_guarded_transitions db instanceId userId now :
  (∀ before d after,
     instances db = before ++ d :: after →
     (∀ x, In x before → ReminderInstance._id x ≠ instanceId) →
     addressed instanceId userId d →
     ReminderInstance.status d = snoozed →
     ∃ d' db',
       markDone db instanceId userId now = (Some d', db')
       ∧ instances db' = before ++ d' :: after
       ∧ ReminderInstance.status d' = completed
       ∧ ReminderInstance.snoozedUntil d' = None
       ∧ ReminderInstance.completedAt d' = Some now
       ∧ d' = writeAction completed (Some now) None
                          (ReminderInstance.skippedAt d) now d
       ∧ rules db' = rules db ∧ contacts db' = contacts db)
  ∧ ((∀ d, In d (instances db) → addressed instanceId userId d → terminal d) →
     markDone db instanceId userId now = (None, db)
     ∧ skip db instanceId userId now = (None, db)
     ∧ (∀ options, snooze db instanceId userId options now = (None, db))
     ∧ unsnooze db instanceId userId now = (None, db)).
Proof.
  split.
  - intros before d after Hl Hb Ha Hs.
    eexists _, _. unfold markDone, findOneAndUpdate. rewrite Hl.
    rewrite updateFirst_Some; cycle 1.
    { intros x Hx. apply not_true_is_false. rewrite actionFilter_true.
      intros [[Hid _] _]. exact (Hb x Hx Hid). }
    { apply actionFilter_true. split; [exact Ha|]. rewrite Hs.
      apply elem_of_cons. right. apply elem_of_cons. now left. }
    split; [reflexivity|]. simpl. repeat split.
  - intros Ht.
    assert (Hmiss : ∀ statuses, completed ∉ statuses → skipped ∉ statuses →
              ∀ d, In d (instances db) →
                   actionFilter instanceId userId statuses d = false).
    { intros statuses Hc Hs d Hd. apply actionFilter_terminal; auto. }
    repeat split; intros; apply findOneAndUpdate_miss, Hmiss; not_in_list.
Qed.

Lemma C7_guarded_transitions_witness :
  (∃ d' db',
     markDone (db_of [completed_instance; snoozed_instance]) "i1" "u1"
              (midnight 2023 3 12) = (Some d', db')
     ∧ instances db' = [completed_instance] ++ d' :: []
     ∧ ReminderInstance.status d' = completed
     ∧ ReminderInstance.snoozedUntil d' = None
     ∧ ReminderInstance.completedAt d' = Some (midnight 2023 3 12)
     ∧ d' = writeAction completed (Some (midnight 2023 3 12)) None
                        (ReminderInstance.skippedAt snoozed_instance)
                        (midnight 2023 3 12) snoozed_instance
     ∧ rules db' = rules (db_of [completed_instance; snoozed_instance])
     ∧ contacts db' = contacts (db_of [completed_instance; snoozed_instance]))
  ∧ markDone (db_of [completed_instance; snoozed_instance]) "i2" "u1"
             (midnight 2023 3 12)
    = (None, db_of [completed_instance; snoozed_instance]).
Proof.
  split.
  - apply (proj1 (C7_guarded_transitions
                    (db_of [completed_instance; snoozed_instance])
                    "i1" "u1" (midnight 2023 3 12))
             [completed_instance] snoozed_instance []).
    + reflexivity.
    + intros x [<-|[]]. discriminate.
    + split; reflexivity.
    + reflexivity.
  - apply (proj2 (C7_guarded_transitions
                    (db_of [completed_instance; snoozed_instance])
                    "i2" "u1" (midnight 2023 3 12))).
    intros d [<-|[<-|[]]] [Hid _]; [left; reflexivity|discriminate].
Defined.
End StateMachine.

(** ** Bulk upserts                                                       *)

Section BulkWrite.
Import Mongo.

Lemma updateFirst_inv {A} (p : A → bool) f l old l' :
  updateFirst p f l = Some (old, l') →
  ∃ l1 l2, l = l1 ++ old :: l2 ∧ l' = l1 ++ f old :: l2
           ∧ p old = true ∧ ∀ y, In y l1 → p y = false.
Proof.
  revert l'. induction l as [|x l IH]; intros l'; simpl; [discriminate|].
  destruct (p x) eqn:Hp.
  - intros [= <- <-]. exists [], l. simpl. repeat split; auto. intros y [].
  - destruct (updateFirst p f l) as [[y l'']|]; [|discriminate].
    intros [= <- <-]. destruct (IH _ eq_refl) as (l1 & l2 & -> & -> & Ho & Hn).
    exists (x :: l1), l2. repeat split; auto.
    intros z [<-|Hz]; auto.
Qed.

Lemma updateFirst_None_inv {A} (p : A → bool) f l :
  updateFirst p f l = None → ∀ x, In x l → p x = false.
Proof.
  induction l as [|x l IH]; simpl; [intros _ y []|].
  destruct (p x) eqn:Hp; [discriminate|].
  destruct (updateFirst p f l) as [[y l'']|]; [discriminate|].
  intros _ z [<-|Hz]; auto.
Qed.

Lemma ignoringUpdatedAt_setUpdatedAt u d :
  ignoringUpdatedAt (setUpdatedAt u d) = ignoringUpdatedAt d.
Proof. reflexivity. Qed.

Lemma instanceKey_ignoringUpdatedAt d :
  ReminderInstance.instanceKey (ignoringUpdatedAt d) = ReminderInstance.instanceKey d.
Proof. reflexivity. Qed.

Lemma keys_of_ignoring l l' :
  List.map ignoringUpdatedAt l' = List.map ignoringUpdatedAt l →
  List.map ReminderInstance.instanceKey l' = List.map ReminderInstance.instanceKey l.
Proof.
  intros H. apply (f_equal (List.map ReminderInstance.instanceKey)) in H.
  now rewrite !List.map_map in H.
Qed.

Lemma hasKey_true k d : hasKey k d = true ↔ ReminderInstance.instanceKey d = k.
Proof. unfold hasKey. apply String.eqb_eq. Qed.

(** An upsert whose key is in the collection only touches [updatedAt] of a
    document that is there; it inserts nothing. *)
Lemma applyUpsert_present st op :
  In (filter_instanceKey op) (List.map ReminderInstance.instanceKey (bulk_docs st)) →
  List.map ignoringUpdatedAt (bulk_docs (applyUpsert st op))
  = List.map ignoringUpdatedAt (bulk_docs st)
  ∧ upsertedCount (applyUpsert st op) = upsertedCount st
  ∧ bulk_nextId (applyUpsert st op) = bulk_nextId st.
Proof.
  intros Hin. unfold applyUpsert.
  destruct (updateFirst _ _ (bulk_docs st)) as [[old docs']|] eqn:E.
  - apply updateFirst_inv in E as (l1 & l2 & -> & -> & _ & _). simpl.
    rewrite !List.map_app. simpl. auto.
  - exfalso. apply in_map_iff in Hin as (d & Hk & Hd).
    pose proof (updateFirst_None_inv _ _ _ E d Hd) as Hf.
    apply hasKey_true in Hk. congruence.
Qed.

(** An upsert whose key is not in the collection appends one document,
    pending and without any action recorded. *)
Lemma applyUpsert_absent st op :
  ¬ In (filter_instanceKey op) (List.map ReminderInstance.instanceKey (bulk_docs st)) →
  bulk_docs (applyUpsert st op)
  = bulk_docs st ++ [insertedDoc (newObjectId (bulk_nextId st)) op]
  ∧ upsertedCount (applyUpsert st op) = upsertedCount st + 1.
Proof.
  intros Hin. unfold applyUpsert.
  destruct (updateFirst _ _ (bulk_docs st)) as [[old docs']|] eqn:E; [|auto].
  exfalso. apply Hin.
  apply updateFirst_inv in E as (l1 & l2 & -> & _ & Hk & _).
  apply hasKey_true in Hk. apply in_map_iff. exists old. split; [exact Hk|].
  apply in_or_app. right. now left.
Qed.

Lemma in_keys_dec k (l : list ReminderInstance.t) :
  {In k (List.map ReminderInstance.instanceKey l)}
  + {¬ In k (List.map ReminderInstance.instanceKey l)}.
Proof. apply in_dec, string_dec. Qed.

(** A bulk write changes no field but [updatedAt] of the documents that are
    there, keeps them in place, and appends freshly pending documents, as
    many as it counts as upserted. *)
Lemma fold_applyUpsert_nondestructive ops :
  Forall keyed ops → ∀ st,
  ∃ added,
    List.map ignoringUpdatedAt (bulk_docs (fold_left applyUpsert ops st))
    = List.map ignoringUpdatedAt (bulk_docs st ++ added)
    ∧ upsertedCount (fold_left applyUpsert ops st)
      = upsertedCount st + Z.of_nat (length added)
    ∧ Forall freshlyPending added.
Proof.
  induction ops as [|op ops IH]; intros Hk st; simpl.
  - exists []. rewrite app_nil_r. repeat split; [simpl; lia|constructor].
  - apply Forall_cons_1 in Hk as [[_ Hp] Hk].
    destruct (IH Hk (applyUpsert st op)) as (added & Hd & Hc & Hf).
    destruct (in_keys_dec (filter_instanceKey op) (bulk_docs st)) as [Hin|Hin].
    + destruct (applyUpsert_present st op Hin) as (Hd' & Hc' & _).
      exists added. rewrite Hd, Hc, Hc', !List.map_app, Hd'. auto.
    + destruct (applyUpsert_absent st op Hin) as (Hd' & Hc').
      exists (insertedDoc (newObjectId (bulk_nextId st)) op :: added).
      rewrite Hd, Hc, Hc', Hd', <- app_assoc. simpl.
      repeat split; [simpl length; lia|]. constructor; [|exact Hf].
      unfold freshlyPending. simpl. auto.
Qed.

(** When every key is already there, nothing is inserted. *)
Lemma fold_applyUpsert_all_present ops :
  ∀ st,
  (∀ op, In op ops →
         In (filter_instanceKey op)
            (List.map ReminderInstance.instanceKey (bulk_docs st))) →
  List.map ignoringUpdatedAt (bulk_docs (fold_left applyUpsert ops st))
  = List.map ignoringUpdatedAt (bulk_docs st)
  ∧ upsertedCount (fold_left applyUpsert ops st) = upsertedCount st.
Proof.
  induction ops as [|op ops IH]; intros st Hin; simpl; [auto|].
  destruct (applyUpsert_present st op (Hin op (or_introl eq_refl))) as (Hd & Hc & _).
  destruct (IH (applyUpsert st op)) as (Hd' & Hc').
  - intros op' Hop'. rewrite (keys_of_ignoring _ _ Hd). apply Hin. now right.
  - rewrite Hd', Hc', Hd, Hc. auto.
Qed.

(** After a bulk write every key it upserted is in the collection, and so
    is every key that was. *)
Lemma fold_applyUpsert_keys ops :
  Forall keyed ops → ∀ st k,
  In k (List.map ReminderInstance.instanceKey (bulk_docs st))
  ∨ In k (List.map filter_instanceKey ops) →
  In k (List.map ReminderInstance.instanceKey
          (bulk_docs (fold_left applyUpsert ops st))).
Proof.
  induction ops as [|op ops IH]; intros Hk st k; simpl.
  - intros [H|[]]. exact H.
  - apply Forall_cons_1 in Hk as [[Hkey _] Hk]. intros H.
    apply (IH Hk).
    destruct (in_keys_dec (filter_instanceKey op) (bulk_docs st)) as [Hin|Hin].
    + destruct (applyUpsert_present st op Hin) as (Hd & _).
      rewrite (keys_of_ignoring _ _ Hd).
      destruct H as [H|[<-|H]]; auto.
    + destruct (applyUpsert_absent st op Hin) as (Hd & _).
      rewrite Hd, List.map_app, in_app_iff. simpl. rewrite Hkey.
      destruct H as [H|[<-|H]]; auto.
Qed.
End BulkWrite.

(** ** Materialization                                                    *)

Section Materialize.
Import Mongo Materializer MaterializerService.

Lemma generateInstanceKey_valid ruleId d :
  isValid d = true →
  generateInstanceKey ruleId d = Normal (instanceKeyOf ruleId d).
Proof.
  intros H. unfold generateInstanceKey, Format.format. now rewrite H.
Qed.

Lemma generateInstanceKey_invalid ruleId d :
  isValid d = false →
  generateInstanceKey ruleId d = Throw "Invalid time value".
Proof.
  intros H. unfold generateInstanceKey, Format.format. now rewrite H.
Qed.

(** The loop over the due dates pushes one operation per due date up to the
    first Invalid Date, on which it throws. *)
Lemma stageDueDates_eq rule userId name now ds :
  stageDueDates rule userId name now ds
  = (List.map (stageUpsert rule userId name now) (validPrefix ds),
     if forallb isValid ds then None else Some "Invalid time value"%string).
Proof.
  induction ds as [|d ds IH]; simpl; [reflexivity|].
  destruct (isValid d) eqn:V.
  - rewrite (generateInstanceKey_valid _ _ V), IH. reflexivity.
  - rewrite (generateInstanceKey_invalid _ _ V). reflexivity.
Qed.

Lemma validPrefix_all ds : forallb isValid ds = true → validPrefix ds = ds.
Proof.
  induction ds as [|d ds IH]; simpl; [reflexivity|].
  intros H. apply andb_true_iff in H as [-> H]. now rewrite IH.
Qed.

Lemma validPrefix_In d ds :
  In d (validPrefix ds) → In d ds ∧ isValid d = true.
Proof.
  induction ds as [|d0 ds IH]; simpl; [intros []|].
  destruct (isValid d0) eqn:V; [|intros []].
  intros [<-|H]; [auto|]. destruct (IH H). auto.
Qed.

Lemma stageUpsert_keyed rule userId name now d :
  keyed (stageUpsert rule userId name now d).
Proof. split; reflexivity. Qed.

Lemma stageUpsert_key rule userId name now d :
  filter_instanceKey (stageUpsert rule userId name now d)
  = instanceKeyOf (ReminderRule._id rule) d.
Proof. reflexivity. Qed.

Lemma stageUpserts_keyed rule userId name now ds :
  Forall keyed (List.map (stageUpsert rule userId name now) ds).
Proof.
  apply List.Forall_forall. intros op Hop.
  apply in_map_iff in Hop as (d & <- & _). apply stageUpsert_keyed.
Qed.

(** What [executeBulk] leaves behind. *)
Lemma executeBulk_spec db ops userId processed errs :
  Forall keyed ops →
  let '(r, db') := executeBulk db ops userId processed errs in
  rules db' = rules db ∧ contacts db' = contacts db
  ∧ auditLog db' = auditLog db
  ∧ res_userId r = userId ∧ rulesProcessed r = processed ∧ errors r = errs
  ∧ (∃ added,
        List.map ignoringUpdatedAt (instances db')
        = List.map ignoringUpdatedAt (instances db ++ added)
        ∧ instancesCreated r = Z.of_nat (length added)
        ∧ Forall freshlyPending added)
  ∧ (∀ k, In k (List.map ReminderInstance.instanceKey (instances db))
          ∨ In k (List.map filter_instanceKey ops) →
          In k (List.map ReminderInstance.instanceKey (instances db'))).
Proof.
  intros Hk. unfold executeBulk. destruct ops as [|op ops].
  - simpl. repeat split.
    + exists []. rewrite app_nil_r. repeat split. constructor.
    + intros k [H|[]]. exact H.
  - set (ops' := op :: ops) in *. simpl. repeat split.
    + destruct (fold_applyUpsert_nondestructive ops' Hk
                  {| bulk_docs := instances db; bulk_nextId := nextObjectId db;
                     upsertedCount := 0; modifiedCount := 0 |})
        as (added & Hd & Hc & Hf).
      exists added. unfold bulkWrite. rewrite Hd, Hc. auto.
    + intros k H. unfold bulkWrite. now apply fold_applyUpsert_keys.
Qed.

(** When every staged key is in the collection already. *)
Lemma executeBulk_all_present db ops userId processed errs :
  (∀ op, In op ops →
         In (filter_instanceKey op)
            (List.map ReminderInstance.instanceKey (instances db))) →
  let '(r, db') := executeBulk db ops userId processed errs in
  instancesCreated r = 0
  ∧ List.map ignoringUpdatedAt (instances db')
    = List.map ignoringUpdatedAt (instances db).
Proof.
  intros Hin. unfold executeBulk. destruct ops as [|op ops]; [simpl; auto|].
  set (ops' := op :: ops) in *. simpl. unfold bulkWrite.
  destruct (fold_applyUpsert_all_present ops'
              {| bulk_docs := instances db; bulk_nextId := nextObjectId db;
                 upsertedCount := 0; modifiedCount := 0 |} Hin) as (Hd & Hc).
  auto.
Qed.

(** The three ways [materializeRule] returns.  In the third, every due
    date is a valid date: on an Invalid Date the call throws. *)
Lemma materializeRule_cases db ruleId plan now r db' :
  materializeRule db ruleId plan now = Some (r, db') →
  (db' = db ∧ instancesCreated r = 0
   ∧ (findRuleById db ruleId = None
      ∨ ∃ rule, findRuleById db ruleId = Some rule
                ∧ findContactById db (ReminderRule.contactId rule) = None))
  ∨ ∃ rule contact dueDates,
      findRuleById db ruleId = Some rule
      ∧ findContactById db (ReminderRule.contactId rule) = Some contact
      ∧ computeDueDates rule (startOfDay now)
          (addDays (startOfDay now) (MATERIALIZATION_WINDOW plan))
          {| lci_contactId := Contact._id contact;
             lci_lastContactedAt := Contact.lastContactedAt contact |}
        = Some dueDates
      ∧ forallb isValid dueDates = true
      ∧ executeBulk db
          (List.map (stageUpsert rule (ReminderRule.userId rule) None now) dueDates)
          (ReminderRule.userId rule) 1 []
        = (r, db').
Proof.
  unfold materializeRule.
  destruct (findRuleById db ruleId) as [rule|] eqn:Er.
  - destruct (findContactById db (ReminderRule.contactId rule)) as [contact|] eqn:Ec;
      simpl.
    + destruct (computeDueDates _ _ _ _) as [dueDates|] eqn:Ed; [|discriminate].
      simpl. rewrite stageDueDates_eq.
      destruct (forallb isValid dueDates) eqn:Ev; [|discriminate].
      rewrite (validPrefix_all _ Ev).
      intros [= E]. right. exists rule, contact, dueDates. auto.
    + intros [= <- <-]. left. repeat split; eauto.
  - intros [= <- <-]. left. auto.
Qed.

(** Whatever [materializeRule] returns, it has left the instances as a bulk
    write leaves them. *)
Lemma materializeRule_nondestructive db ruleId plan now r db' :
  materializeRule db ruleId plan now = Some (r, db') →
  ∃ added,
    List.map ignoringUpdatedAt (instances db')
    = List.map ignoringUpdatedAt (instances db ++ added)
    ∧ instancesCreated r = Z.of_nat (length added)
    ∧ Forall freshlyPending added.
Proof.
  intros H.
  destruct (materializeRule_cases _ _ _ _ _ _ H)
    as [(-> & Hc & _) | (rule & contact & dueDates & _ & _ & _ & _ & Ex)].
  - exists []. rewrite app_nil_r. repeat split; [simpl; lia|constructor].
  - pose proof (executeBulk_spec db
                  (List.map (stageUpsert rule (ReminderRule.userId rule) None now) dueDates)
                  (ReminderRule.userId rule) 1 []) as Hspec.
    rewrite Ex in Hspec.
    destruct Hspec as (_ & _ & _ & _ & _ & _ & Hadd & _); [|exact Hadd].
    apply stageUpserts_keyed.
Qed.

(** C3.  Materializing a rule changes nothing of the instances that exist
    but their [updatedAt] timestamp (status, due date and the denormalized
    fields stay, position included), and only appends instances that are
    pending with no action recorded, as many as [instancesCreated] says.
    Materializing the same rule again over the same window (same database
    otherwise, same calendar day) returns as well, creates no instance, and
    again changes nothing but [updatedAt]. *)
Theorem C3_materialize_idempotent db ruleId plan now1 now2 r1 db1 :
  materializeRule db ruleId plan now1 = Some (r1, db1) →
  startOfDay now2 = startOfDay now1 →
  (∃ added,
      List.map ignoringUpdatedAt (instances db1)
      = List.map ignoringUpdatedAt (instances db ++ added)
      ∧ instancesCreated r1 = Z.of_nat (length added)
      ∧ Forall freshlyPending added)
  ∧ ∃ r2 db2,
      materializeRule db1 ruleId plan now2 = Some (r2, db2)
      ∧ instancesCreated r2 = 0
      ∧ List.map ignoringUpdatedAt (instances db2)
        = List.map ignoringUpdatedAt (instances db1).
Proof.
  intros H1 Hday.
  split; [exact (materializeRule_nondestructive _ _ _ _ _ _ H1)|].
  destruct (materializeRule_cases _ _ _ _ _ _ H1)
    as [(-> & Hc & Hwhy) | (rule & contact & dueDates & Er & Ec & Ed & Ev & Ex)].
  - unfold materializeRule in *.
    destruct Hwhy as [Er | (rule & Er & Ec)]; rewrite Er in *;
      [|rewrite Ec in *; simpl in *]; eexists _, _; repeat split.
  - pose proof (executeBulk_spec db
                  (List.map (stageUpsert rule (ReminderRule.userId rule) None now1) dueDates)
                  (ReminderRule.userId rule) 1 []) as Hspec.
    rewrite Ex in Hspec.
    destruct Hspec as (Hr & Hcs & _ & _ & _ & _ & _ & Hkeys).
    { apply stageUpserts_keyed. }
    pose proof (executeBulk_all_present db1
                  (List.map (stageUpsert rule (ReminderRule.userId rule) None now2) dueDates)
                  (ReminderRule.userId rule) 1 []) as Hsecond.
    destruct (executeBulk db1 _ _ _ _) as [r2 db2] eqn:Ex2.
    exists r2, db2. split.
    + unfold materializeRule, findRuleById, findContactById in *.
      rewrite Hr, Er, Hcs, Ec. simpl. rewrite Hday, Ed. simpl.
      rewrite stageDueDates_eq, Ev, (validPrefix_all _ Ev). now rewrite Ex2.
    + apply Hsecond. intros op Hop. apply in_map_iff in Hop as (d & <- & Hd).
      apply Hkeys. right. apply in_map_iff.
      exists (stageUpsert rule (ReminderRule.userId rule) None now1 d).
      split; [reflexivity|]. apply in_map_iff. eauto.
Qed.
End Materialize.

Section MaterializeUser.
Import Mongo Materializer MaterializerService.

(** The lookups of a map filled by successive [set]s. *)
Lemma fold_insert_lookup (found : list Contact.lean) :
  ∀ (m : gmap string Contact.lean) k,
  match fold_left (fun m c => <[Contact.lean_id c := c]> m) found m !! k with
  | Some c => (In c found ∧ Contact.lean_id c = k) ∨ m !! k = Some c
  | None => m !! k = None ∧ ∀ c, In c found → Contact.lean_id c ≠ k
  end.
Proof.
  induction found as [|c0 found IH]; intros m k; simpl.
  - destruct (m !! k); auto.
  - specialize (IH (<[Contact.lean_id c0 := c0]> m) k).
    destruct (fold_left _ found _ !! k) as [c|].
    + destruct IH as [[Hin Hk]|Hl]; [left; auto|].
      destruct (decide (Contact.lean_id c0 = k)) as [E|E].
      * rewrite <- E, lookup_insert_eq in Hl. injection Hl as <-. left. auto.
      * rewrite lookup_insert_ne in Hl by exact E. right. exact Hl.
    + destruct IH as [Hl Hn].
      destruct (decide (Contact.lean_id c0 = k)) as [E|E].
      * rewrite <- E, lookup_insert_eq in Hl. discriminate.
      * rewrite lookup_insert_ne in Hl by exact E. split; [exact Hl|].
        intros c [<-|Hc]; auto.
Qed.

(** The contact map finds exactly the user's contacts among the targets. *)
Lemma buildContactMap_lookup db userId rs rule :
  In rule rs →
  match buildContactMap db userId rs !! ReminderRule.contactId rule with
  | Some c =>
      hasContact db userId (ReminderRule.contactId rule) = true
      ∧ ∃ contact, In contact (contacts db)
                   ∧ Contact._id contact = ReminderRule.contactId rule
                   ∧ Contact.userId contact = userId
                   ∧ c = selectNameLastContacted contact
  | None => hasContact db userId (ReminderRule.contactId rule) = false
  end.
Proof.
  intros Hrule. unfold buildContactMap.
  set (ids := list_to_set (List.map ReminderRule.contactId rs) : gset string).
  assert (Hid : ReminderRule.contactId rule ∈ ids).
  { subst ids. apply elem_of_list_to_set, list_elem_of_In, in_map. exact Hrule. }
  pose proof (fold_insert_lookup
    (List.map selectNameLastContacted
       (List.filter (fun c => bool_decide (Contact._id c ∈ ids)
                              && String.eqb (Contact.userId c) userId)
                    (contacts db))) ∅ (ReminderRule.contactId rule)) as H.
  destruct (fold_left _ _ _ !! _) as [c|].
  - destruct H as [[Hin Hk]|Hl]; [|rewrite lookup_empty in Hl; discriminate].
    apply in_map_iff in Hin as (contact & <- & Hc).
    apply filter_In in Hc as [Hc Hf]. apply andb_true_iff in Hf as [_ Hu].
    apply String.eqb_eq in Hu. simpl in Hk.
    split; [|exists contact; auto].
    unfold hasContact. apply existsb_exists. exists contact. split; [exact Hc|].
    apply andb_true_iff. rewrite !String.eqb_eq. auto.
  - destruct H as [_ Hn]. unfold hasContact. apply not_true_is_false.
    intros He. apply existsb_exists in He as (contact & Hc & He).
    apply andb_true_iff in He as [E1 E2]. apply String.eqb_eq in E1.
    apply (Hn (selectNameLastContacted contact)); [|exact E1].
    apply in_map, filter_In. split; [exact Hc|].
    apply andb_true_iff. split; [|exact E2].
    apply bool_decide_eq_true. rewrite E1. exact Hid.
Qed.

(** One pass of the loop over the rules: the rule is counted, leaves its
    entries in [errors], if any, and stages its upserts. *)
Lemma stageRule_spec cm userId ws we now acc rule :
  (∀ contact, cm !! ReminderRule.contactId rule = Some contact →
              is_Some (computeDueDates rule ws we (contactInfoOf contact))) →
  ∃ acc',
    stageRule cm userId ws we now acc rule = Some acc'
    ∧ st_processed acc' = st_processed acc + 1
    ∧ st_errors acc' = st_errors acc ++ errorsFor cm ws we rule
    ∧ st_bulkOps acc' = st_bulkOps acc ++ stagedFor cm userId ws we now rule.
Proof.
  intros Hok. unfold stageRule, stagedFor, errorsFor.
  destruct (cm !! ReminderRule.contactId rule) as [contact|] eqn:Ec.
  - destruct (Hok contact eq_refl) as [dueDates Hd].
    unfold contactInfoOf in *. rewrite Hd. simpl. rewrite stageDueDates_eq.
    eexists. split; [reflexivity|]. simpl. repeat split.
    destruct (forallb isValid dueDates); reflexivity.
  - eexists. split; [reflexivity|]. simpl. rewrite app_nil_r. repeat split.
Qed.

(** The loop over the rules goes through all of them. *)
Lemma stageRules_spec cm userId ws we now rs :
  (∀ rule contact, In rule rs → cm !! ReminderRule.contactId rule = Some contact →
                   is_Some (computeDueDates rule ws we (contactInfoOf contact))) →
  ∀ acc, ∃ acc',
    stageRules cm userId ws we now acc rs = Some acc'
    ∧ st_processed acc' = st_processed acc + Z.of_nat (length rs)
    ∧ st_errors acc' = st_errors acc ++ flat_map (errorsFor cm ws we) rs
    ∧ st_bulkOps acc'
      = st_bulkOps acc ++ flat_map (stagedFor cm userId ws we now) rs.
Proof.
  induction rs as [|rule rs IH]; intros Hok acc.
  - exists acc. simpl. rewrite !app_nil_r. repeat split. lia.
  - destruct (stageRule_spec cm userId ws we now acc rule
                (fun c => Hok rule c (or_introl eq_refl)))
      as (acc1 & E1 & Hp1 & He1 & Ho1).
    destruct (IH (fun r c Hr => Hok r c (or_intror Hr)) acc1)
      as (acc' & Hs & Hp & He & Ho).
    exists acc'. cbn [stageRules]. rewrite E1. split; [exact Hs|].
    cbn [flat_map length].
    rewrite Hp, He, Ho, Hp1, He1, Ho1, <- !app_assoc.
    repeat split. lia.
Qed.

(** The early return on an empty rule list is what the loop and the bulk
    step give on it as well. *)
Lemma materializeUser_eq db userId plan now :
  materializeUser db userId plan now
  = (let rs := activeRules db userId in
     let windowStart := startOfDay now in
     let windowEnd := addDays windowStart (MATERIALIZATION_WINDOW plan) in
     staged ← stageRules (buildContactMap db userId rs) userId
                windowStart windowEnd now
                {| st_processed := 0; st_errors := []; st_bulkOps := [] |} rs;
     Some (executeBulk db (st_bulkOps staged) userId
                       (st_processed staged) (st_errors staged))).
Proof.
  unfold materializeUser. destruct (activeRules db userId); reflexivity.
Qed.

Lemma window_le ws plan : ws ≤ addDays ws (MATERIALIZATION_WINDOW plan).
Proof.
  rewrite addDays_shift. pose proof msPerDay_pos.
  destruct plan; simpl; unfold Date in *; lia.
Qed.

(** C9, as far as the code goes.  A rule whose contact is missing does not
    abort the batch.  Let the window start lie well inside the range of a
    date, and every active rule of the user have a month and day of month
    within the schema's bounds and an interval the interval algorithm copes
    with (interval not negative, anchor and the date one interval past the
    window end valid dates).  Then
    [materializeUser] returns its structured result; every active rule of
    the user is counted in [rulesProcessed]; [errors] holds, in rule order,
    what each rule leaves there: one "Contact not found" entry for a rule
    whose contact the user does not have, one "Invalid time value" entry
    for a rule one of whose due dates is an Invalid Date, nothing for any
    other rule; and every rule with a contact is processed: the calculator
    returns its due dates and each of them, up to the first that is
    invalid, has its instance in the database afterwards. *)
Theorem C9_dangling_contact_does_not_abort db userId plan now :
  let windowStart := startOfDay now in
  let windowEnd := addDays windowStart (MATERIALIZATION_WINDOW plan) in
  window_ok windowStart →
  rules_ok db userId windowEnd →
  ∃ r db',
    materializeUser db userId plan now = Some (r, db')
    ∧ res_userId r = userId
    ∧ rulesProcessed r = Z.of_nat (length (activeRules db userId))
    ∧ errors r
      = flat_map (ruleErrors db userId windowStart windowEnd)
                 (activeRules db userId)
    ∧ ∀ rule,
        In rule (activeRules db userId) →
        (hasContact db userId (ReminderRule.contactId rule) = false →
         ruleErrors db userId windowStart windowEnd rule = [contactNotFound rule]
         ∧ In (contactNotFound rule) (errors r))
        ∧ (hasContact db userId (ReminderRule.contactId rule) = true →
           ∃ contact dueDates,
             In contact (contacts db)
             ∧ Contact._id contact = ReminderRule.contactId rule
             ∧ Contact.userId contact = userId
             ∧ computeDueDates rule windowStart windowEnd
                 {| lci_contactId := Contact._id contact;
                    lci_lastContactedAt := Contact.lastContactedAt contact |}
               = Some dueDates
             ∧ ruleErrors db userId windowStart windowEnd rule
               = (if forallb isValid dueDates then []
                  else [invalidTimeValue rule])
             ∧ ∀ d, In d (validPrefix dueDates) →
                    In (instanceKeyOf (ReminderRule._id rule) d)
                       (List.map ReminderInstance.instanceKey (instances db'))).
Proof.
  intros windowStart windowEnd Hwin Hok. rewrite materializeUser_eq.
  unfold ruleErrors. cbv zeta. fold windowStart. fold windowEnd.
  set (rs := activeRules db userId) in *.
  set (cm := buildContactMap db userId rs).
  assert (Hret : ∀ rule contact,
            In rule rs → cm !! ReminderRule.contactId rule = Some contact →
            is_Some (computeDueDates rule windowStart windowEnd
                       (contactInfoOf contact))).
  { intros rule c Hrule Ec.
    pose proof (buildContactMap_lookup db userId rs rule Hrule) as Hl.
    fold cm in Hl. rewrite Ec in Hl.
    destruct Hl as (_ & contact & Hin & Hid & Hus & ->).
    apply computeDueDates_terminates.
    - exact (proj2 (Hok rule Hrule) contact Hin Hid Hus).
    - apply startOfDay_aligned.
    - apply window_ok_valid, Hwin.
    - apply window_le. }
  - destruct (stageRules_spec cm userId windowStart windowEnd now rs Hret
                {| st_processed := 0; st_errors := []; st_bulkOps := [] |})
      as (staged & Hs & Hp & He & Ho).
    rewrite Hs. simpl in *.
    pose proof (executeBulk_spec db (st_bulkOps staged) userId
                  (st_processed staged) (st_errors staged)) as Hspec.
    destruct (executeBulk db _ _ _ _) as [r db'].
    destruct Hspec as (_ & _ & _ & Hu & Hrp & Hre & _ & Hkeys).
    { rewrite Ho. apply List.Forall_forall. intros op Hop.
      apply in_flat_map in Hop as (rule & _ & Hop). unfold stagedFor in Hop.
      destruct (cm !! _) as [c|]; [|destruct Hop].
      destruct (computeDueDates _ _ _ _); [|destruct Hop].
      apply in_map_iff in Hop as (d & <- & _). apply stageUpsert_keyed. }
    exists r, db'. split; [reflexivity|]. split; [exact Hu|].
    split; [rewrite Hrp, Hp; lia|]. split; [rewrite Hre, He; reflexivity|].
    intros rule Hrule.
    pose proof (buildContactMap_lookup db userId rs rule Hrule) as Hl.
    fold cm in Hl. split.
    + intros Hhas.
      assert (Ee : errorsFor cm windowStart windowEnd rule = [contactNotFound rule]).
      { unfold errorsFor.
        destruct (cm !! ReminderRule.contactId rule) as [c|]; [|reflexivity].
        destruct Hl as [Hl _]. congruence. }
      split; [exact Ee|]. rewrite Hre, He. apply in_flat_map.
      exists rule. split; [exact Hrule|]. rewrite Ee. now left.
    + intros Hhas.
      destruct (cm !! ReminderRule.contactId rule) as [c|] eqn:Ec; [|congruence].
      destruct (Hret rule c Hrule Ec) as [dueDates Hd].
      destruct Hl as (_ & contact & Hin & Hid & Hus & ->).
      exists contact, dueDates. split; [exact Hin|]. split; [exact Hid|].
      split; [exact Hus|]. split; [exact Hd|]. split.
      * unfold errorsFor. rewrite Ec, Hd. reflexivity.
      * intros d Hdin. apply Hkeys. right. rewrite Ho.
        apply in_map_iff.
        exists (stageUpsert rule userId (Some (Contact.name contact)) now d).
        split; [reflexivity|]. apply in_flat_map. exists rule.
        split; [exact Hrule|].
        unfold stagedFor. rewrite Ec, Hd. apply in_map. exact Hdin.
Qed.

Lemma C9_dangling_contact_does_not_abort_witness :
  ∃ r db',
    materializeUser db_three_rules "u1" pro (midnight 2023 2 1 + 5000)
    = Some (r, db')
    ∧ rulesProcessed r = 3
    ∧ errors r = [contactNotFound rule_dangling].
Proof.
  destruct (C9_dangling_contact_does_not_abort db_three_rules "u1" pro
              (midnight 2023 2 1 + 5000))
    as (r & db' & Hrun & _ & Hprocessed & Herrors & _).
  - split; reflexivity.
  - intros rule Hrule. vm_compute in Hrule. split.
    + intros fd Hfd.
      destruct Hrule as [<-|[<-|[<-|[]]]]; vm_compute in Hfd;
        try discriminate; injection Hfd as <-; simpl; lia.
    + intros contact Hcontact _ _ n Hn.
      vm_compute in Hcontact. destruct Hcontact as [<-|[]].
      destruct Hrule as [<-|[<-|[<-|[]]]]; vm_compute in Hn; try discriminate.
      injection Hn as <-. repeat split; (lia || reflexivity).
  - exists r, db'. split; [exact Hrun|]. split; [exact Hprocessed|].
    rewrite Herrors. reflexivity.
Defined.

(** C9 as stated fails.  A follow-up rule whose interval is 100 000 000
    days (the schema asks for [min: 1] and no more) has an Invalid Date as
    its first due date, on which the generation loop never ends.  A batch
    that holds such a rule beside a rule with a dangling contact does not
    return a result; [materializeRule] on that rule does not either. *)
Lemma C9_interval_out_of_range_no_result :
  let ws := startOfDay (midnight 2023 2 1 + 5000) in
  let we := addDays ws (MATERIALIZATION_WINDOW pro) in
  In rule_dangling (activeRules db_interval_1e8 "u1")
  ∧ hasContact db_interval_1e8 "u1" (ReminderRule.contactId rule_dangling) = false
  ∧ isValid (initialNextDue (anchorDate rule_interval_1e8 (contacted (midnight 2023 1 15 + 777)))
                            ws 100000000) = false
  ∧ computeDueDates rule_interval_1e8 ws we (contacted (midnight 2023 1 15 + 777))
    = None
  ∧ materializeUser db_interval_1e8 "u1" pro (midnight 2023 2 1 + 5000) = None
  ∧ materializeRule db_interval_1e8 "r5" pro (midnight 2023 2 1 + 5000) = None.
Proof. vm_compute. repeat split. left. reflexivity. Qed.

(** The batch of the example, evaluated: three rules processed, one error
    for the dangling rule, and the instances of the two others created. *)
Lemma materializeUser_three_rules :
  ∃ r db',
    materializeUser db_three_rules "u1" pro (midnight 2023 2 1 + 5000) = Some (r, db')
    ∧ rulesProcessed r = 3
    ∧ errors r = [contactNotFound rule_dangling]
    ∧ instancesCreated r = 4
    ∧ List.map ReminderInstance.instanceKey (instances db')
      = [ "i2:2023-03-10"; "r2:2023-02-14"; "r2:2023-03-16"; "r2:2023-04-15";
          "r1:2023-03-01" ]%string.
Proof. vm_compute. eexists _, _. repeat split. Qed.
End MaterializeUser.

Section MaterializeWitness.
Import Mongo Materializer MaterializerService.

Lemma C3_materialize_idempotent_witness :
  ∃ r1 db1,
    materializeRule db_three_rules "r2" pro (midnight 2023 2 1 + 5000)
    = Some (r1, db1)
    ∧ (∃ added,
          List.map ignoringUpdatedAt (instances db1)
          = List.map ignoringUpdatedAt (instances db_three_rules ++ added)
          ∧ instancesCreated r1 = Z.of_nat (length added)
          ∧ Forall freshlyPending added)
    ∧ ∃ r2 db2,
        materializeRule db1 "r2" pro (midnight 2023 2 1 + 9000) = Some (r2, db2)
        ∧ instancesCreated r2 = 0
        ∧ List.map ignoringUpdatedAt (instances db2)
          = List.map ignoringUpdatedAt (instances db1).
Proof.
  destruct (materializeRule db_three_rules "r2" pro (midnight 2023 2 1 + 5000))
    as [[r1 db1]|] eqn:E; [|vm_compute in E; discriminate].
  exists r1, db1. split; [reflexivity|].
  apply (C3_materialize_idempotent db_three_rules "r2" pro
           (midnight 2023 2 1 + 5000) (midnight 2023 2 1 + 9000) r1 db1 E).
  reflexivity.
Defined.

(** The idempotence example, evaluated: the first run creates three
    instances, the second none (it sets [updatedAt] on the three), and the
    completed instance stays completed. *)
Lemma materializeRule_twice :
  match materializeRule db_three_rules "r2" pro (midnight 2023 2 1 + 5000) with
  | Some (r1, db1) =>
      match materializeRule db1 "r2" pro (midnight 2023 2 1 + 9000) with
      | Some (r2, db2) =>
          instancesCreated r1 = 3 ∧ instancesCreated r2 = 0
          ∧ instancesUpdated r2 = 3
          ∧ List.map ReminderInstance.status (instances db2)
            = [completed; pending; pending; pending]
      | None => False
      end
  | None => False
  end.
Proof. vm_compute. repeat split. Qed.

Lemma stageRules_keyed cm userId ws we now rs :
  ∀ acc acc',
  Forall keyed (st_bulkOps acc) →
  stageRules cm userId ws we now acc rs = Some acc' →
  Forall keyed (st_bulkOps acc').
Proof.
  induction rs as [|rule rs IH]; intros acc acc' Hk; simpl.
  - now intros [= <-].
  - destruct (stageRule cm userId ws we now acc rule) as [acc1|] eqn:E;
      [|discriminate].
    simpl. apply IH. unfold stageRule in E.
    destruct (cm !! _) as [c|]; [|injection E as <-; exact Hk].
    destruct (computeDueDates _ _ _ _) as [ds|]; [|discriminate].
    simpl in E. rewrite stageDueDates_eq in E.
    injection E as <-. simpl. apply Forall_app_2; [exact Hk|].
    apply stageUpserts_keyed.
Qed.

(** Whatever [materializeUser] returns, it has left the instances as a bulk
    write leaves them. *)
Lemma materializeUser_nondestructive db userId plan now r db' :
  materializeUser db userId plan now = Some (r, db') →
  ∃ added,
    List.map ignoringUpdatedAt (instances db')
    = List.map ignoringUpdatedAt (instances db ++ added)
    ∧ instancesCreated r = Z.of_nat (length added)
    ∧ Forall freshlyPending added.
Proof.
  unfold materializeUser. destruct (activeRules db userId) as [|rule0 rs].
  - intros [= <- <-]. exists []. rewrite app_nil_r. repeat split. constructor.
  - destruct (stageRules _ _ _ _ _ _ _) as [staged|] eqn:Es; [|discriminate].
    simpl. intros [= E].
    pose proof (executeBulk_spec db (st_bulkOps staged) userId
                  (st_processed staged) (st_errors staged)) as Hspec.
    rewrite E in Hspec.
    destruct Hspec as (_ & _ & _ & _ & _ & _ & Hadd & _); [|exact Hadd].
    eapply stageRules_keyed; [|exact Es]. constructor.
Qed.
End MaterializeWitness.

(** ** The invariant on [snoozedUntil]                                    *)

Section SnoozeInvariant.
Import Mongo Materializer MaterializerService Service.

Lemma snoozeInvariant_ignoringUpdatedAt l l' :
  List.map ignoringUpdatedAt l' = List.map ignoringUpdatedAt l →
  Forall snoozeInvariant l → Forall snoozeInvariant l'.
Proof.
  intros E H.
  assert (Hm : ∀ k, Forall snoozeInvariant k ↔
                    Forall snoozeInvariant (List.map ignoringUpdatedAt k)).
  { intros k. rewrite List.Forall_map. apply Forall_iff. intros d. reflexivity. }
  apply (proj2 (Hm l')). rewrite E. apply (proj1 (Hm l)). exact H.
Qed.

Lemma freshlyPending_invariant d : freshlyPending d → snoozeInvariant d.
Proof.
  intros (Hs & _ & Hn & _). unfold snoozeInvariant. rewrite Hs, Hn.
  split; [intros [x Hx]; discriminate|discriminate].
Qed.

Lemma findOneAndUpdate_Forall (P : ReminderInstance.t → Prop) db p f audit :
  (∀ d, p d = true → P (f d)) →
  Forall P (instances db) →
  Forall P (instances (findOneAndUpdate db p f audit).2).
Proof.
  intros Hf Hall. unfold findOneAndUpdate.
  destruct (updateFirst p f (instances db)) as [[old docs']|] eqn:E; [|exact Hall].
  apply updateFirst_inv in E as (l1 & l2 & El & -> & Hp & _). simpl.
  rewrite El in Hall. apply Forall_app in Hall as [H1 H2].
  apply Forall_cons_1 in H2 as [_ H2].
  apply Forall_app_2; [exact H1|]. constructor; auto.
Qed.

Lemma findOneAndUpdate_result db p f audit d' :
  (findOneAndUpdate db p f audit).1 = Some d' →
  ∃ d, In d (instances db) ∧ p d = true ∧ d' = f d.
Proof.
  unfold findOneAndUpdate.
  destruct (updateFirst p f (instances db)) as [[old docs']|] eqn:E; [|discriminate].
  apply updateFirst_inv in E as (l1 & l2 & El & _ & Hp & _). simpl.
  intros [= <-]. exists old. rewrite El. repeat split; auto.
  apply in_or_app. right. now left.
Qed.

(** C10.  Every write keeps [snoozedUntil] set exactly when the status is
    [snoozed].  On a database where that holds, it holds again after
    [markDone], [snooze], [unsnooze], [skip], [materializeUser] and
    [materializeRule].  The materializer inserts instances that are pending
    without [snoozedUntil]; the document [snooze] returns is snoozed with
    [snoozedUntil] set; the documents [markDone], [unsnooze] and [skip]
    return are completed, pending and skipped, without [snoozedUntil]. *)
Theorem C10_snoozedUntil_iff_snoozed db :
  Forall snoozeInvariant (instances db) →
  (∀ instanceId userId now,
     Forall snoozeInvariant (instances (markDone db instanceId userId now).2)
     ∧ Forall snoozeInvariant (instances (unsnooze db instanceId userId now).2)
     ∧ Forall snoozeInvariant (instances (skip db instanceId userId now).2)
     ∧ (∀ options,
          Forall snoozeInvariant
                 (instances (snooze db instanceId userId options now).2))
     ∧ (∀ d', (markDone db instanceId userId now).1 = Some d' →
              ReminderInstance.status d' = completed
              ∧ ReminderInstance.snoozedUntil d' = None)
     ∧ (∀ d', (unsnooze db instanceId userId now).1 = Some d' →
              ReminderInstance.status d' = pending
              ∧ ReminderInstance.snoozedUntil d' = None)
     ∧ (∀ d', (skip db instanceId userId now).1 = Some d' →
              ReminderInstance.status d' = skipped
              ∧ ReminderInstance.snoozedUntil d' = None)
     ∧ (∀ options d', (snooze db instanceId userId options now).1 = Some d' →
              ReminderInstance.status d' = snoozed
              ∧ is_Some (ReminderInstance.snoozedUntil d')))
  ∧ (∀ userId plan now r db',
       materializeUser db userId plan now = Some (r, db') →
       Forall snoozeInvariant (instances db')
       ∧ ∃ added,
           List.map ignoringUpdatedAt (instances db')
           = List.map ignoringUpdatedAt (instances db ++ added)
           ∧ Forall freshlyPending added)
  ∧ (∀ ruleId plan now r db',
       materializeRule db ruleId plan now = Some (r, db') →
       Forall snoozeInvariant (instances db')
       ∧ ∃ added,
           List.map ignoringUpdatedAt (instances db')
           = List.map ignoringUpdatedAt (instances db ++ added)
           ∧ Forall freshlyPending added).
Proof.
  intros Hinv.
  assert (Hbulk : ∀ db' added,
            List.map ignoringUpdatedAt (instances db')
            = List.map ignoringUpdatedAt (instances db ++ added) →
            Forall freshlyPending added →
            Forall snoozeInvariant (instances db')).
  { intros db' added E Hf. eapply snoozeInvariant_ignoringUpdatedAt; [exact E|].
    apply Forall_app_2; [exact Hinv|].
    eapply List.Forall_impl; [|exact Hf]. apply freshlyPending_invariant. }
  assert (Hwrite : ∀ p f audit,
            (∀ d, snoozeInvariant (f d)) →
            Forall snoozeInvariant (instances (findOneAndUpdate db p f audit).2)).
  { intros p f audit Hf. apply findOneAndUpdate_Forall; [|exact Hinv]. auto. }
  split; [|split].
  - intros instanceId userId now.
    split; [|split; [|split; [|split]]].
    1-4: intros; apply Hwrite; intros d; unfold snoozeInvariant; simpl;
      (split; [intros [x Hx]|intros Hx]); try discriminate; eauto.
    repeat split; intros;
      match goal with
      | Hr : (_ _).1 = Some _ |- _ =>
          apply findOneAndUpdate_result in Hr as (d & _ & _ & ->)
      end; simpl; eauto.
  - intros userId plan now r db' H.
    destruct (materializeUser_nondestructive _ _ _ _ _ _ H) as (added & E & _ & Hf).
    split; [eapply Hbulk; eassumption|eauto].
  - intros ruleId plan now r db' H.
    destruct (materializeRule_nondestructive _ _ _ _ _ _ H) as (added & E & _ & Hf).
    split; [eapply Hbulk; eassumption|eauto].
Qed.

Lemma C10_snoozedUntil_iff_snoozed_witness :
  Forall snoozeInvariant
    (instances (markDone (db_of [completed_instance; snoozed_instance])
                         "i1" "u1" (midnight 2023 3 12)).2)
  ∧ Forall snoozeInvariant
      (instances (snooze (db_of [completed_instance; snoozed_instance])
                         "i1" "u1" {| days := Some 3; until := None |}
                         (midnight 2023 3 12)).2).
Proof.
  destruct (C10_snoozedUntil_iff_snoozed
              (db_of [completed_instance; snoozed_instance])) as [Hact _].
  - repeat constructor; try discriminate.
    + intros [x Hx]. discriminate.
    + eauto.
  - destruct (Hact "i1"%string "u1"%string (midnight 2023 3 12))
      as (Hdone & _ & _ & Hsnooze & _).
    split; [exact Hdone|apply Hsnooze].
Defined.
End SnoozeInvariant.

(** ** Pruning                                                            *)

Section Pruning.
Import MaterializerService.

Lemma isStale_iff userId now d :
  isStale userId now d = true ↔ staleByDueDate userId now d.
Proof.
  unfold isStale, staleByDueDate, terminal. rewrite !addDays_shift.
  rewrite !andb_true_iff, !orb_true_iff, !andb_true_iff, !orb_true_iff.
  rewrite String.eqb_eq, !Z.ltb_lt, !bool_decide_eq_true.
  replace (now + -30 * msPerDay) with (now - 30 * msPerDay) by (unfold Date; ring).
  replace (now + -90 * msPerDay) with (now - 90 * msPerDay) by (unfold Date; ring).
  tauto.
Qed.

Lemma filter_split_length {A} (p : A → bool) l :
  (length (List.filter p l) + length (List.filter (fun x => negb (p x)) l)
   = length l)%nat.
Proof.
  induction l as [|x l IH]; [reflexivity|].
  cbn [List.filter]. destruct (p x); cbn [negb length]; lia.
Qed.

(** C8, as the code has it.  [pruneStaleInstances] keeps the order of the
    collection and deletes exactly the user's instances whose due date is
    more than 30 days back and which are completed or skipped, and those
    whose due date is more than 90 days back whatever their status; it
    returns their number.  So a completed instance due 40 days back is
    deleted and a pending instance due 40 days back is kept. *)
Theorem C8_prune_by_due_date db userId now :
  let result := pruneStaleInstances db userId now in
  (∀ d, In d (instances result.2)
        ↔ In d (instances db) ∧ ¬ staleByDueDate userId now d)
  ∧ result.1
    = Z.of_nat (length (instances db)) - Z.of_nat (length (instances result.2))
  ∧ rules result.2 = rules db ∧ contacts result.2 = contacts db
  ∧ ∀ d, In d (instances db) →
         ReminderInstance.userId d = userId →
         ReminderInstance.dueDate d = now - 40 * msPerDay →
         (ReminderInstance.status d = completed → ¬ In d (instances result.2))
         ∧ (ReminderInstance.status d = pending → In d (instances result.2)).
Proof.
  intros result.
  assert (Hkeep : ∀ d, In d (instances result.2)
                       ↔ In d (instances db) ∧ ¬ staleByDueDate userId now d).
  { intros d. subst result. unfold pruneStaleInstances. simpl.
    rewrite filter_In, negb_true_iff, <- isStale_iff.
    destruct (isStale userId now d); intuition congruence. }
  split; [exact Hkeep|]. split; [|split; [reflexivity|split; [reflexivity|]]].
  - subst result. unfold pruneStaleInstances. cbn [fst snd instances].
    pose proof (filter_split_length (isStale userId now) (instances db)). lia.
  - intros d Hd Hu Hdue. pose proof msPerDay_pos. split; intros Hs.
    + rewrite Hkeep. intros [_ Hn]. apply Hn. split; [exact Hu|]. left.
      split; [lia|]. now left.
    + apply Hkeep. split; [exact Hd|]. intros [_ [[_ [Ht|Ht]]|Ht]];
        try congruence. lia.
Qed.

(** C8 as stated fails: age is taken from the due date, not from the
    completion timestamp.  An instance completed 40 days ago whose due date
    is 20 days ago is kept. *)
Lemma C8_completed_40_days_ago_kept :
  let now := midnight 2023 3 31 in
  ReminderInstance.status completed_40_days_ago = completed
  ∧ ReminderInstance.completedAt completed_40_days_ago = Some (addDays now (-40))
  ∧ pruneStaleInstances (db_of [completed_40_days_ago]) "u1" now
    = (0, db_of [completed_40_days_ago]).
Proof. repeat split. Qed.
End Pruning.

(** ** More on the recurrence calculator                                  *)

Section CalculatorMore.
Import Materializer.

(** Whenever the calculator returns, every date it returns lies in the
    window, provided the dates involved are valid dates. *)
Theorem dueDates_within_window rule ws we ci l :
  fixedDate_ok rule → interval_ok we rule ci →
  TimeWithinDay ws = 0 → window_ok ws → isValid we = true →
  Forall (offset_ok ws we) (default [0] (ReminderRule.notifyDaysBefore rule)) →
  computeDueDates rule ws we ci = Some l →
  Forall (fun d => ws ≤ d ≤ we ∧ TimeWithinDay d = 0) l.
Proof.
  intros Hfd Hn Hw Hwin Ve Ho Hl.
  pose proof (window_ok_valid ws Hwin) as Vw.
  pose proof (computeDueDates_in_window rule ws we ci l Hfd Hn Hw Vw Ve Ho Hl) as Hin.
  assert (Hal : Forall (fun d => TimeWithinDay d = 0) l).
  { assert (Hnot : ∀ date offsets,
              TimeWithinDay date = 0 →
              Forall (fun d => TimeWithinDay d = 0)
                     (notifyDates date ws we offsets)).
    { intros date offsets Hd. apply List.Forall_forall. intros d Hdin.
      unfold notifyDates in Hdin. apply filter_In in Hdin as [Hdin _].
      apply in_map_iff in Hdin as (o & <- & _).
      now rewrite addDays_shift, TimeWithinDay_shift. }
    assert (Hfix : Forall (fun d => TimeWithinDay d = 0)
                          (computeFixedDateDues rule ws we)).
    { unfold computeFixedDateDues.
      destruct (ReminderRule.fixedDate rule) as [fd|]; [|constructor].
      apply List.Forall_forall. intros d Hdin.
      apply in_flat_map in Hdin as (y & _ & Hdin).
      pose proof (Hnot (fixedEventDate ws y fd)
                    (default [0] (ReminderRule.notifyDaysBefore rule))
                    (fixedEventDate_aligned ws y fd)) as Hf.
      rewrite List.Forall_forall in Hf. now apply Hf. }
    assert (Hemit : ∀ n fuel next l',
              TimeWithinDay next = 0 →
              emitDues fuel next ws we n
                (default [0] (ReminderRule.notifyDaysBefore rule)) = Some l' →
              Forall (fun d => TimeWithinDay d = 0) l').
    { intros n fuel. induction fuel as [|fuel IH]; intros next l' Hnext; simpl.
      - destruct (isAfter next we); [|destruct (negb _); discriminate].
        intros [= <-]. constructor.
      - destruct (isAfter next we); [intros [= <-]; constructor|].
        destruct (negb (isValid next)); [discriminate|].
        destruct (emitDues fuel (addDays next n) ws we n _) as [rest|] eqn:E;
          [|discriminate].
        simpl. intros [= <-]. apply Forall_app_2; [now apply Hnot|].
        apply (IH (addDays next n)); [|exact E].
        now rewrite addDays_shift, TimeWithinDay_shift. }
    assert (Hint : ∀ l', computeFollowUpDues rule ws we ci = Some l' →
                         Forall (fun d => TimeWithinDay d = 0) l').
    { intros l'. unfold computeFollowUpDues.
      destruct (ReminderRule.intervalDays rule) as [n|] eqn:E;
        [|intros [= <-]; constructor].
      destruct (Hn n E) as (Hn0 & Va & _).
      destruct (Z.eqb_spec n 0); [intros [= <-]; constructor|].
      rewrite firstDueDate_eq by (assumption || lia). simpl.
      apply Hemit.
      rewrite addDays_shift, TimeWithinDay_shift. apply anchorDate_aligned. }
    unfold computeDueDates in Hl.
    destruct (ReminderRule.type rule); try (injection Hl as <-; exact Hfix);
      auto.
    destruct (bool_decide _); [injection Hl as <-; exact Hfix|].
    destruct (truthy _); auto. injection Hl as <-. constructor. }
  rewrite List.Forall_forall in *. intros d Hd. split; auto.
Qed.

Lemma dueDates_within_window_witness :
  computeDueDates rule_birthday_jan11 (midnight 2023 1 1)
    (addDays (midnight 2023 1 1) 30) contact_none
  = Some [midnight 2023 1 11; midnight 2023 1 4]
  ∧ Forall (fun d => midnight 2023 1 1 ≤ d ≤ addDays (midnight 2023 1 1) 30
                     ∧ TimeWithinDay d = 0)
           [midnight 2023 1 11; midnight 2023 1 4].
Proof.
  split; [reflexivity|].
  apply (dueDates_within_window rule_birthday_jan11 (midnight 2023 1 1)
           (addDays (midnight 2023 1 1) 30) contact_none).
  - intros fd Hfd. injection Hfd as <-. simpl. lia.
  - intros n Hn. discriminate.
  - reflexivity.
  - split; reflexivity.
  - reflexivity.
  - repeat constructor.
  - reflexivity.
Defined.

(** When the first due date is an Invalid Date, the interval algorithm does
    not return: neither loop condition ever holds of it. *)
Theorem invalid_first_due_never_returns rule ws we ci n :
  ReminderRule.intervalDays rule = Some n → n ≠ 0 →
  isValid (initialNextDue (anchorDate rule ci) ws n) = false →
  computeFollowUpDues rule ws we ci = None
  ∧ (ReminderRule.type rule = follow_up →
     computeDueDates rule ws we ci = None).
Proof.
  intros E Hn Hv.
  assert (H : computeFollowUpDues rule ws we ci = None).
  { unfold computeFollowUpDues. rewrite E.
    destruct (Z.eqb_spec n 0); [contradiction|].
    unfold firstDueDate.
    rewrite advanceToWindow_done by (now apply isBefore_invalid).
    simpl. now apply emitDues_invalid. }
  split; [exact H|]. intros Ht. unfold computeDueDates. now rewrite Ht.
Qed.

Lemma invalid_first_due_never_returns_witness :
  computeFollowUpDues rule_interval_1e8 (midnight 2023 2 1)
    (addDays (midnight 2023 2 1) 90) contact_none = None
  ∧ computeDueDates rule_interval_1e8 (midnight 2023 2 1)
      (addDays (midnight 2023 2 1) 90) contact_none = None.
Proof.
  destruct (invalid_first_due_never_returns rule_interval_1e8
              (midnight 2023 2 1) (addDays (midnight 2023 2 1) 90)
              contact_none 100000000) as [H1 H2].
  - reflexivity.
  - discriminate.
  - reflexivity.
  - split; [exact H1|]. apply H2. reflexivity.
Defined.



(** The instance key: it is made of the rule id and the calendar day of the
    due date, so two valid dates on the same day give the same key; an
    Invalid Date has no key, [format] throws. *)
Theorem generateInstanceKey_by_day ruleId d1 d2 :
  isValid d1 = true → isValid d2 = true → Day d1 = Day d2 →
  generateInstanceKey ruleId d1 = generateInstanceKey ruleId d2
  ∧ generateInstanceKey ruleId d1 = Normal (instanceKeyOf ruleId (startOfDay d1)).
Proof.
  intros V1 V2 Hd.
  assert (Hf : ∀ a b, Day a = Day b →
                      Format.format_yyyy_MM_dd a = Format.format_yyyy_MM_dd b).
  { intros a b H. unfold Format.format_yyyy_MM_dd, Format.yyyy, Format.MM,
      Format.dd, getFullYear, getMonth, getDate. now rewrite H. }
  rewrite !generateInstanceKey_valid by assumption. unfold instanceKeyOf.
  rewrite (Hf d1 d2 Hd), (Hf (startOfDay d1) d2) by (now rewrite Day_startOfDay).
  auto.
Qed.

Lemma generateInstanceKey_by_day_witness :
  generateInstanceKey "r1" (midnight 2023 3 1 + 5000)
  = generateInstanceKey "r1" (midnight 2023 3 1)
  ∧ generateInstanceKey "r1" (midnight 2023 3 1 + 5000)
    = Normal "r1:2023-03-01"%string.
Proof.
  destruct (generateInstanceKey_by_day "r1" (midnight 2023 3 1 + 5000)
              (midnight 2023 3 1)) as [H1 H2]; try reflexivity.
  split; [exact H1|]. rewrite H2. reflexivity.
Defined.

(** The key of an Invalid Date: [format] throws. *)
Lemma generateInstanceKey_throws ruleId d :
  isValid d = false →
  generateInstanceKey ruleId d = Throw "Invalid time value".
Proof. apply generateInstanceKey_invalid. Qed.

Lemma generateInstanceKey_throws_witness :
  generateInstanceKey "r1" (addDays (midnight 2023 3 1) 100000000)
  = Throw "Invalid time value".
Proof. apply generateInstanceKey_throws. reflexivity. Defined.

Lemma append_inj_length (a b c d : string) :
  String.length a = String.length b →
  (a ++ c)%string = (b ++ d)%string → a = b ∧ c = d.
Proof.
  revert b. induction a as [|x a IH]; intros [|y b] Hl; simpl in *;
    try discriminate; [auto|].
  intros [= -> H]. destruct (IH b) as [-> ->]; auto.
Qed.

(** Keys of rules whose ids have the same length (the ids are 24
    hexadecimal digits) differ when the ids do. *)
Theorem instanceKey_tells_rule ruleId1 ruleId2 d1 d2 key :
  String.length ruleId1 = String.length ruleId2 →
  generateInstanceKey ruleId1 d1 = Normal key →
  generateInstanceKey ruleId2 d2 = Normal key →
  ruleId1 = ruleId2
  ∧ Format.format_yyyy_MM_dd d1 = Format.format_yyyy_MM_dd d2.
Proof.
  intros Hl. unfold generateInstanceKey, Format.format.
  destruct (isValid d1); [|discriminate]. destruct (isValid d2); [|discriminate].
  intros [= <-] [= H].
  destruct (append_inj_length _ _ _ _ (eq_sym Hl) H) as [-> H'].
  split; [reflexivity|]. now injection H'.
Qed.

Lemma instanceKey_tells_rule_witness :
  ("r1" : string) = "r1"%string
  ∧ Format.format_yyyy_MM_dd (midnight 2023 3 1 + 5000)
    = Format.format_yyyy_MM_dd (midnight 2023 3 1).
Proof.
  apply (instanceKey_tells_rule "r1" "r1" (midnight 2023 3 1 + 5000)
           (midnight 2023 3 1) "r1:2023-03-01"); reflexivity.
Defined.
End CalculatorMore.

(** ** More on materialization                                            *)

Section MaterializeMore.
Import Mongo Materializer MaterializerService.

(** Every document a bulk write appends is the document of one of its
    operations. *)
Lemma fold_applyUpsert_inserted ops :
  ∀ st, ∃ added,
    List.map ignoringUpdatedAt (bulk_docs (fold_left applyUpsert ops st))
    = List.map ignoringUpdatedAt (bulk_docs st ++ added)
    ∧ upsertedCount (fold_left applyUpsert ops st)
      = upsertedCount st + Z.of_nat (length added)
    ∧ Forall (fun d => ∃ op id, In op ops ∧ d = insertedDoc id op) added.
Proof.
  induction ops as [|op ops IH]; intros st; simpl.
  - exists []. rewrite app_nil_r. repeat split; [simpl; lia|constructor].
  - destruct (IH (applyUpsert st op)) as (added & Hd & Hc & Hf).
    assert (Hf' : Forall (fun d => ∃ op' id, (op = op' ∨ In op' ops)
                                             ∧ d = insertedDoc id op') added).
    { eapply List.Forall_impl; [|exact Hf]. simpl.
      intros d (op' & id & Hin & E). eauto. }
    destruct (in_keys_dec (filter_instanceKey op) (bulk_docs st)) as [Hin|Hin].
    + destruct (applyUpsert_present st op Hin) as (Hd' & Hc' & _).
      exists added. rewrite Hd, Hc, Hc', !List.map_app, Hd'. auto.
    + destruct (applyUpsert_absent st op Hin) as (Hd' & Hc').
      exists (insertedDoc (newObjectId (bulk_nextId st)) op :: added).
      rewrite Hd, Hc, Hc', Hd', <- app_assoc. simpl.
      repeat split; [simpl length; lia|]. constructor; [|exact Hf'].
      eauto.
Qed.

Lemma executeBulk_inserted db ops userId processed errs :
  let '(r, db') := executeBulk db ops userId processed errs in
  ∃ added,
    List.map ignoringUpdatedAt (instances db')
    = List.map ignoringUpdatedAt (instances db ++ added)
    ∧ instancesCreated r = Z.of_nat (length added)
    ∧ Forall (fun d => ∃ op id, In op ops ∧ d = insertedDoc id op) added.
Proof.
  unfold executeBulk. destruct ops as [|op ops].
  - exists []. rewrite app_nil_r. repeat split. constructor.
  - set (ops' := op :: ops) in *. simpl.
    destruct (fold_applyUpsert_inserted ops'
                {| bulk_docs := instances db; bulk_nextId := nextObjectId db;
                   upsertedCount := 0; modifiedCount := 0 |})
      as (added & Hd & Hc & Hf).
    exists added. unfold bulkWrite. rewrite Hd, Hc. auto.
Qed.

(** The valid dates the calculator returns lie in a valid window. *)
Lemma computeDueDates_valid_in_window rule ws we ci l :
  isValid ws = true → isValid we = true →
  computeDueDates rule ws we ci = Some l →
  Forall (fun d => isValid d = true → ws ≤ d ≤ we) l.
Proof.
  intros Vw Ve Hl.
  assert (Hfix : Forall (fun d => isValid d = true → ws ≤ d ≤ we)
                        (computeFixedDateDues rule ws we)).
  { unfold computeFixedDateDues.
    destruct (ReminderRule.fixedDate rule) as [fd|]; [|constructor].
    apply List.Forall_forall. intros d Hdin.
    apply in_flat_map in Hdin as (y & _ & Hdin).
    pose proof (notifyDates_in_window (fixedEventDate ws y fd) ws we
                  (default [0] (ReminderRule.notifyDaysBefore rule)) Vw Ve) as Hf.
    rewrite List.Forall_forall in Hf. now apply Hf. }
  assert (Hemit : ∀ n offsets fuel next l',
            emitDues fuel next ws we n offsets = Some l' →
            Forall (fun d => isValid d = true → ws ≤ d ≤ we) l').
  { intros n offsets fuel.
    induction fuel as [|fuel IH]; intros next l'; simpl.
    - destruct (isAfter next we); [|destruct (negb _); discriminate].
      intros [= <-]. constructor.
    - destruct (isAfter next we); [intros [= <-]; constructor|].
      destruct (negb (isValid next)); [discriminate|].
      destruct (emitDues fuel (addDays next n) ws we n offsets) as [rest|] eqn:E;
        [|discriminate].
      simpl. intros [= <-].
      apply Forall_app_2; [now apply notifyDates_in_window|]. eauto. }
  assert (Hint : ∀ l', computeFollowUpDues rule ws we ci = Some l' →
                       Forall (fun d => isValid d = true → ws ≤ d ≤ we) l').
  { intros l'. unfold computeFollowUpDues.
    destruct (ReminderRule.intervalDays rule) as [n|];
      [|intros [= <-]; constructor].
    destruct (n =? 0); [intros [= <-]; constructor|].
    destruct (firstDueDate rule ws ci n) as [next|]; [|discriminate].
    simpl. apply Hemit. }
  unfold computeDueDates in Hl.
  destruct (ReminderRule.type rule); try (injection Hl as <-; exact Hfix); auto.
  destruct (bool_decide _); [injection Hl as <-; exact Hfix|].
  destruct (truthy _); auto. injection Hl as <-. constructor.
Qed.

(** A pass of the loop over the rules that ends has this outcome. *)
Lemma stageRule_inv cm userId ws we now acc rule acc' :
  stageRule cm userId ws we now acc rule = Some acc' →
  st_processed acc' = st_processed acc + 1
  ∧ st_errors acc' = st_errors acc ++ errorsFor cm ws we rule
  ∧ st_bulkOps acc' = st_bulkOps acc ++ stagedFor cm userId ws we now rule
  ∧ ∀ contact, cm !! ReminderRule.contactId rule = Some contact →
               is_Some (computeDueDates rule ws we (contactInfoOf contact)).
Proof.
  intros E.
  assert (Hret : ∀ contact, cm !! ReminderRule.contactId rule = Some contact →
                   is_Some (computeDueDates rule ws we (contactInfoOf contact))).
  { intros contact Ec. unfold stageRule in E. rewrite Ec in E.
    unfold contactInfoOf.
    destruct (computeDueDates _ _ _ _); [eauto|discriminate]. }
  destruct (stageRule_spec cm userId ws we now acc rule Hret)
    as (acc1 & E1 & Hp & He & Ho).
  rewrite E in E1. injection E1 as <-. auto.
Qed.

Lemma stageRules_inv cm userId ws we now rs :
  ∀ acc acc',
  stageRules cm userId ws we now acc rs = Some acc' →
  st_processed acc' = st_processed acc + Z.of_nat (length rs)
  ∧ st_errors acc' = st_errors acc ++ flat_map (errorsFor cm ws we) rs
  ∧ st_bulkOps acc'
    = st_bulkOps acc ++ flat_map (stagedFor cm userId ws we now) rs
  ∧ ∀ rule contact,
      In rule rs → cm !! ReminderRule.contactId rule = Some contact →
      is_Some (computeDueDates rule ws we (contactInfoOf contact)).
Proof.
  induction rs as [|rule rs IH]; intros acc acc'.
  - simpl. intros [= <-]. rewrite !app_nil_r.
    repeat split; [lia|]. intros rule contact [].
  - cbn [stageRules].
    destruct (stageRule cm userId ws we now acc rule) as [acc1|] eqn:E1;
      [|discriminate].
    simpl. intros E.
    destruct (stageRule_inv _ _ _ _ _ _ _ _ E1) as (Hp1 & He1 & Ho1 & Hr1).
    destruct (IH _ _ E) as (Hp & He & Ho & Hr).
    cbn [flat_map length]. rewrite Hp, He, Ho, Hp1, He1, Ho1, <- !app_assoc.
    repeat split; [lia|].
    intros r c [<-|Hin]; eauto.
Qed.

Lemma materializeUser_inv db userId plan now r db' :
  materializeUser db userId plan now = Some (r, db') →
  ∃ staged,
    stageRules (buildContactMap db userId (activeRules db userId)) userId
      (startOfDay now) (addDays (startOfDay now) (MATERIALIZATION_WINDOW plan))
      now {| st_processed := 0; st_errors := []; st_bulkOps := [] |}
      (activeRules db userId) = Some staged
    ∧ executeBulk db (st_bulkOps staged) userId
        (st_processed staged) (st_errors staged) = (r, db').
Proof.
  rewrite materializeUser_eq. cbv zeta.
  destruct (stageRules _ _ _ _ _ _ _) as [staged|]; [|discriminate].
  simpl. intros [= E]. eauto.
Qed.

(** The instances a run adds, read off the staged upserts. *)
Lemma materializeUser_added db userId plan now r db' :
  materializeUser db userId plan now = Some (r, db') →
  let windowStart := startOfDay now in
  let windowEnd := addDays windowStart (MATERIALIZATION_WINDOW plan) in
  ∃ added,
    List.map ignoringUpdatedAt (instances db')
    = List.map ignoringUpdatedAt (instances db ++ added)
    ∧ instancesCreated r = Z.of_nat (length added)
    ∧ Forall
        (fun d =>
           ∃ rule contact dueDates,
             In rule (activeRules db userId)
             ∧ In contact (contacts db)
             ∧ Contact._id contact = ReminderRule.contactId rule
             ∧ Contact.userId contact = userId
             ∧ computeDueDates rule windowStart windowEnd
                 {| lci_contactId := Contact._id contact;
                    lci_lastContactedAt := Contact.lastContactedAt contact |}
               = Some dueDates
             ∧ In (ReminderInstance.dueDate d) dueDates
             ∧ instanceOf rule userId d
             ∧ ReminderInstance.contactName d = Some (Contact.name contact)
             ∧ ReminderInstance.createdAt d = now
             ∧ ReminderInstance.updatedAt d = now
             ∧ (isValid windowStart = true → isValid windowEnd = true →
                windowStart ≤ ReminderInstance.dueDate d ≤ windowEnd))
        added.
Proof.
  intros H windowStart windowEnd.
  destruct (materializeUser_inv _ _ _ _ _ _ H) as (staged & Hs & Ex).
  fold windowStart in Hs. fold windowEnd in Hs.
  set (rs := activeRules db userId) in *.
  set (cm := buildContactMap db userId rs) in *.
  destruct (stageRules_inv _ _ _ _ _ _ _ _ Hs) as (_ & _ & Ho & _).
  simpl in Ho.
  pose proof (executeBulk_inserted db (st_bulkOps staged) userId
                (st_processed staged) (st_errors staged)) as Hins.
  rewrite Ex in Hins. destruct Hins as (added & Hd & Hc & Hf).
  exists added. split; [exact Hd|]. split; [exact Hc|].
  eapply List.Forall_impl; [|exact Hf]. simpl.
  intros d (op & id & Hop & ->). rewrite Ho in Hop.
  apply in_flat_map in Hop as (rule & Hrule & Hop).
  pose proof (buildContactMap_lookup db userId rs rule Hrule) as Hl.
  fold cm in Hl. unfold stagedFor in Hop.
  destruct (cm !! ReminderRule.contactId rule) as [c|]; [|destruct Hop].
  destruct Hl as (_ & contact & Hin & Hid & Hus & ->).
  unfold contactInfoOf in Hop. simpl in Hop.
  destruct (computeDueDates rule windowStart windowEnd _) as [dueDates|] eqn:Ed;
    [|destruct Hop].
  apply in_map_iff in Hop as (due & <- & Hdue).
  apply validPrefix_In in Hdue as [Hdue Vdue].
  assert (Hwin : isValid windowStart = true → isValid windowEnd = true →
                 windowStart ≤ due ≤ windowEnd).
  { intros Vw Ve.
    pose proof (computeDueDates_valid_in_window _ _ _ _ _ Vw Ve Ed) as Hw.
    rewrite List.Forall_forall in Hw. apply (Hw due Hdue Vdue). }
  exists rule, contact, dueDates. simpl.
  repeat split; try assumption; try reflexivity; apply Hwin; assumption.
Qed.

(** What [materializeUser] inserts.  Every instance it adds is an instance
    of one of the user's active rules whose contact the user has, for one
    of the due dates the calculator gives for that rule, a valid date; it
    is pending, belongs to the user, carries the contact's name and the
    key of rule and due date, and is stamped with the time of the run.
    With a valid window, its due date lies in the window. *)
Theorem materializeUser_inserts db userId plan now r db' :
  materializeUser db userId plan now = Some (r, db') →
  let windowStart := startOfDay now in
  let windowEnd := addDays windowStart (MATERIALIZATION_WINDOW plan) in
  ∃ added,
    List.map ignoringUpdatedAt (instances db')
    = List.map ignoringUpdatedAt (instances db ++ added)
    ∧ instancesCreated r = Z.of_nat (length added)
    ∧ Forall
        (fun d =>
           ∃ rule contact dueDates,
             In rule (activeRules db userId)
             ∧ In contact (contacts db)
             ∧ Contact._id contact = ReminderRule.contactId rule
             ∧ Contact.userId contact = userId
             ∧ computeDueDates rule windowStart windowEnd
                 {| lci_contactId := Contact._id contact;
                    lci_lastContactedAt := Contact.lastContactedAt contact |}
               = Some dueDates
             ∧ In (ReminderInstance.dueDate d) dueDates
             ∧ instanceOf rule userId d
             ∧ ReminderInstance.contactName d = Some (Contact.name contact)
             ∧ ReminderInstance.createdAt d = now
             ∧ ReminderInstance.updatedAt d = now
             ∧ (isValid windowStart = true → isValid windowEnd = true →
                windowStart ≤ ReminderInstance.dueDate d ≤ windowEnd))
        added.
Proof. exact (materializeUser_added db userId plan now r db'). Qed.

Lemma materializeUser_inserts_witness :
  ∃ r db' added,
    materializeUser db_three_rules "u1" pro (midnight 2023 2 1 + 5000)
    = Some (r, db')
    ∧ List.map ignoringUpdatedAt (instances db')
      = List.map ignoringUpdatedAt (instances db_three_rules ++ added)
    ∧ instancesCreated r = Z.of_nat (length added)
    ∧ Forall (fun d => ReminderInstance.userId d = "u1"%string
                       ∧ ReminderInstance.status d = pending) added.
Proof.
  destruct (materializeUser db_three_rules "u1" pro (midnight 2023 2 1 + 5000))
    as [[r db']|] eqn:E; [|vm_compute in E; discriminate].
  destruct (materializeUser_inserts db_three_rules "u1" pro
              (midnight 2023 2 1 + 5000) r db' E) as (added & Hd & Hc & Hf).
  exists r, db', added. split; [reflexivity|]. split; [exact Hd|].
  split; [exact Hc|].
  eapply List.Forall_impl; [|exact Hf]. simpl.
  intros d (rule & contact & dueDates & _ & _ & _ & _ & _ & _ & Hi & _).
  destruct Hi as (_ & Hu & _ & _ & _ & _ & Hs & _). auto.
Defined.

(** [materializeUser] is idempotent over a calendar day.  A second run on
    the same day returns, counts the same rules, records the same errors,
    creates no instance and changes nothing but [updatedAt]. *)
Theorem materializeUser_idempotent db userId plan now1 now2 r1 db1 :
  materializeUser db userId plan now1 = Some (r1, db1) →
  startOfDay now2 = startOfDay now1 →
  ∃ r2 db2,
    materializeUser db1 userId plan now2 = Some (r2, db2)
    ∧ instancesCreated r2 = 0
    ∧ rulesProcessed r2 = rulesProcessed r1
    ∧ errors r2 = errors r1
    ∧ List.map ignoringUpdatedAt (instances db2)
      = List.map ignoringUpdatedAt (instances db1).
Proof.
  intros H1 Hday.
  destruct (materializeUser_inv _ _ _ _ _ _ H1) as (staged1 & Hs1 & Ex1).
  set (ws := startOfDay now1) in *.
  set (we := addDays ws (MATERIALIZATION_WINDOW plan)) in *.
  set (rs := activeRules db userId) in *.
  set (cm := buildContactMap db userId rs) in *.
  destruct (stageRules_inv _ _ _ _ _ _ _ _ Hs1) as (Hp1 & He1 & Ho1 & Hret).
  simpl in Hp1, He1, Ho1.
  pose proof (executeBulk_spec db (st_bulkOps staged1) userId
                (st_processed staged1) (st_errors staged1)) as Hspec.
  rewrite Ex1 in Hspec.
  destruct Hspec as (Hr & Hcs & _ & _ & Hrp1 & Hre1 & _ & Hkeys).
  { eapply stageRules_keyed; [|exact Hs1]. constructor. }
  assert (Hrs : activeRules db1 userId = rs).
  { unfold activeRules. now rewrite Hr. }
  assert (Hcm : buildContactMap db1 userId rs = cm).
  { unfold buildContactMap. now rewrite Hcs. }
  destruct (stageRules_spec cm userId ws we now2 rs Hret
              {| st_processed := 0; st_errors := []; st_bulkOps := [] |})
    as (staged2 & Hs2 & Hp2 & He2 & Ho2).
  simpl in Hp2, He2, Ho2.
  pose proof (executeBulk_spec db1 (st_bulkOps staged2) userId
                (st_processed staged2) (st_errors staged2)) as Hspec2.
  pose proof (executeBulk_all_present db1 (st_bulkOps staged2) userId
                (st_processed staged2) (st_errors staged2)) as Hsecond.
  destruct (executeBulk db1 _ _ _ _) as [r2 db2] eqn:Ex2.
  destruct Hspec2 as (_ & _ & _ & _ & Hrp2 & Hre2 & _).
  { eapply stageRules_keyed; [|exact Hs2]. constructor. }
  exists r2, db2. split.
  - rewrite materializeUser_eq. cbv zeta. rewrite Hrs, Hcm, Hday.
    fold ws. fold we. rewrite Hs2. simpl. now rewrite Ex2.
  - assert (Hall : ∀ op, In op (st_bulkOps staged2) →
              In (filter_instanceKey op)
                 (List.map ReminderInstance.instanceKey (instances db1))).
    { intros op Hop. apply Hkeys. right. rewrite Ho1. rewrite Ho2 in Hop.
      apply in_flat_map in Hop as (rule & Hrule & Hop).
      apply in_map_iff. unfold stagedFor in Hop.
      destruct (cm !! ReminderRule.contactId rule) as [c|] eqn:Ec;
        [|destruct Hop].
      destruct (computeDueDates rule ws we (contactInfoOf c)) as [ds|] eqn:Ed;
        [|destruct Hop].
      apply in_map_iff in Hop as (d & <- & Hd).
      exists (stageUpsert rule userId (Contact.lean_name c) now1 d).
      split; [reflexivity|]. apply in_flat_map. exists rule.
      split; [exact Hrule|]. unfold stagedFor. rewrite Ec, Ed.
      apply in_map. exact Hd. }
    destruct (Hsecond Hall) as [Hc0 Hsame].
    split; [exact Hc0|]. split; [rewrite Hrp2, Hrp1, Hp2, Hp1; reflexivity|].
    split; [rewrite Hre2, Hre1, He2, He1; reflexivity|exact Hsame].
Qed.

Lemma materializeUser_idempotent_witness :
  ∃ r1 db1 r2 db2,
    materializeUser db_three_rules "u1" pro (midnight 2023 2 1 + 5000)
    = Some (r1, db1)
    ∧ materializeUser db1 "u1" pro (midnight 2023 2 1 + 9000) = Some (r2, db2)
    ∧ instancesCreated r2 = 0
    ∧ errors r2 = errors r1.
Proof.
  destruct (materializeUser db_three_rules "u1" pro (midnight 2023 2 1 + 5000))
    as [[r1 db1]|] eqn:E; [|vm_compute in E; discriminate].
  destruct (materializeUser_idempotent db_three_rules "u1" pro
              (midnight 2023 2 1 + 5000) (midnight 2023 2 1 + 9000) r1 db1 E)
    as (r2 & db2 & H2 & Hc & _ & He & _); [reflexivity|].
  exists r1, db1, r2, db2. auto.
Defined.

(** What [materializeRule] inserts.  The rule is looked up by id alone: it
    need not be active, and its contact need not belong to its user.  The
    instances carry the rule's user and no contact name (the projection
    names [displayName], which a contact does not have). *)
Theorem materializeRule_inserts db ruleId plan now r db' :
  materializeRule db ruleId plan now = Some (r, db') →
  let windowStart := startOfDay now in
  let windowEnd := addDays windowStart (MATERIALIZATION_WINDOW plan) in
  ∃ added,
    List.map ignoringUpdatedAt (instances db')
    = List.map ignoringUpdatedAt (instances db ++ added)
    ∧ instancesCreated r = Z.of_nat (length added)
    ∧ Forall
        (fun d =>
           ∃ rule contact dueDates,
             findRuleById db ruleId = Some rule
             ∧ findContactById db (ReminderRule.contactId rule) = Some contact
             ∧ computeDueDates rule windowStart windowEnd
                 {| lci_contactId := Contact._id contact;
                    lci_lastContactedAt := Contact.lastContactedAt contact |}
               = Some dueDates
             ∧ In (ReminderInstance.dueDate d) dueDates
             ∧ instanceOf rule (ReminderRule.userId rule) d
             ∧ ReminderInstance.contactName d = None
             ∧ ReminderInstance.createdAt d = now)
        added.
Proof.
  intros H windowStart windowEnd.
  destruct (materializeRule_cases _ _ _ _ _ _ H)
    as [(-> & Hc & _) | (rule & contact & dueDates & Er & Ec & Ed & Ev & Ex)].
  - exists []. rewrite app_nil_r. repeat split; [simpl; lia|constructor].
  - pose proof (executeBulk_inserted db
                  (List.map (stageUpsert rule (ReminderRule.userId rule) None now)
                            dueDates)
                  (ReminderRule.userId rule) 1 []) as Hins.
    rewrite Ex in Hins. destruct Hins as (added & Hd & Hc & Hf).
    exists added. split; [exact Hd|]. split; [exact Hc|].
    eapply List.Forall_impl; [|exact Hf]. simpl.
    intros d (op & id & Hop & ->).
    apply in_map_iff in Hop as (due & <- & Hdue).
    exists rule, contact, dueDates. simpl.
    repeat split; try assumption; try reflexivity.
    rewrite forallb_forall in Ev. now apply Ev.
Qed.

Lemma materializeRule_inserts_witness :
  ReminderRule.isActive rule_inactive = false
  ∧ ∃ r db' added,
      materializeRule db_inactive "r7" free (midnight 2023 2 1 + 5000)
      = Some (r, db')
      ∧ List.map ignoringUpdatedAt (instances db')
        = List.map ignoringUpdatedAt (instances db_inactive ++ added)
      ∧ instancesCreated r = Z.of_nat (length added)
      ∧ Forall (fun d => ReminderInstance.contactName d = None) added.
Proof.
  split; [reflexivity|].
  destruct (materializeRule db_inactive "r7" free (midnight 2023 2 1 + 5000))
    as [[r db']|] eqn:E; [|vm_compute in E; discriminate].
  destruct (materializeRule_inserts db_inactive "r7" free
              (midnight 2023 2 1 + 5000) r db' E) as (added & Hd & Hc & Hf).
  exists r, db', added. split; [reflexivity|]. split; [exact Hd|].
  split; [exact Hc|].
  eapply List.Forall_impl; [|exact Hf]. simpl.
  intros d (rule & contact & dueDates & _ & _ & _ & _ & _ & Hn & _). exact Hn.
Defined.

(** A rule that is switched off is left alone by [materializeUser] and
    materialized by [materializeRule] all the same: here four weekly
    instances, without a contact name. *)
Lemma materializeRule_ignores_isActive :
  materializeUser db_inactive "u1" free (midnight 2023 2 1 + 5000)
  = Some ({| res_userId := "u1"; rulesProcessed := 0; instancesCreated := 0;
             instancesUpdated := 0; errors := [] |}, db_inactive)
  ∧ match materializeRule db_inactive "r7" free (midnight 2023 2 1 + 5000) with
    | Some (r, db') =>
        rulesProcessed r = 1 ∧ instancesCreated r = 4 ∧ errors r = []
        ∧ List.map ReminderInstance.instanceKey (instances db')
          = [ "r7:2023-02-06"; "r7:2023-02-13"; "r7:2023-02-20";
              "r7:2023-02-27" ]%string
        ∧ List.map ReminderInstance.contactName (instances db')
          = [None; None; None; None]
    | None => False
    end.
Proof. vm_compute. repeat split. Qed.

(** An Invalid Date among the due dates of a rule.  [materializeUser]
    catches the error of [format] for that rule: the operations pushed for
    the due dates before it are written, the rule gets an "Invalid time
    value" entry, and the batch goes on.  [materializeRule] has no [catch]:
    the call gives no result. *)
Theorem materializeRule_throws_on_invalid_date db ruleId plan now rule contact dueDates :
  findRuleById db ruleId = Some rule →
  findContactById db (ReminderRule.contactId rule) = Some contact →
  computeDueDates rule (startOfDay now)
    (addDays (startOfDay now) (MATERIALIZATION_WINDOW plan))
    {| lci_contactId := Contact._id contact;
       lci_lastContactedAt := Contact.lastContactedAt contact |}
  = Some dueDates →
  forallb isValid dueDates = false →
  materializeRule db ruleId plan now = None.
Proof.
  intros Er Ec Ed Ev. unfold materializeRule. rewrite Er, Ec. simpl.
  rewrite Ed. simpl. rewrite stageDueDates_eq, Ev. reflexivity.
Qed.

Lemma materializeRule_throws_on_invalid_date_witness :
  materializeRule db_offset_2e8 "r6" pro (midnight 2023 2 1 + 5000) = None.
Proof.
  apply (materializeRule_throws_on_invalid_date db_offset_2e8 "r6" pro
           (midnight 2023 2 1 + 5000) rule_offset_2e8 contact_ada
           [midnight 2023 3 5;
            addDays (midnight 2023 3 5) (- 200000000);
            addDays (midnight 2024 3 5) (- 200000000)]);
    reflexivity.
Defined.

(** The batch run on a birthday rule with an offset of 200000000 days: the
    first due date is written, the second is an Invalid Date, so the rule
    gets its "Invalid time value" entry and the rules after it are
    materialized as usual. *)
Lemma materializeUser_invalid_time_value :
  match materializeUser db_offset_2e8 "u1" pro (midnight 2023 2 1 + 5000) with
  | Some (r, db') =>
      rulesProcessed r = 3
      ∧ errors r = [contactNotFound rule_dangling; invalidTimeValue rule_offset_2e8]
      ∧ instancesCreated r = 4
      ∧ List.map ReminderInstance.instanceKey (instances db')
        = [ "r6:2023-03-05"; "r2:2023-02-14"; "r2:2023-03-16";
            "r2:2023-04-15" ]%string
  | None => False
  end.
Proof. vm_compute. repeat split. Qed.
End MaterializeMore.

(** ** Rematerialization after an interaction                             *)

Section Rematerialize.
Import Mongo Materializer MaterializerService.

Lemma restageRule_inv contact ws we now acc rule acc' :
  restageRule contact ws we now acc rule = Some acc' →
  st_processed acc' = st_processed acc + 1
  ∧ st_bulkOps acc' = st_bulkOps acc ++ restagedFor contact ws we now rule.
Proof.
  unfold restageRule, restagedFor, contactInfoOf.
  destruct (computeDueDates _ _ _ _) as [dueDates|]; [|discriminate].
  simpl. rewrite stageDueDates_eq. intros [= <-]. simpl. auto.
Qed.

Lemma restageRules_inv contact ws we now rs :
  ∀ acc acc',
  restageRules contact ws we now acc rs = Some acc' →
  st_processed acc' = st_processed acc + Z.of_nat (length rs)
  ∧ st_bulkOps acc'
    = st_bulkOps acc ++ flat_map (restagedFor contact ws we now) rs.
Proof.
  induction rs as [|rule rs IH]; intros acc acc'.
  - simpl. intros [= <-]. rewrite app_nil_r. split; [lia|reflexivity].
  - cbn [restageRules].
    destruct (restageRule contact ws we now acc rule) as [acc1|] eqn:E1;
      [|discriminate].
    simpl. intros E.
    destruct (restageRule_inv _ _ _ _ _ _ _ E1) as (Hp1 & Ho1).
    destruct (IH _ _ E) as (Hp & Ho).
    cbn [flat_map length]. rewrite Hp, Ho, Hp1, Ho1, <- !app_assoc.
    split; [lia|reflexivity].
Qed.

(** What [rematerializeForContact] does.  For a contact that does not
    exist it changes nothing and reports "Contact not found" under the
    contact's id.  Otherwise it counts the active follow-up rules on the
    contact, whoever owns them, and every instance it adds is a pending
    follow-up instance on that contact for one of these rules, with the
    rule's user and without a contact name. *)
Theorem rematerializeForContact_inserts db contactId plan now r db' :
  rematerializeForContact db contactId plan now = Some (r, db') →
  (findContactById db contactId = None →
   db' = db ∧ errors r = [contactMissing contactId] ∧ rulesProcessed r = 0
   ∧ res_userId r = ""%string)
  ∧ (∀ contact, findContactById db contactId = Some contact →
       res_userId r = Contact.userId contact
       ∧ rulesProcessed r = Z.of_nat (length (followUpRules db contactId)))
  ∧ ∃ added,
      List.map ignoringUpdatedAt (instances db')
      = List.map ignoringUpdatedAt (instances db ++ added)
      ∧ instancesCreated r = Z.of_nat (length added)
      ∧ Forall
          (fun d =>
             ReminderInstance.type d = follow_up
             ∧ ReminderInstance.contactId d = contactId
             ∧ ReminderInstance.contactName d = None
             ∧ ∃ rule, In rule (rules db)
                       ∧ ReminderRule.isActive rule = true
                       ∧ instanceOf rule (ReminderRule.userId rule) d)
          added.
Proof.
  unfold rematerializeForContact.
  destruct (findContactById db contactId) as [contact|] eqn:Ec; simpl.
  - destruct (restageRules _ _ _ _ _ _) as [staged|] eqn:Es; [|discriminate].
    simpl. intros [= Ex].
    destruct (restageRules_inv _ _ _ _ _ _ _ Es) as (Hp & Ho). simpl in Hp, Ho.
    pose proof (executeBulk_inserted db (st_bulkOps staged)
                  (Contact.userId contact)
                  (st_processed staged) (st_errors staged)) as Hins.
    pose proof (executeBulk_spec db (st_bulkOps staged)
                  (Contact.userId contact)
                  (st_processed staged) (st_errors staged)) as Hspec.
    rewrite Ex in Hins, Hspec.
    assert (Hk : Forall keyed (st_bulkOps staged)).
    { rewrite Ho. apply List.Forall_forall. intros op Hop.
      apply in_flat_map in Hop as (rule & _ & Hop). unfold restagedFor in Hop.
      destruct (computeDueDates _ _ _ _); [|destruct Hop].
      apply in_map_iff in Hop as (d & <- & _). apply stageUpsert_keyed. }
    destruct (Hspec Hk) as (_ & _ & _ & Hu & Hrp & _).
    split; [discriminate|]. split.
    + intros c [= <-]. split; [exact Hu|]. rewrite Hrp, Hp. lia.
    + destruct Hins as (added & Hd & Hc & Hf).
      exists added. split; [exact Hd|]. split; [exact Hc|].
      eapply List.Forall_impl; [|exact Hf]. simpl.
      intros d (op & id & Hop & ->). rewrite Ho in Hop.
      apply in_flat_map in Hop as (rule & Hrule & Hop).
      unfold followUpRules in Hrule. apply filter_In in Hrule as [Hrule Hf'].
      apply andb_true_iff in Hf' as [Hf' Hact].
      apply andb_true_iff in Hf' as [Hcid Hty].
      apply String.eqb_eq in Hcid. apply bool_decide_eq_true in Hty.
      unfold restagedFor in Hop.
      destruct (computeDueDates _ _ _ _) as [dueDates|]; [|destruct Hop].
      apply in_map_iff in Hop as (due & <- & Hdue).
      apply validPrefix_In in Hdue as [_ Vdue]. simpl.
      repeat split; try assumption.
      exists rule. repeat split; assumption.
  - intros [= <- <-]. split; [auto|]. split; [discriminate|].
    exists []. rewrite app_nil_r. repeat split. constructor.
Qed.

Lemma rematerializeForContact_inserts_witness :
  ∃ r db' added,
    rematerializeForContact db_rematerialize "c1" free (midnight 2023 2 1 + 5000)
    = Some (r, db')
    ∧ rulesProcessed r = 1
    ∧ List.map ignoringUpdatedAt (instances db')
      = List.map ignoringUpdatedAt (instances db_rematerialize ++ added)
    ∧ Forall (fun d => ReminderInstance.type d = follow_up) added.
Proof.
  destruct (rematerializeForContact db_rematerialize "c1" free
              (midnight 2023 2 1 + 5000)) as [[r db']|] eqn:E;
    [|vm_compute in E; discriminate].
  destruct (rematerializeForContact_inserts db_rematerialize "c1" free
              (midnight 2023 2 1 + 5000) r db' E)
    as (_ & Hfound & added & Hd & _ & Hf).
  exists r, db', added. split; [reflexivity|]. split.
  - destruct (Hfound contact_ada eq_refl) as [_ ->]. reflexivity.
  - split; [exact Hd|]. eapply List.Forall_impl; [|exact Hf]. simpl. tauto.
Defined.

(** The example, evaluated: of the three rules on Ada only the active
    follow-up is rematerialized; a contact that does not exist is reported
    under its own id. *)
Lemma rematerializeForContact_example :
  match rematerializeForContact db_rematerialize "c1" free
          (midnight 2023 2 1 + 5000) with
  | Some (r, db') =>
      res_userId r = "u1"%string ∧ rulesProcessed r = 1
      ∧ instancesCreated r = 1 ∧ errors r = []
      ∧ List.map ReminderInstance.instanceKey (instances db')
        = [ "r2:2023-02-14" ]%string
  | None => False
  end
  ∧ rematerializeForContact db_rematerialize "c9" free (midnight 2023 2 1 + 5000)
    = Some ({| res_userId := ""; rulesProcessed := 0; instancesCreated := 0;
               instancesUpdated := 0; errors := [contactMissing "c9"] |},
            db_rematerialize).
Proof. vm_compute. repeat split. Qed.
End Rematerialize.

(** ** More on pruning                                                    *)

Section PruningMore.
Import Mongo Materializer MaterializerService.

Lemma filter_filter_same {A} (p : A → bool) l :
  List.filter p (List.filter p l) = List.filter p l.
Proof.
  induction l as [|x l IH]; [reflexivity|]. simpl.
  destruct (p x) eqn:E; simpl; [rewrite E|]; congruence.
Qed.

Lemma filter_filter_negb {A} (p : A → bool) l :
  List.filter p (List.filter (fun x => negb (p x)) l) = [].
Proof.
  induction l as [|x l IH]; [reflexivity|]. simpl.
  destruct (p x) eqn:E; simpl; [|rewrite E]; auto.
Qed.

Lemma filter_filter_implied {A} (p q : A → bool) l :
  (∀ x, q x = true → p x = true) →
  List.filter q (List.filter p l) = List.filter q l.
Proof.
  intros H. induction l as [|x l IH]; [reflexivity|]. cbn [List.filter].
  destruct (p x) eqn:Ep; cbn [List.filter].
  - now rewrite IH.
  - destruct (q x) eqn:Eq; [|exact IH]. rewrite (H x Eq) in Ep. discriminate.
Qed.

(** An instance due within the last 30 days is not stale. *)
Lemma recent_not_stale userId now d :
  now - 30 * msPerDay ≤ ReminderInstance.dueDate d →
  isStale userId now d = false.
Proof.
  intros H. apply not_true_iff_false. rewrite isStale_iff.
  unfold staleByDueDate. pose proof msPerDay_pos. lia.
Qed.

(** Pruning is idempotent: a second run at the same moment deletes
    nothing.  It never touches another user's instances, nor an instance
    due within the last 30 days; and what it returns is the number of
    instances gone. *)
Theorem prune_idempotent db userId now :
  let first := pruneStaleInstances db userId now in
  pruneStaleInstances first.2 userId now = (0, first.2)
  ∧ List.filter (fun d => negb (String.eqb (ReminderInstance.userId d) userId))
                (instances first.2)
    = List.filter (fun d => negb (String.eqb (ReminderInstance.userId d) userId))
                  (instances db)
  ∧ List.filter (fun d => now - 30 * msPerDay <=? ReminderInstance.dueDate d)
                (instances first.2)
    = List.filter (fun d => now - 30 * msPerDay <=? ReminderInstance.dueDate d)
                  (instances db)
  ∧ Z.of_nat (length (instances first.2)) + first.1
    = Z.of_nat (length (instances db))
  ∧ auditLog first.2 = auditLog db.
Proof.
  intros first. subst first. unfold pruneStaleInstances. cbn [fst snd instances].
  split; [|split; [|split; [|split]]].
  - rewrite filter_filter_negb, filter_filter_same. reflexivity.
  - apply filter_filter_implied. intros d Hd.
    apply negb_true_iff in Hd. apply negb_true_iff, not_true_iff_false.
    rewrite isStale_iff. intros [Hu _]. apply String.eqb_neq in Hd. auto.
  - apply filter_filter_implied. intros d Hd. apply Z.leb_le in Hd.
    apply negb_true_iff. now apply recent_not_stale.
  - pose proof (filter_split_length (isStale userId now) (instances db)). lia.
  - reflexivity.
Qed.

Lemma filter_ignoringUpdatedAt p l l' :
  (∀ d, p (ignoringUpdatedAt d) = p d) →
  List.map ignoringUpdatedAt l' = List.map ignoringUpdatedAt l →
  List.map ignoringUpdatedAt (List.filter p l')
  = List.map ignoringUpdatedAt (List.filter p l).
Proof.
  intros Hp. revert l'. induction l as [|x l IH]; intros [|y l'] E;
    try discriminate; [reflexivity|].
  cbn [List.map] in E.
  assert (Exy : ignoringUpdatedAt y = ignoringUpdatedAt x)
    by exact (f_equal (hd (ignoringUpdatedAt x)) E).
  assert (E' : List.map ignoringUpdatedAt l' = List.map ignoringUpdatedAt l)
    by exact (f_equal (@tl _) E).
  cbn [List.filter]. rewrite <- (Hp x), <- (Hp y), Exy.
  destruct (p (ignoringUpdatedAt x)); [|now apply IH].
  cbn [List.map]. rewrite Exy. apply (f_equal (cons _)). now apply IH.
Qed.

Lemma isStale_ignoringUpdatedAt userId now d :
  isStale userId now (ignoringUpdatedAt d) = isStale userId now d.
Proof. reflexivity. Qed.

Lemma startOfDay_le t : startOfDay t ≤ t < startOfDay t + msPerDay.
Proof.
  unfold startOfDay. pose proof (MakeDate_Day t) as E.
  pose proof (TimeWithinDay_bound t). unfold MakeDate in *. lia.
Qed.

(** Pruning right after materializing deletes what was stale before and
    none of the instances just created: these are due in the window, which
    starts today. *)
Theorem prune_keeps_materialized db userId plan now r db1 :
  materializeUser db userId plan now = Some (r, db1) →
  isValid (startOfDay now) = true →
  isValid (addDays (startOfDay now) (MATERIALIZATION_WINDOW plan)) = true →
  let pruned := pruneStaleInstances db1 userId now in
  pruned.1 = (pruneStaleInstances db userId now).1
  ∧ ∃ added,
      instancesCreated r = Z.of_nat (length added)
      ∧ List.map ignoringUpdatedAt (instances pruned.2)
        = List.map ignoringUpdatedAt
            (instances (pruneStaleInstances db userId now).2 ++ added).
Proof.
  intros H Vw Ve pruned.
  destruct (materializeUser_added _ _ _ _ _ _ H) as (added & Hd & Hc & Hf).
  assert (Hfresh : ∀ d, In d added → isStale userId now d = false).
  { intros d Hin. rewrite List.Forall_forall in Hf.
    destruct (Hf d Hin)
      as (rule & contact & dueDates & _ & _ & _ & _ & _ & _ & _ & _ & _ & _ & Hw).
    destruct (Hw Vw Ve) as [Hlo _].
    pose proof (startOfDay_le now). pose proof msPerDay_pos.
    apply recent_not_stale. unfold Date in *. lia. }
  assert (Hkeep : List.filter (fun d => negb (isStale userId now d)) added = added).
  { clear Hf Hd Hc. induction added as [|a added IH]; [reflexivity|].
    cbn [List.filter]. rewrite (Hfresh a) by now left. cbn [negb]. f_equal.
    apply IH. intros d Hd. apply Hfresh. now right. }
  assert (Hnone : List.filter (isStale userId now) added = []).
  { clear Hf Hd Hc Hkeep. induction added as [|a added IH]; [reflexivity|].
    cbn [List.filter]. rewrite (Hfresh a) by now left. apply IH.
    intros d Hd. apply Hfresh. now right. }
  subst pruned. unfold pruneStaleInstances. cbn [fst snd instances]. split.
  - pose proof (filter_ignoringUpdatedAt (isStale userId now) _ _
                  (isStale_ignoringUpdatedAt userId now) Hd) as Hs.
    apply (f_equal (@length _)) in Hs. rewrite !length_map in Hs.
    rewrite Hs, List.filter_app, Hnone, app_nil_r. reflexivity.
  - exists added. split; [exact Hc|].
    rewrite (filter_ignoringUpdatedAt (fun d => negb (isStale userId now d)) _ _
               (fun d => f_equal negb (isStale_ignoringUpdatedAt userId now d)) Hd).
    now rewrite List.filter_app, Hkeep.
Qed.

Lemma prune_keeps_materialized_witness :
  ∃ r db1,
    materializeUser db_three_rules "u1" pro (midnight 2023 2 1 + 5000)
    = Some (r, db1)
    ∧ (pruneStaleInstances db1 "u1" (midnight 2023 2 1 + 5000)).1
      = (pruneStaleInstances db_three_rules "u1" (midnight 2023 2 1 + 5000)).1.
Proof.
  destruct (materializeUser db_three_rules "u1" pro (midnight 2023 2 1 + 5000))
    as [[r db1]|] eqn:E; [|vm_compute in E; discriminate].
  exists r, db1. split; [reflexivity|].
  apply (prune_keeps_materialized db_three_rules "u1" pro
           (midnight 2023 2 1 + 5000) r db1 E); reflexivity.
Defined.
End PruningMore.

(** ** More on the instance actions                                       *)

Section ActionsMore.
Import Mongo Service.

Lemma updateFirst_length {A} (p : A → bool) f l old l' :
  updateFirst p f l = Some (old, l') → length l' = length l.
Proof.
  intros H. apply updateFirst_inv in H as (l1 & l2 & -> & -> & _).
  rewrite !length_app. reflexivity.
Qed.

(** What a guarded update does to the database. *)
Lemma findOneAndUpdate_frame db p f audit :
  let result := findOneAndUpdate db p f audit in
  rules result.2 = rules db ∧ contacts result.2 = contacts db
  ∧ nextObjectId result.2 = nextObjectId db
  ∧ length (instances result.2) = length (instances db)
  ∧ (result.1 = None →
     result.2 = db ∧ ∀ d, In d (instances db) → p d = false)
  ∧ (∀ d', result.1 = Some d' →
       auditLog result.2 = auditLog db ++ [audit]
       ∧ ∃ before d after,
           instances db = before ++ d :: after
           ∧ instances result.2 = before ++ d' :: after
           ∧ p d = true ∧ d' = f d
           ∧ ∀ x, In x before → p x = false).
Proof.
  unfold findOneAndUpdate.
  destruct (updateFirst p f (instances db)) as [[old docs']|] eqn:E; simpl.
  - pose proof (updateFirst_length _ _ _ _ _ E) as Hlen.
    apply updateFirst_inv in E as (l1 & l2 & El & -> & Hp & Hn).
    split; [reflexivity|]. split; [reflexivity|]. split; [reflexivity|].
    split; [exact Hlen|]. split; [discriminate|].
    intros d' [= <-]. split; [reflexivity|].
    exists l1, old, l2. repeat split; auto.
  - split; [reflexivity|]. split; [reflexivity|]. split; [reflexivity|].
    split; [reflexivity|]. split; [|discriminate].
    intros _. split; [reflexivity|].
    now apply updateFirst_None_inv with (f := f).
Qed.

Lemma runAction_eq a db instanceId userId now :
  ∃ statuses f,
    runAction a db instanceId userId now
    = findOneAndUpdate db (actionFilter instanceId userId statuses) f
        (auditOf userId (auditActionOf a) instanceId)
    ∧ (∀ d, sameIdentity d (f d))
    ∧ (∀ d, ReminderInstance.updatedAt (f d) = now)
    ∧ (completed ∉ statuses) ∧ (skipped ∉ statuses).
Proof.
  destruct a; eexists _, _;
    (split; [reflexivity|]; split; [intros d; repeat split|];
     split; [reflexivity|]);
    split; intros H;
    repeat (apply elem_of_cons in H as [H|H]; [discriminate H|]);
    apply elem_of_nil in H; exact H.
Qed.

(** An action touches one instance at most.  Whichever of the four it is,
    it leaves rules, contacts and the number of instances as they were.
    When it returns null nothing has changed, not even the audit log.  When
    it returns a document, that document has replaced, in place, the first
    instance with the given id that belongs to the given user and is
    neither completed nor skipped; every other instance is as it was; id,
    rule, user, contact, key, due date, type, priority, contact name, title
    and creation time of the document are those of the instance it
    replaces; and the audit log has grown by one entry, which for
    [unsnooze] reads "REMINDER_COMPLETE" as for [markDone]. *)
Theorem action_touches_one_instance a db instanceId userId now :
  let result := runAction a db instanceId userId now in
  rules result.2 = rules db ∧ contacts result.2 = contacts db
  ∧ length (instances result.2) = length (instances db)
  ∧ (result.1 = None → result.2 = db)
  ∧ (∀ d', result.1 = Some d' →
       auditLog result.2
       = auditLog db ++ [auditOf userId (auditActionOf a) instanceId]
       ∧ ∃ before d after,
           instances db = before ++ d :: after
           ∧ instances result.2 = before ++ d' :: after
           ∧ addressed instanceId userId d
           ∧ ¬ terminal d
           ∧ sameIdentity d d'
           ∧ ReminderInstance.updatedAt d' = now).
Proof.
  intros result. subst result.
  destruct (runAction_eq a db instanceId userId now)
    as (statuses & f & -> & Hid & Hup & Hc & Hs).
  destruct (findOneAndUpdate_frame db (actionFilter instanceId userId statuses) f
              (auditOf userId (auditActionOf a) instanceId))
    as (Hr & Hcs & _ & Hlen & Hmiss & Hhit).
  split; [exact Hr|]. split; [exact Hcs|]. split; [exact Hlen|].
  split; [intros Hn; apply (Hmiss Hn)|].
  intros d' Hd'. destruct (Hhit d' Hd') as (Ha & before & d & after & E1 & E2 & Hp & -> & _).
  split; [exact Ha|]. exists before, d, after.
  apply actionFilter_true in Hp as [Haddr Hst].
  repeat split; try assumption; try apply Haddr; try apply Hid; try apply Hup.
  intros [Ht|Ht]; rewrite Ht in Hst; auto.
Qed.

(** No user reaches another user's instance: when every instance with the
    given id belongs to someone else, each action returns null and changes
    nothing. *)
Theorem action_on_foreign_instance_misses a db instanceId userId now :
  (∀ d, In d (instances db) → ReminderInstance._id d = instanceId →
        ReminderInstance.userId d ≠ userId) →
  runAction a db instanceId userId now = (None, db).
Proof.
  intros H.
  destruct (runAction_eq a db instanceId userId now)
    as (statuses & f & -> & _).
  apply findOneAndUpdate_miss. intros d Hd.
  apply not_true_is_false. rewrite actionFilter_true.
  intros [[Hid Hu] _]. exact (H d Hd Hid Hu).
Qed.

Lemma action_on_foreign_instance_misses_witness :
  runAction Done db_two_users "i7" "u1" (midnight 2023 3 12)
  = (None, db_two_users)
  ∧ runAction (Snooze {| days := None; until := None |}) db_two_users "i7" "u1"
              (midnight 2023 3 12)
    = (None, db_two_users).
Proof.
  split; apply action_on_foreign_instance_misses;
    intros d Hd Hid; vm_compute in Hd;
    repeat (destruct Hd as [<-|Hd]; [try discriminate Hid; discriminate|]);
    destruct Hd.
Defined.


End ActionsMore.

(** ** Deleting a rule                                                    *)

Section DeleteRule.
Import Mongo Service MaterializerService.

Lemma deleteFirst_inv {A} (p : A → bool) l old l' :
  deleteFirst p l = Some (old, l') →
  ∃ l1 l2, l = l1 ++ old :: l2 ∧ l' = l1 ++ l2
           ∧ p old = true ∧ ∀ y, In y l1 → p y = false.
Proof.
  revert l'. induction l as [|x l IH]; intros l'; simpl; [discriminate|].
  destruct (p x) eqn:Hp.
  - intros [= <- <-]. exists [], l. simpl. repeat split; auto. intros y [].
  - destruct (deleteFirst p l) as [[y l'']|]; [|discriminate].
    intros [= <- <-]. destruct (IH _ eq_refl) as (l1 & l2 & -> & -> & Ho & Hn).
    exists (x :: l1), l2. repeat split; auto.
    intros z [<-|Hz]; auto.
Qed.

Lemma deleteFirst_None_inv {A} (p : A → bool) l :
  deleteFirst p l = None → ∀ x, In x l → p x = false.
Proof.
  induction l as [|x l IH]; simpl; [intros _ y []|].
  destruct (p x) eqn:Hp; [discriminate|].
  destruct (deleteFirst p l) as [[y l'']|]; [discriminate|].
  intros _ z [<-|Hz]; auto.
Qed.

Lemma find_none_intro {A} (p : A → bool) l :
  (∀ x, In x l → p x = false) → List.find p l = None.
Proof.
  induction l as [|x l IH]; intros H; [reflexivity|]. simpl.
  rewrite (H x) by now left. apply IH. intros y Hy. apply H. now right.
Qed.

(** Deleting a rule cascades.  When the user owns a rule with the given id,
    that rule is removed, every instance that refers to the rule id is
    removed with it (whoever its user and whatever its status), every other
    instance stays, in order, and one audit entry is written.  When the
    user owns no such rule, nothing changes.  A rule whose id is unique is
    not found by [materializeRule] afterwards: the instances do not come
    back. *)
Theorem deleteRule_cascades db ruleId userId :
  let result := deleteRule db ruleId userId in
  contacts result.2 = contacts db
  ∧ (result.1 = false →
     result.2 = db
     ∧ ∀ r, In r (rules db) → ReminderRule._id r = ruleId →
            ReminderRule.userId r ≠ userId)
  ∧ (result.1 = true →
     (∃ before rule after,
         rules db = before ++ rule :: after
         ∧ rules result.2 = before ++ after
         ∧ ReminderRule._id rule = ruleId ∧ ReminderRule.userId rule = userId)
     ∧ instances result.2
       = List.filter (fun d => negb (String.eqb (ReminderInstance.ruleId d) ruleId))
                     (instances db)
     ∧ (∀ d, In d (instances result.2) → ReminderInstance.ruleId d ≠ ruleId)
     ∧ (∀ d, In d (instances db) → ReminderInstance.ruleId d ≠ ruleId →
             In d (instances result.2))
     ∧ length (auditLog result.2) = S (length (auditLog db))
     ∧ (uniqueRuleId db ruleId →
        ∀ plan now,
          materializeRule result.2 ruleId plan now
          = Some ({| res_userId := ""; rulesProcessed := 0;
                     instancesCreated := 0; instancesUpdated := 0;
                     errors := [ {| err_ruleId := ruleId;
                                    err_error := "Rule not found" |} ] |},
                  result.2))).
Proof.
  intros result. subst result. unfold deleteRule.
  destruct (deleteFirst _ (rules db)) as [[rule rules']|] eqn:E; cbn [fst snd].
  - apply deleteFirst_inv in E as (l1 & l2 & El & -> & Hp & Hn).
    apply andb_true_iff in Hp as [Hid Hu].
    apply String.eqb_eq in Hid, Hu.
    split; [reflexivity|]. split; [discriminate|]. intros _.
    split; [exists l1, rule, l2; auto|]. cbn [instances auditLog rules].
    split; [reflexivity|]. split; [|split; [|split]].
    + intros d Hd. apply filter_In in Hd as [_ Hd].
      apply negb_true_iff, String.eqb_neq in Hd. exact Hd.
    + intros d Hd Hne. apply filter_In. split; [exact Hd|].
      apply negb_true_iff, String.eqb_neq. exact Hne.
    + rewrite length_app. simpl. lia.
    + intros Huniq plan now. unfold materializeRule, findRuleById.
      cbn [rules].
      destruct (Huniq l1 rule l2 El Hid) as [Hb Ha].
      assert (Hnone : List.find (fun r => String.eqb (ReminderRule._id r) ruleId)
                                (l1 ++ l2) = None).
      { apply find_none_intro. intros r Hr. apply String.eqb_neq.
        apply in_app_iff in Hr as [Hr|Hr]; auto. }
      rewrite Hnone. reflexivity.
  - split; [reflexivity|]. split; [|discriminate]. intros _.
    split; [reflexivity|]. intros r Hr Hid Hu.
    pose proof (deleteFirst_None_inv _ _ E r Hr) as Hf. simpl in Hf.
    apply andb_false_iff in Hf as [Hf|Hf]; apply String.eqb_neq in Hf; auto.
Qed.

(** The example, evaluated: deleting the birthday rule [r1] of [u1] takes
    the two instances of [r1] away and leaves the third; another user
    cannot delete it. *)
Lemma deleteRule_example :
  (let result := deleteRule db_rule_with_instances "r1" "u1" in
   result.1 = true
   ∧ rules result.2 = [rule_follow_up_30]
   ∧ instances result.2 = [instance_of_u2])
  ∧ deleteRule db_rule_with_instances "r1" "u2" = (false, db_rule_with_instances).
Proof. vm_compute. repeat split. Qed.
End DeleteRule.

(** ** More on the Today Queue                                            *)

Section QueueMore.
Import TodayQueue.

Lemma matchCriteria_true userId includeOverdue now d :
  matchCriteria userId includeOverdue now d = true ↔
  ReminderInstance.userId d = userId
  ∧ ReminderInstance.status d = pending
  ∧ ReminderInstance.dueDate d ≤ endOfDay now
  ∧ (includeOverdue = false → startOfDay now ≤ ReminderInstance.dueDate d)
  ∧ notSnoozedAt now d = true.
Proof.
  unfold matchCriteria, notSnoozedAt.
  rewrite !andb_true_iff, String.eqb_eq, bool_decide_eq_true.
  destruct includeOverdue.
  - rewrite Z.leb_le. intuition discriminate.
  - rewrite andb_true_iff, !Z.leb_le. intuition.
Qed.

Lemma In_firstn {A} n (l : list A) x : In x (firstn n l) → In x l.
Proof.
  intros H. rewrite <- (firstn_skipn n l). apply in_or_app. now left.
Qed.

Lemma startOfDay_endOfDay t : startOfDay t ≤ t ≤ endOfDay t.
Proof.
  unfold startOfDay, endOfDay. pose proof (MakeDate_Day t) as E.
  pose proof (TimeWithinDay_bound t). unfold MakeDate in *. lia.
Qed.

(** The badge count is the queue's total: [getTodayCount] counts exactly
    the instances the queue, overdue ones included, ranks, whatever the
    plan's cap. *)
Theorem todayCount_is_queue_total db userId plan now :
  ∃ r, getQueue db userId plan true now = Some r
       ∧ total r = getTodayCount db userId now
       ∧ Z.of_nat (length (items r)) = Z.min (getTodayCount db userId now)
                                             (QUEUE_CAPS plan).
Proof.
  rewrite getQueue_eq. cbv zeta. eexists. split; [reflexivity|].
  cbn [total items]. rewrite length_take, length_sortStage, length_map.
  unfold getTodayCount.
  assert (E : List.filter (matchCriteria userId true now) (instances db)
              = List.filter
                  (fun d => String.eqb (ReminderInstance.userId d) userId
                            && bool_decide (ReminderInstance.status d = pending)
                            && (ReminderInstance.dueDate d <=? endOfDay now)
                            && notSnoozedAt now d)
                  (instances db)).
  { apply filter_ext. intros d. reflexivity. }
  rewrite <- E. split; [reflexivity|].
  assert (0 < QUEUE_CAPS plan) by (destruct plan; reflexivity). lia.
Qed.

(** Who is in the queue.  Every item is one of the user's instances, is
    pending (a snoozed, completed or skipped instance is never shown, even
    after its [snoozedUntil] has passed), is due by the end of today, and
    is not snoozed beyond now.  When overdue instances are left out, every
    item is due today, is not overdue, and its score is its base score
    times its multiplier. *)
Theorem queue_items_are_selected db userId plan includeOverdue now :
  ∃ r, getQueue db userId plan includeOverdue now = Some r
       ∧ Forall
           (fun x =>
              In (doc x) (instances db)
              ∧ ReminderInstance.userId (doc x) = userId
              ∧ ReminderInstance.status (doc x) = pending
              ∧ ReminderInstance.dueDate (doc x) ≤ endOfDay now
              ∧ notSnoozedAt now (doc x) = true
              ∧ 0 ≤ daysOverdue x
              ∧ (includeOverdue = false →
                 startOfDay now ≤ ReminderInstance.dueDate (doc x)
                 ∧ daysOverdue x = 0
                 ∧ score x
                   = REMINDER_TYPE_SCORES (ReminderInstance.type (doc x))
                     * PRIORITY_MULTIPLIERS (ReminderInstance.priority (doc x))))
           (items r).
Proof.
  rewrite getQueue_eq. cbv zeta. eexists. split; [reflexivity|].
  cbn [items]. apply List.Forall_forall. intros x Hx.
  apply In_firstn in Hx. unfold sortStage in Hx.
  apply list_elem_of_In in Hx. rewrite merge_sort_Permutation in Hx.
  apply list_elem_of_In, in_map_iff in Hx as (d & <- & Hd).
  apply filter_In in Hd as [Hd Hm].
  apply matchCriteria_true in Hm as (Hu & Hs & Hdue & Hinc & Hsn).
  destruct (addFields_formula (startOfDay now) d) as [Hdo Hsc].
  assert (Edoc : doc (addFields (startOfDay now) d) = d) by reflexivity.
  rewrite Edoc in *. repeat split; try assumption.
  - rewrite Hdo. lia.
  - auto.
  - rewrite Hdo. specialize (Hinc H).
    assert ((startOfDay now - ReminderInstance.dueDate d) / msPerDay ≤ 0).
    { apply Z.div_le_upper_bound; [apply msPerDay_pos|]. unfold Date in *. lia. }
    lia.
  - rewrite Hsc, Hdo. specialize (Hinc H).
    assert ((startOfDay now - ReminderInstance.dueDate d) / msPerDay ≤ 0).
    { apply Z.div_le_upper_bound; [apply msPerDay_pos|]. unfold Date in *. lia. }
    replace (Z.max 0 ((startOfDay now - ReminderInstance.dueDate d) / msPerDay))
      with 0 by lia.
    unfold OVERDUE_PENALTY_PER_DAY. lia.
Qed.

(** The due dates of the queue's items, and its total. *)
Lemma queue_items_selected_aux db userId plan includeOverdue now :
  ∃ r, getQueue db userId plan includeOverdue now = Some r
       ∧ Forall (fun x => ReminderInstance.dueDate (doc x) ≤ endOfDay now)
                (items r).
Proof.
  rewrite getQueue_eq. cbv zeta. eexists. split; [reflexivity|].
  cbn [items]. apply List.Forall_forall. intros x Hx.
  apply In_firstn in Hx. unfold sortStage in Hx.
  apply list_elem_of_In in Hx. rewrite merge_sort_Permutation in Hx.
  apply list_elem_of_In, in_map_iff in Hx as (d & <- & Hd).
  apply filter_In in Hd as [Hd Hm].
  apply matchCriteria_true in Hm as (_ & _ & Hdue & _). exact Hdue.
Qed.

Lemma queue_total_aux db userId plan includeOverdue now :
  ∃ r, getQueue db userId plan includeOverdue now = Some r
       ∧ total r = Z.of_nat (length (selected db userId includeOverdue now)).
Proof.
  rewrite getQueue_eq. cbv zeta. eexists. split; [reflexivity|].
  cbn [total]. now rewrite length_sortStage, length_map.
Qed.

#[local] Instance dueDateOrder_total : Total dueDateOrder.
Proof. intros x y. unfold dueDateOrder. lia. Qed.

#[local] Instance dueDateOrder_trans : Transitive dueDateOrder.
Proof. intros x y z. unfold dueDateOrder. lia. Qed.

(** [getOverdue] lists instances the queue selects: each is one of the
    user's pending instances due before today and so passes the queue's
    match with overdue instances included; the list is ascending by due
    date and holds 100 instances at most.  An overdue instance whose due
    date is a date at midnight is overdue by a day or more; one due
    yesterday at noon counts zero days overdue at one o'clock today. *)
Theorem overdue_are_selected db userId now :
  Forall
    (fun d =>
       In d (instances db)
       ∧ ReminderInstance.dueDate d < startOfDay now
       ∧ matchCriteria userId true now d = true
       ∧ 0 ≤ daysOverdue (addFields (startOfDay now) d)
       ∧ (TimeWithinDay (ReminderInstance.dueDate d) = 0 →
          1 ≤ daysOverdue (addFields (startOfDay now) d)))
    (getOverdue db userId now)
  ∧ StronglySorted dueDateOrder (getOverdue db userId now)
  ∧ (length (getOverdue db userId now) ≤ 100)%nat.
Proof.
  unfold getOverdue, queryLimit. change (100 =? 0) with false. cbv iota.
  change (Z.to_nat (Z.abs 100)) with 100%nat.
  split; [|split].
  - apply List.Forall_forall. intros d Hd. apply In_firstn in Hd.
    apply list_elem_of_In in Hd. rewrite merge_sort_Permutation in Hd.
    apply list_elem_of_In, filter_In in Hd as [Hd Hf].
    rewrite !andb_true_iff, String.eqb_eq, bool_decide_eq_true, Z.ltb_lt in Hf.
    destruct Hf as [[[Hu Hs] Hlt] Hsn].
    pose proof (startOfDay_endOfDay now) as [Hlo Hhi].
    destruct (addFields_formula (startOfDay now) d) as [Hdo _].
    change (doc (addFields (startOfDay now) d)) with d in Hdo.
    split; [exact Hd|]. split; [exact Hlt|]. split; [|split].
    + apply matchCriteria_true. repeat split; try assumption; [lia|discriminate].
    + rewrite Hdo. lia.
    + intros Hal. rewrite Hdo.
      pose proof (aligned_MakeDate _ Hal) as Ed.
      pose proof (aligned_MakeDate _ (startOfDay_aligned now)) as Ew.
      pose proof msPerDay_pos.
      assert (Hdays : Day (ReminderInstance.dueDate d) < Day (startOfDay now)).
      { apply (Z.mul_lt_mono_pos_r msPerDay); [assumption|].
        unfold Date in *. lia. }
      assert (1 ≤ (startOfDay now - ReminderInstance.dueDate d) / msPerDay).
      { apply Z.div_le_lower_bound; [assumption|].
        rewrite Ed, Ew.
        replace (Day (startOfDay now) * msPerDay
                 - Day (ReminderInstance.dueDate d) * msPerDay)
          with ((Day (startOfDay now) - Day (ReminderInstance.dueDate d))
                * msPerDay) by (unfold Date; ring).
        assert (1 * msPerDay
                ≤ (Day (startOfDay now) - Day (ReminderInstance.dueDate d))
                  * msPerDay)
          by (apply Z.mul_le_mono_nonneg_r; lia).
        unfold Date in *. lia. }
      lia.
  - apply take_sorted, StronglySorted_merge_sort; apply _.
  - apply firstn_le_length.
Qed.

Lemma overdue_yesterday_noon_counts_zero :
  let due := midnight 2023 3 11 + 12 * 3600000 in
  let now := midnight 2023 3 12 + 3600000 in
  getOverdue (db_of [pending_instance "i9" follow_up medium due]) "u1" now
  = [pending_instance "i9" follow_up medium due]
  ∧ daysOverdue (addFields (startOfDay now)
                           (pending_instance "i9" follow_up medium due)) = 0.
Proof. vm_compute. split; reflexivity. Qed.

(** What is upcoming is not in today's queue: [getUpcoming] lists pending
    instances of the user that are due after the end of today, which the
    queue's match refuses; ascending by due date, 50 at most. *)
Theorem upcoming_not_in_queue db userId plan days now includeOverdue :
  Forall
    (fun d =>
       In d (instances db)
       ∧ ReminderInstance.userId d = userId
       ∧ ReminderInstance.status d = pending
       ∧ endOfDay now < ReminderInstance.dueDate d
       ∧ matchCriteria userId includeOverdue now d = false)
    (getUpcoming db userId days now)
  ∧ StronglySorted dueDateOrder (getUpcoming db userId days now)
  ∧ (length (getUpcoming db userId days now) ≤ 50)%nat
  ∧ ∃ r, getQueue db userId plan includeOverdue now = Some r
         ∧ ∀ x, In x (items r) →
                ¬ In (doc x) (getUpcoming db userId days now).
Proof.
  assert (Hup : Forall
            (fun d =>
               In d (instances db)
               ∧ ReminderInstance.userId d = userId
               ∧ ReminderInstance.status d = pending
               ∧ endOfDay now < ReminderInstance.dueDate d
               ∧ matchCriteria userId includeOverdue now d = false)
            (getUpcoming db userId days now)).
  { unfold getUpcoming, queryLimit. change (50 =? 0) with false. cbv iota.
    apply List.Forall_forall. intros d Hd. apply In_firstn in Hd.
    apply list_elem_of_In in Hd. rewrite merge_sort_Permutation in Hd.
    apply list_elem_of_In, filter_In in Hd as [Hd Hf].
    rewrite !andb_true_iff, String.eqb_eq, bool_decide_eq_true, Z.ltb_lt in Hf.
    destruct Hf as [[[[Hu Hs] Hlt] _] _].
    repeat split; try assumption.
    apply not_true_iff_false. rewrite matchCriteria_true.
    intros (_ & _ & Hle & _). lia. }
  split; [exact Hup|]. split; [|split].
  - unfold getUpcoming, queryLimit. change (50 =? 0) with false. cbv iota.
    apply take_sorted, StronglySorted_merge_sort; apply _.
  - unfold getUpcoming, queryLimit. change (50 =? 0) with false. cbv iota.
    apply firstn_le_length.
  - destruct (queue_items_selected_aux db userId plan includeOverdue now)
      as (r & Hr & Hitems).
    exists r. split; [exact Hr|]. intros x Hx Hin.
    rewrite List.Forall_forall in Hitems, Hup.
    destruct (Hup _ Hin) as (_ & _ & _ & Hlt & _).
    pose proof (Hitems x Hx) as Hle. simpl in Hle. lia.
Qed.

(** The path that does not score under-reports.  With [T] instances
    selected and the plan's cap [N], it returns the first [min T N] by due
    date, with score 0, and tells rightly whether the queue is capped; but
    it fetches [N + 1] instances at most and reports [min T (N + 1)] as the
    total, where the scoring path reports [T]. *)
Theorem unscored_queue_total db userId plan includeOverdue now :
  let T := Z.of_nat (length (selected db userId includeOverdue now)) in
  let N := QUEUE_CAPS plan in
  ∃ r, getTodayQueue db (unscored userId plan includeOverdue) now = Some r
       ∧ Z.of_nat (length (items r)) = Z.min T N
       ∧ total r = Z.min T (N + 1)
       ∧ capped r = bool_decide (N < T)
       ∧ appliedCap r = N
       ∧ Forall (fun x => score x = 0 ∧ 0 ≤ daysOverdue x
                          ∧ In (doc x) (selected db userId includeOverdue now))
                (items r)
       ∧ (N + 1 < T → total r < T)
       ∧ ∃ r', getQueue db userId plan includeOverdue now = Some r'
               ∧ total r' = T.
Proof.
  intros T N. unfold getTodayQueue, unscored.
  cbv beta iota zeta delta [opt_userId opt_plan opt_limit opt_includeOverdue
                            opt_skipScoring default from_option id].
  fold (selected db userId includeOverdue now).
  set (matched := selected db userId includeOverdue now) in *.
  set (sorted := merge_sort dueOrder matched).
  assert (Hlen : length sorted = length matched).
  { subst sorted. apply Permutation_length, merge_sort_Permutation. }
  assert (Hin : ∀ d, In d sorted → In d matched).
  { intros d Hd. subst sorted. apply list_elem_of_In in Hd.
    rewrite merge_sort_Permutation in Hd. now apply list_elem_of_In. }
  fold N.
  assert (HN : N = 10 ∨ N = 25) by (subst N; destruct plan; auto).
  assert (Hfound : queryLimit (N + 1) sorted = firstn (Z.to_nat (N + 1)) sorted).
  { unfold queryLimit. destruct (Z.eqb_spec (N + 1) 0); [lia|].
    now rewrite Z.abs_eq by lia. }
  rewrite Hfound.
  set (found := firstn (Z.to_nat (N + 1)) sorted).
  assert (Hflen : Z.of_nat (length found) = Z.min T (N + 1)).
  { subst found. rewrite length_take, Hlen. fold T. lia. }
  assert (Hslice : slice0 N found = firstn (Z.to_nat N) found).
  { unfold slice0. destruct (Z.ltb_spec N 0); [lia|reflexivity]. }
  rewrite Hslice.
  assert (Hcap : (Z.of_nat (length found) >? N) = bool_decide (N < T)).
  { rewrite Hflen. destruct (Z.gtb_spec (Z.min T (N + 1)) N); symmetry;
      [apply bool_decide_eq_true|apply bool_decide_eq_false]; lia. }
  eexists. split; [reflexivity|]. cbn [items total capped appliedCap].
  rewrite Hcap, length_map, length_take.
  split; [lia|]. split.
  { destruct (bool_decide (N < T)) eqn:E.
    - exact Hflen.
    - apply bool_decide_eq_false in E. lia. }
  split; [reflexivity|]. split; [reflexivity|]. split.
  { apply List.Forall_forall. intros x Hx.
    apply in_map_iff in Hx as (d & <- & Hd). cbn [score daysOverdue doc].
    split; [reflexivity|]. split; [unfold computeDaysOverdue; lia|].
    apply Hin. subst found. now apply In_firstn, In_firstn in Hd. }
  split.
  { intros Hbig. assert (Hlt : N < T) by lia.
    rewrite (bool_decide_eq_true_2 _ Hlt). lia. }
  destruct (queue_total_aux db userId plan includeOverdue now) as (r' & Hr' & Ht).
  exists r'. split; [exact Hr'|]. exact Ht.
Qed.
End QueueMore.
